(** * gvisor-tap-vsock: the gvproxy daemon, its SSH socket forwarder and the
      UDP forwarder, embedded in Rocq.

    The Go sources are embedded shallowly.  Pure code ([backOff], the flag
    checks, the NAT lookup) becomes plain functions.  Code that talks to the
    outside (sockets, the SSH client, timers, the context) runs in a small
    state monad [M]: every call whose result the program branches on asks an
    oracle for its outcome and records the call together with the outcome in
    a log, so that a theorem quantified over all oracles speaks about every
    possible behaviour of the environment. *)

From Stdlib Require Import ZArith List Bool Ascii String Lia.
From stdpp Require Import base option list gmap strings.
Import ListNotations.

Local Open Scope string_scope.
Local Open Scope list_scope.
Local Open Scope Z_scope.

(** ** Go values shared by the packages *)

(** A Go [error]: [None] is [nil]. *)
Definition error := option string.

(** [errors.Wrapf(err, msg)] of github.com/pkg/errors: [nil] stays [nil]. *)
Definition Wrapf (err : error) (msg : string) : error :=
  match err with
  | None => None
  | Some e => Some (msg +:+ ": " +:+ e)
  end.

(** [time.Duration] is an [int64] count of nanoseconds. *)
Definition Duration := Z.
Definition wrap64 (z : Z) : Z := (z + 2 ^ 63) mod 2 ^ 64 - 2 ^ 63.
Definition Millisecond : Duration := 1000000.
Definition Second : Duration := 1000 * Millisecond.

(** ** The environment: calls, outcomes and the log *)

(** Listeners are told apart by the place that creates them. *)
Inductive listener :=
| EndpointLn (i : nat)     (* transport.Listen(endpoint), i-th --listen *)
| VpnkitLn                 (* transport.Listen(vpnkitSocket) *)
| QemuLn                   (* transport.Listen(qemuSocket) *)
| ForwardLn.               (* listenUnix(socketURI) of the SSH forwarder *)

(** The goroutines of cmd/gvproxy, by the closure each runs. *)
Inductive task :=
| RunTask                  (* run(ctx, groupErrs, &config, endpoints) *)
| SignalWait               (* the select on sigChan and ctx.Done() *)
| CloseOnDone (ln : listener)   (* <-ctx.Done(); return ln.Close() *)
| ServeHTTP (ln : listener)     (* http.Serve(ln, withProfiler(vn)) *)
| DebugLog                 (* the 5 s throughput log *)
| VpnkitAccept             (* the vpnkit accept loop *)
| AcceptVpnKit             (* vn.AcceptVpnKit(conn) *)
| QemuClose                (* close and remove the qemu socket when done *)
| QemuAccept               (* the qemu accept *)
| SSHForward               (* the SSH socket forwarder *)
| ForwardClose.            (* <-ctx.Done(); forward.Close() *)

(** The calls the embedded code makes to its environment. *)
Inductive call :=
| CtxDone                              (* select on <-ctx.Done() *)
| Connect                              (* connectFunc(nil) *)
| Sleep (wait : Duration)              (* sleep(ctx, wait) *)
| Accept (ln : listener)               (* ln.Accept() *)
| IsCloseWriteStream                   (* con.(CloseWriteStream) *)
| Dial (network path : string)         (* bastion.Client.Dial *)
| SendRequest (name : string) (wantReply : bool)
| Reconnect                            (* bastion.Reconnect() *)
| ConClose                             (* con.Close() *)
| LogError (msg : string)              (* logrus.Error *)
| LogDebug (msg : string)              (* logrus.Debugf *)
| GoForward (src_is_local : bool)      (* go forward(src, dest) *)
(* pkg/sshclient *)
| ReadIdentity (path : string)         (* PublicKey(path, passphrase) *)
| ConnectCallback                      (* bastion.connect(bastion) *)
| VerifyHostKey                        (* config.HostKeyCallback(...) *)
| Handshake (addr : string)            (* the rest of ssh.NewClientConn *)
(* pkg/services/forwarder *)
| NatLock | NatUnlock
| CreateEndpoint                       (* r.CreateEndpoint(&wq) *)
| ProxyRun (network host : string) (port : Z)
    (* go p.Run() of the proxy whose dialer is
       net.Dial(network, fmt.Sprintf("%s:%d", host, port)) *)
(* cmd/gvproxy and the calls of its goroutines *)
| Stat (path : string)                 (* os.Stat *)
| CreateFile (path : string)           (* os.Create *)
| WriteString                          (* f.WriteString *)
| RemoveFile (path : string)           (* os.Remove *)
| VNNew                                (* virtualnetwork.New *)
| Listen (ln : listener) (addr : string)
| Go (t : task)                        (* g.Go(...) or go ... *)
| WaitDone                             (* <-ctx.Done() *)
| CloseLn (ln : listener)              (* ln.Close() *)
| Serve (ln : listener)                (* http.Serve *)
| Printf                               (* the throughput line *)
| VNAcceptVpnKit                       (* vn.AcceptVpnKit(conn) *)
| VNAcceptQemu                         (* vn.AcceptQemu(ctx, conn) *)
| SignalCaught                         (* case <-sigChan *)
| TaskFailed                           (* some goroutine returns an error *)
| Cancel                               (* cancel() *)
| OsExit (code : Z).                   (* os.Exit *)

(** The outcome of a loop the source does not bound: its value, or the
    model ran out of fuel before the loop ended. *)
Inductive fueled (A : Type) :=
| Done (a : A)
| OutOfFuel.
Arguments Done {A} a.
Arguments OutOfFuel {A}.

(** One log entry: the call and its outcome.  For a call that can fail the
    outcome [true] is success ([err == nil], [ok], a timer that fired) and
    [false] is failure; for [CtxDone] it says whether the context is done. *)
Definition entry := (call * bool)%type.

Record env := Env {
  oracle : nat -> bool;   (* outcome of the n-th asked call *)
  asked  : nat;           (* calls asked so far *)
  log    : list entry
}.

Definition M (A : Type) := env -> A * env.

Definition ret {A} (a : A) : M A := fun e => (a, e).
Definition bind {A B} (m : M A) (k : A -> M B) : M B :=
  fun e => let (a, e') := m e in k a e'.

Notation "'do' x <- m ; k" := (bind m (fun x => k))
  (at level 10, x name, m at level 100, k at level 200,
   format "'[v' 'do'  x  <-  m ; '/' k ']'").

(** A call whose outcome the program looks at. *)
Definition ask (c : call) : M bool := fun e =>
  let b := oracle e (asked e) in
  (b, Env (oracle e) (S (asked e)) (log e ++ [(c, b)])).

(** A call whose outcome the embedding computes itself. *)
Definition note (c : call) (b : bool) : M unit := fun e =>
  (tt, Env (oracle e) (asked e) (log e ++ [(c, b)])).

(** A call whose outcome the program ignores. *)
Definition tell (c : call) : M unit := note c true.

Definition start (o : nat -> bool) : env := Env o 0 [].

(** The result and the log of a computation run from scratch. *)
Definition result {A} (m : M A) (o : nat -> bool) : A := fst (m (start o)).
Definition trace {A} (m : M A) (o : nat -> bool) : list entry :=
  log (snd (m (start o))).

(** An oracle given by a finite script, [dflt] afterwards. *)
Definition script (l : list bool) (dflt : bool) : nat -> bool :=
  fun n => nth n l dflt.

(** A connection handle; the embedding only tells them apart. *)
Inductive conn := StackConn | Channel.

(** The error a failed call reports. *)
Definition err_of (what : string) (ok : bool) : error :=
  if ok then None else Some what.

(** ** io.Copy and the byte streams it moves *)

Module io.

(** The error of one [Read]. *)
Inductive readErr := NoErr | EOF | ReadFailed.

(** A reader is the sequence of results its [Read] calls give, the bytes
    and the error of each; after the last one [Read] returns [0, EOF]. *)
Definition Reader := list (list Byte.byte * readErr).

(** A writer is the sequence of results of its [Write] calls: the count
    [nw] it reports and whether it reports an error.  After the last one
    every [Write] takes the whole buffer. *)
Definition Writer := list (Z * bool).

(** What reaches the far side of a writer, and the two closes of a pump. *)
Inductive event :=
| Wrote (bs : list Byte.byte)
| CloseWrite
| SrcClose.

Definition Write (dst : Writer) (buf : list Byte.byte)
    : (Z * bool) * Writer :=
  match dst with
  | [] => ((Z.of_nat (length buf), false), [])
  | r :: dst' => (r, dst')
  end.

(** The loop of [io.Copy] (the generic path of [copyBuffer]); [written]
    is its running count. *)
Fixpoint Copy_loop (dst : Writer) (src : Reader) (written : Z)
    : (Z * error) * list event :=
  match src with
  | [] => ((written, None), [])
  | (buf, er) :: src' =>
      let nr := Z.of_nat (length buf) in
      (* if nr > 0 { ... }: the first component is the error of a break *)
      let '(brk, written, dst, evs) :=
        if 0 <? nr then
          let '((nw, ew), dst') := Write dst buf in
          let evs := [Wrote (take (Z.to_nat nw) buf)] in
          let '(nw, ew) :=
            if (nw <? 0) || (nr <? nw)
            then (0, Some (if ew then "write" else "invalid write result"))
            else (nw, if ew then Some "write" else None) in
          let written := written + nw in
          match ew with
          | Some e => (Some e, written, dst', evs)
          | None =>
              if negb (nr =? nw) then (Some "short write", written, dst', evs)
              else (None, written, dst', evs)
          end
        else (None, written, dst, [])
      in
      match brk with
      | Some e => ((written, Some e), evs)
      | None =>
          match er with
          | NoErr =>
              let '(r, evs') := Copy_loop dst src' written in (r, evs ++ evs')
          | EOF => ((written, None), evs)
          | ReadFailed => ((written, Some "read"), evs)
          end
      end
  end.

Definition Copy (dst : Writer) (src : Reader) : (Z * error) * list event :=
  Copy_loop dst src 0.

End io.

(** ** pkg/sshclient *)

Module sshclient.

(** [url.Userinfo] and the parts of [url.URL] the code reads; [Hostname],
    [Port] and [Query] hold what the methods of those names return. *)
Record Userinfo := {
  username : string;
  password : string;
  passwordSet : bool
}.

Record URL := {
  User : option Userinfo;
  Hostname : string;
  Port : string;
  Path : string;
  Query : list (string * string)
}.

(** [u.Password()], defined on the nil pointer too. *)
Definition Password (u : option Userinfo) : string * bool :=
  match u with
  | None => ("", false)
  | Some u => (password u, passwordSet u)
  end.

Definition Username (u : option Userinfo) : string :=
  match u with
  | None => ""
  | Some u => username u
  end.

(** [url.Values.Get]: the first value of the key, or the empty string. *)
Fixpoint Get (q : list (string * string)) (key : string) : string :=
  match q with
  | [] => ""
  | (k, v) :: q' => if String.eqb k key then v else Get q' key
  end.

(** [strconv.ParseBool]. *)
Definition ParseBool (str : string) : bool * error :=
  if existsb (String.eqb str) ["1"; "t"; "T"; "true"; "TRUE"; "True"]
  then (true, None)
  else if existsb (String.eqb str) ["0"; "f"; "F"; "false"; "FALSE"; "False"]
  then (false, None)
  else (false, Some "invalid syntax").

(** A public key, as its marshalled bytes. *)
Definition PublicKey := string.

Inductive HostKeyCallback :=
| InsecureIgnoreHostKey
| FixedHostKey (key : PublicKey).

Inductive AuthMethod :=
| PublicKeys (identity : string)
| PasswordAuth (pw : string).

Record ClientConfig := {
  ConfigUser : string;
  Auth : list AuthMethod;
  HostKeyCallbackOf : HostKeyCallback;
  Timeout : Duration
}.

Record Bastion := {
  Client : option conn;
  Config : option ClientConfig;
  Host : string;
  BastionPort : string;
  BastionPath : string
}.

(** [Bastion{}] *)
Definition noBastion : Bastion := Build_Bastion None None "" "" "".

(** What the callback answers for the key the server presents:
    [ssh.InsecureIgnoreHostKey] accepts every key, [ssh.FixedHostKey]
    only the key it was made from. *)
Definition accepts (cb : HostKeyCallback) (presented : PublicKey) : bool :=
  match cb with
  | InsecureIgnoreHostKey => true
  | FixedHostKey key => String.eqb key presented
  end.

(** One line of known_hosts as [ssh.ParseKnownHosts] reads it: the hosts
    and the key, or [None] when the line does not parse. *)
Definition knownHostsLine := option (list string * PublicKey).

Section Host.

(** [HashHostname host] is what [knownhosts.HashHostname(host)] returns in
    this call: the host hashed under 20 bytes of salt that the call draws
    at random, so that it is not what an earlier call, or the tool that
    wrote a line of the file, has returned.  [known_hosts] are the lines
    of ~/.ssh/known_hosts, [None] when the file cannot be opened;
    [server_key] is the host key the peer presents in the handshake. *)
Variable HashHostname : string -> string.
Variable known_hosts : option (list knownHostsLine).
Variable server_key : PublicKey.

(** The scan of [HostKey] over the lines of the file. *)
Fixpoint scan (lines : list knownHostsLine) (host hashhost : string)
    : M (option PublicKey) :=
  match lines with
  | [] => ret None
  | None :: lines' =>
      do _ <- tell (LogError "Failed to parse known_hosts");
      scan lines' host hashhost
  | Some (hosts, key) :: lines' =>
      if existsb (fun h => String.eqb h host || String.eqb h hashhost) hosts
      then ret (Some key)
      else scan lines' host hashhost
  end.

Definition HostKey (host : string) : M (option PublicKey) :=
  match known_hosts with
  | None =>
      do _ <- tell (LogError "open known_hosts");
      ret None
  | Some lines =>
      (* support -H parameter for ssh-keyscan *)
      let hashhost := HashHostname host in
      scan lines host hashhost
  end.

(** [net.JoinHostPort] for a host without a colon. *)
Definition JoinHostPort (host port : string) : string :=
  host +:+ ":" +:+ port.

(** [ssh.NewClientConn]: the key exchange asks the callback about the
    server's key and fails when it refuses; the rest of the handshake
    follows. *)
Definition NewClientConn (addr : string) (config : option ClientConfig)
    : M bool :=
  let ok := match config with
            | Some c => accepts (HostKeyCallbackOf c) server_key
            | None => false
            end in
  do _ <- note VerifyHostKey ok;
  if negb ok then ret false else ask (Handshake addr).

Definition reconnect (bastion : Bastion) (c : option conn)
    : M (Bastion * error) :=
  do connected <- match c with
                  | None => ask ConnectCallback
                  | Some _ => ret true
                  end;
  if negb connected then
    ret (bastion, Wrapf (Some "connect")
      ("Connection to bastion host (" +:+ Host bastion +:+ ") failed."))
  else
    let addr := JoinHostPort (Host bastion) (BastionPort bastion) in
    do ok <- NewClientConn addr (Config bastion);
    if negb ok then ret (bastion, Some "ssh: handshake failed")
    else
      ret (Build_Bastion (Some Channel) (Config bastion) (Host bastion)
             (BastionPort bastion) (BastionPath bastion), None).

Definition Reconnect (bastion : Bastion) : M (Bastion * error) :=
  reconnect bastion None.

Definition CreateBastion (_url : URL) (passPhrase identity : string)
    (initial : option conn) : M (Bastion * error) :=
  let authMethods : list AuthMethod := [] in
  do r <- (if 0 <? Z.of_nat (String.length identity) then
             do ok <- ask (ReadIdentity identity);
             if negb ok then ret (inl (Wrapf (Some "read")
               ("failed to parse identity " +:+ identity)))
             else ret (inr (authMethods ++ [PublicKeys identity]))
           else ret (inr authMethods));
  match r with
  | inl err => ret (noBastion, err)
  | inr authMethods =>
      let authMethods :=
        let (pw, found) := Password (User _url) in
        if found then authMethods ++ [PasswordAuth pw] else authMethods in
      if Z.of_nat (length authMethods) =? 0 then
        ret (noBastion, Some "No available auth methods")
      else
        let port := Port _url in
        let port := if String.eqb port "" then "22" else port in
        let (secure, _) := ParseBool (Get (Query _url) "secure") in
        let callback := InsecureIgnoreHostKey in (* #nosec *)
        do callback <-
          (if secure then
             let host := Hostname _url in
             let host := if negb (String.eqb port "22")
                         then "[" +:+ host +:+ "]:" +:+ port else host in
             do key <- HostKey host;
             match key with
             | Some key => ret (FixedHostKey key)
             | None => ret callback
             end
           else ret callback);
        let config := {|
          ConfigUser := Username (User _url);
          Auth := authMethods;
          HostKeyCallbackOf := callback;
          Timeout := 5 * Second
        |} in
        let bastion := Build_Bastion None (Some config) (Hostname _url) port
                         (Path _url) in
        reconnect bastion initial
  end.

End Host.

End sshclient.

(** ** pkg/virtualnetwork/ssh_forwarder.go *)

Module virtualnetwork.

Import sshclient(Bastion, Host, BastionPath).

(** [forward]: copy, then half-close the destination; the deferred close
    of the source runs last. *)
Definition forward (src : io.Reader) (dest : io.Writer) : list io.event :=
  let '(_, evs) := io.Copy dest src in
  evs ++ [io.CloseWrite] ++ [io.SrcClose].

Definition backOff (delay : Duration) : Duration :=
  let delay := if delay =? 0 then 5 * Millisecond else wrap64 (delay * 2) in
  if delay >? Second then Second else delay.

(** [sleep] returns false when the context is done before the timer fires. *)
Definition sleep (wait : Duration) : M bool := ask (Sleep wait).

(** The body of the loop of [initialConnection]; [n] is the number of
    iterations left ([60 - i]).  [conn] and [err] are the function's two
    variables, returned when the loop ends. *)
Fixpoint initialConnection_loop (n : nat) (backoff : Duration)
    (c : option conn) (err : error) : M (option conn * error) :=
  match n with
  | O => ret (c, err)
  | S n' =>
      do done <- ask CtxDone;
      if done then ret (c, err)
      else
        do ok <- ask Connect;
        if ok then ret (Some StackConn, None)
        else
          do _ <- tell (LogDebug "Waiting for sshd");
          do _ <- sleep backoff;
          initialConnection_loop n' (backOff backoff) None (Some "connect")
  end.

Definition initialConnection : M (option conn * error) :=
  initialConnection_loop 60 (100 * Millisecond) None None.

(** What one pass of a loop body decides. *)
Inductive step (A : Type) :=
| Return (a : A)      (* return a *)
| Next.               (* break out of the inner loop, or go round again *)
Arguments Return {A} a.
Arguments Next {A}.

(** The inner loop of [connectForward]:
    [for bastionRetries := 1; ; bastionRetries++].  [Next] is its [break]. *)
Fixpoint reconnectLoop (fuel : nat) (bastion : Bastion) (bastionRetries : Z)
    : M (fueled (step (option conn * error))) :=
  match fuel with
  | O => ret OutOfFuel
  | S fuel' =>
      do ok <- ask Reconnect;
      if ok then ret (Done Next)
      else
        let err := Some "reconnect" in
        let gave_up := Done (Return (None,
          Wrapf err ("Couldn't reestablish ssh connection: " +:+ Host bastion))) in
        if bastionRetries >? 2 then ret gave_up
        else
          do slept <- sleep (200 * Millisecond);
          if negb slept then ret gave_up
          else reconnectLoop fuel' bastion (wrap64 (bastionRetries + 1))
  end.

(** The loop of [connectForward]: [for retries := 1; ; retries++]. *)
Fixpoint connectForwardLoop (fuel : nat) (bastion : Bastion) (retries : Z)
    : M (fueled (option conn * error)) :=
  match fuel with
  | O => ret OutOfFuel
  | S fuel' =>
      do ok <- ask (Dial "unix" (BastionPath bastion));
      if ok then ret (Done (Some Channel, None))
      else
        let err := Some "dial" in
        if retries >? 2 then
          ret (Done (None,
            Wrapf err ("Couldn't restablish ssh tunnel on path: " +:+ BastionPath bastion)))
        else
          (* Check if ssh connection is still alive *)
          do alive <- ask (SendRequest "alive@gvproxy" true);
          do r <- (if alive then ret (Done Next)
                   else reconnectLoop fuel bastion 1);
          match r with
          | OutOfFuel => ret OutOfFuel
          | Done (Return v) => ret (Done v)
          | Done Next =>
              do slept <- sleep (200 * Millisecond);
              let retries := if negb slept then 3 else retries in
              connectForwardLoop fuel' bastion (wrap64 (retries + 1))
          end
  end.

Definition connectForward (fuel : nat) (bastion : Bastion)
    : M (fueled (option conn * error)) :=
  connectForwardLoop fuel bastion 1.

Definition acceptConnection (fuel : nat) (bastion : Bastion)
    (socketPath : string) : M (fueled error) :=
  do ok <- ask (Accept ForwardLn);
  if negb ok then
    ret (Done (Wrapf (Some "accept")
                 ("Error accepting on socket: " +:+ socketPath)))
  else
    let err : error := None in
    do ok <- ask IsCloseWriteStream;
    if negb ok then
      do _ <- tell ConClose;
      ret (Done (Wrapf err
        ("Underlying socket does not support half-close " +:+ socketPath)))
    else
      do r <- connectForward fuel bastion;
      match r with
      | OutOfFuel => ret OutOfFuel
      | Done (_, Some e) =>
          do _ <- tell ConClose;
          do _ <- tell (LogError e);
          ret (Done None) (* eat *)
      | Done (_, None) =>
          do _ <- tell (GoForward true);
          do _ <- tell (GoForward false);
          ret (Done None)
      end.

(** [strconv.Atoi]: an optional sign and decimal digits, within [int]. *)
Definition digit (c : Ascii.ascii) : option Z :=
  let n := Z.of_N (Ascii.N_of_ascii c) in
  if (48 <=? n) && (n <=? 57) then Some (n - 48) else None.

Fixpoint digits (s : string) (acc : Z) : option Z :=
  match s with
  | EmptyString => Some acc
  | String c s' =>
      match digit c with
      | Some d => digits s' (10 * acc + d)
      | None => None
      end
  end.

Definition Atoi (s : string) : option Z :=
  match s with
  | EmptyString => None
  | String c s' =>
      let '(neg, body) :=
        if Ascii.eqb c "-"%char then (true, s')
        else if Ascii.eqb c "+"%char then (false, s')
        else (false, s) in
      match body with
      | EmptyString => None
      | _ =>
          match digits body 0 with
          | Some n =>
              let v := if neg then - n else n in
              if (- 2 ^ 63 <=? v) && (v <? 2 ^ 63) then Some v else None
          | None => None
          end
      end
  end.

Record SSHForward := {
  listening : bool;             (* listener != nil *)
  bastion : sshclient.Bastion;
  sock : string
}.

(** [&SSHForward{}] *)
Definition noForward : SSHForward :=
  Build_SSHForward false sshclient.noBastion "".

Section Proxy.

Variable HashHostname : string -> string.
Variable known_hosts : option (list sshclient.knownHostsLine).
Variable server_key : sshclient.PublicKey.

Definition listenUnix (path : string) : M error :=
  do ok <- ask (Listen ForwardLn path);
  if negb ok then
    ret (Wrapf (Some "listen") ("Error listening on socket: " +:+ path))
  else ret None.

Definition setupProxy (socketPath : string) (dest : sshclient.URL)
    (identity : string) : M (SSHForward * error) :=
  match Atoi (sshclient.Port dest) with
  | None =>
      ret (noForward,
           Some ("Invalid port for ssh forward: " +:+ sshclient.Port dest))
  | Some port =>
      do err <- listenUnix socketPath;
      match err with
      | Some e => ret (noForward, Some e)
      | None =>
          do r <- initialConnection;
          match r with
          | (_, Some e) => ret (noForward, Some e)
          | (c, None) =>
              do r <- sshclient.CreateBastion HashHostname known_hosts
                        server_key dest "" identity c;
              match r with
              | (_, Some e) => ret (noForward, Some e)
              | (b, None) => ret (Build_SSHForward true b socketPath, None)
              end
          end
      end
  end.

(** [ok] of the first call: the socket was removed or did not exist. *)
Definition CreateSSHForward (socket : string) (dest : sshclient.URL)
    (identity : string) : M (SSHForward * error) :=
  do ok <- ask (RemoveFile socket);
  if negb ok then ret (noForward, Some "remove")
  else setupProxy socket dest identity.

End Proxy.

Definition AcceptAndTunnel (fuel : nat) (forward : SSHForward)
    : M (fueled error) :=
  acceptConnection fuel (bastion forward) (sock forward).

End virtualnetwork.

(** ** gvisor's tcpip addresses *)

Module tcpip.

(** [tcpip.Address] is a Go string holding the bytes of the address. *)
Definition Address := string.

Definition bytes (l : list N) : string :=
  fold_right (fun n s => String (Ascii.ascii_of_N n) s) EmptyString l.

Record Subnet := { address : Address; mask : string }.

Definition byte_and (a m : Ascii.ascii) : Ascii.ascii :=
  Ascii.ascii_of_N (N.land (Ascii.N_of_ascii a) (Ascii.N_of_ascii m)).

(** The loop of [Subnet.Contains] once the lengths agree. *)
Fixpoint masked_eq (a m addr : string) : bool :=
  match a, m, addr with
  | EmptyString, _, _ => true
  | String a0 a', String m0 m', String s0 s' =>
      if negb (Ascii.eqb (byte_and a0 m0) s0) then false
      else masked_eq a' m' s'
  | _, _, _ => false
  end.

Definition Contains (s : Subnet) (a : Address) : bool :=
  if negb (Nat.eqb (String.length a) (String.length (address s))) then false
  else masked_eq a (mask s) (address s).

End tcpip.

(** ** pkg/services/forwarder: the UDP forwarder *)

Module forwarder.

(** Modelled from the spec: [linkLocal()] is declared in a file of the
    package that is not among the sources; the spec gives the subnet it
    returns, 169.254.0.0/16. *)
Definition linkLocal : tcpip.Subnet :=
  {| tcpip.address := tcpip.bytes [169; 254; 0; 0]%N;
     tcpip.mask := tcpip.bytes [255; 255; 0; 0]%N |}.

(** [stack.TransportEndpointID], what [r.ID()] returns. *)
Record TransportEndpointID := {
  LocalPort : Z;
  LocalAddress : tcpip.Address;
  RemotePort : Z;
  RemoteAddress : tcpip.Address
}.

(** The handler [UDP] registers with the stack, run on one request. *)
Definition UDP (nat : gmap tcpip.Address tcpip.Address)
    (r : TransportEndpointID) : M unit :=
  let localAddress := LocalAddress r in
  if tcpip.Contains linkLocal localAddress then ret tt
  else
    do _ <- tell NatLock;
    let localAddress :=
      match nat !! localAddress with
      | Some replaced => replaced
      | None => localAddress
      end in
    do _ <- tell NatUnlock;
    do ok <- ask CreateEndpoint;
    if negb ok then
      do _ <- tell (LogError "r.CreateEndpoint() failed");
      ret tt
    else
      do _ <- tell (ProxyRun "udp" localAddress (LocalPort r));
      ret tt.

End forwarder.

(** ** cmd/gvproxy/main.go *)

Module gvproxy.

(** The package variables the flags are parsed into. *)
Record Flags := {
  debug : bool;
  mtu : Z;
  endpoints : list string;
  vpnkitSocket : string;
  qemuSocket : string;
  forwardSocket : string;
  forwardDest : string;
  forwardUser : string;
  forwardIdentify : string;
  sshPort : Z;
  pidFile : string
}.

(** The values of the flags when none is given. *)
Definition defaults : Flags := {|
  debug := false; mtu := 1500; endpoints := [];
  vpnkitSocket := ""; qemuSocket := "";
  forwardSocket := ""; forwardDest := ""; forwardUser := "";
  forwardIdentify := ""; sshPort := 2222; pidFile := ""
|}.

Definition DefaultURL : string := "unix:///tmp/network.sock".
Definition SSHHostPort : string := "192.168.127.2:22".

(** How the process ends: [os.Exit(status)] or a return from [main], or
    it never does in this environment. *)
Inductive outcome :=
| Exit (status : Z)
| Running.

(** A deferred call, with its arguments as they were evaluated when the
    [defer] statement ran. *)
Inductive deferred :=
| DeferExit (code : Z)             (* defer os.Exit(exitCode) *)
| DeferRemovePid (path : string).  (* defer func() { os.Remove(pidFile) ... }() *)

Definition exitWithError (err : string) : M outcome :=
  do _ <- tell (LogError err);
  do _ <- tell (OsExit 1);
  ret (Exit 1).

(** The deferred calls of [main], last deferred first.  [os.Exit] ends the
    process; when no deferred call exits, [main] returns and the status
    is 0. *)
Fixpoint runDeferred (ds : list deferred) : M outcome :=
  match ds with
  | [] => ret (Exit 0)
  | DeferExit code :: _ =>
      do _ <- tell (OsExit code);
      ret (Exit code)
  | DeferRemovePid path :: ds' =>
      do ok <- ask (RemoveFile path);
      do _ <- (if negb ok then tell (LogError "remove pid-file") else ret tt);
      runDeferred ds'
  end.

Definition nonempty (s : string) : bool := negb (String.eqb s "").

Section Main.

(** [url_Parse s] is what [url.Parse(s)] returns, the scheme and the path
    of the URL, or [None] for an error. *)
Variable url_Parse : string -> option (string * string).
Variable HashHostname : string -> string.
Variable known_hosts : option (list sshclient.knownHostsLine).
Variable server_key : sshclient.PublicKey.

(** The listen loop of [run] over the endpoints, from index [i]. *)
Fixpoint listenEndpoints (i : nat) (eps : list string) : M error :=
  match eps with
  | [] => ret None
  | endpoint :: eps' =>
      do ok <- ask (Listen (EndpointLn i) endpoint);
      if negb ok then ret (Wrapf (Some "listen") "cannot listen")
      else
        do _ <- tell (Go (CloseOnDone (EndpointLn i)));
        do _ <- tell (Go (ServeHTTP (EndpointLn i)));
        listenEndpoints (S i) eps'
  end.

(** [run]: what it does itself; the goroutines it starts are logged as
    [Go] and run by [exec]. *)
Definition run (fl : Flags) (endpoints : list string) : M error :=
  do ok <- ask VNNew;
  if negb ok then ret (Some "virtualnetwork.New")
  else
    do err <- listenEndpoints 0 endpoints;
    match err with
    | Some e => ret (Some e)
    | None =>
        do _ <- (if debug fl then tell (Go DebugLog) else ret tt);
        do err <-
          (if nonempty (vpnkitSocket fl) then
             do ok <- ask (Listen VpnkitLn (vpnkitSocket fl));
             if negb ok then ret (Some "listen")
             else
               do _ <- tell (Go VpnkitAccept);
               ret None
           else ret None);
        match err with
        | Some e => ret (Some e)
        | None =>
            do err <-
              (if nonempty (qemuSocket fl) then
                 do ok <- ask (Listen QemuLn (qemuSocket fl));
                 if negb ok then ret (Some "listen")
                 else
                   do _ <- tell (Go QemuClose);
                   do _ <- tell (Go QemuAccept);
                   ret None
               else ret None);
            match err with
            | Some e => ret (Some e)
            | None =>
                do _ <- (if nonempty (forwardSocket fl)
                         then tell (Go SSHForward) else ret tt);
                ret None
            end
        end
    end.

(** The loop of the debug goroutine. *)
Fixpoint debugLoop (fuel : nat) : M (fueled error) :=
  match fuel with
  | O => ret OutOfFuel
  | S fuel' =>
      do fired <- ask (Sleep (5 * Second));
      if fired then
        do _ <- tell Printf;
        debugLoop fuel'
      else ret (Done None)
  end.

(** The vpnkit accept loop. *)
Fixpoint vpnloop (fuel : nat) : M (fueled error) :=
  match fuel with
  | O => ret OutOfFuel
  | S fuel' =>
      do done <- ask CtxDone;
      if done then ret (Done None)
      else
        do ok <- ask (Accept VpnkitLn);
        if negb ok then
          do _ <- tell (LogError "vpnkit accept error");
          vpnloop fuel'
        else
          do _ <- tell (Go AcceptVpnKit);
          vpnloop fuel'
  end.

(** The accept loop of the SSH forwarder goroutine. *)
Fixpoint forwardLoop (fuel : nat) (forward : virtualnetwork.SSHForward)
    : M (fueled error) :=
  match fuel with
  | O => ret OutOfFuel
  | S fuel' =>
      do done <- ask CtxDone;
      if done then ret (Done None)
      else
        do r <- virtualnetwork.AcceptAndTunnel fuel forward;
        match r with
        | OutOfFuel => ret OutOfFuel
        | Done err =>
            do _ <- (match err with
                     | Some e => tell (LogDebug e)
                     | None => ret tt
                     end);
            forwardLoop fuel' forward
        end
  end.

(** The URL [run] builds for the SSH destination. *)
Definition dest (fl : Flags) : sshclient.URL := {|
  sshclient.User := Some {| sshclient.username := forwardUser fl;
                            sshclient.password := "";
                            sshclient.passwordSet := false |};
  sshclient.Hostname := "192.168.127.2";
  sshclient.Port := "22";
  sshclient.Path := forwardDest fl;
  sshclient.Query := []
|}.

(** What each goroutine does. *)
Definition exec (fuel : nat) (fl : Flags) (t : task) : M (fueled error) :=
  match t with
  | RunTask =>
      do err <- run fl (endpoints fl);
      ret (Done err)
  | SignalWait =>
      do sig <- ask SignalCaught;
      if sig then
        do _ <- tell Cancel;
        ret (Done (Some "signal caught"))
      else ret (Done None)
  | CloseOnDone ln =>
      do _ <- tell WaitDone;
      do ok <- ask (CloseLn ln);
      ret (Done (err_of "close" ok))
  | ServeHTTP ln =>
      do ok <- ask (Serve ln);
      ret (Done (err_of "serve" ok))
  | DebugLog => debugLoop fuel
  | VpnkitAccept => vpnloop fuel
  | AcceptVpnKit =>
      do ok <- ask VNAcceptVpnKit;
      ret (Done (err_of "vpnkit" ok))
  | QemuClose =>
      do _ <- tell WaitDone;
      do ok <- ask (CloseLn QemuLn);
      do _ <- (if negb ok then tell (LogError "error closing") else ret tt);
      do ok <- ask (RemoveFile (qemuSocket fl));
      ret (Done (err_of "remove" ok))
  | QemuAccept =>
      do ok <- ask (Accept QemuLn);
      if negb ok then ret (Done (Wrapf (Some "accept") "qemu accept error"))
      else
        do ok <- ask VNAcceptQemu;
        ret (Done (err_of "qemu" ok))
  | SSHForward =>
      do r <- virtualnetwork.CreateSSHForward HashHostname known_hosts
                server_key (forwardSocket fl) (dest fl) (forwardIdentify fl);
      do res <-
        (match r with
         | (_, Some e) => ret (Done (Some e))
         | (forward, None) =>
             do _ <- tell (Go ForwardClose);
             forwardLoop fuel forward
         end);
      (* defer os.Remove(forwardSocket) *)
      do _ <- ask (RemoveFile (forwardSocket fl));
      ret res
  | ForwardClose =>
      do _ <- tell WaitDone;
      do _ <- tell (CloseLn ForwardLn);
      ret (Done None)
  end.

(** [forwardCount] after the four tests of [main], when the identity file
    can be read. *)
Definition forwardCount (fl : Flags) : Z :=
  let forwardCount := 0 in
  let forwardCount :=
    if nonempty (forwardDest fl) then forwardCount + 1 else forwardCount in
  let forwardCount :=
    if nonempty (forwardIdentify fl) then forwardCount + 1 else forwardCount in
  let forwardCount :=
    if nonempty (forwardUser fl) then forwardCount + 1 else forwardCount in
  let forwardCount :=
    if nonempty (forwardSocket fl) then forwardCount + 1 else forwardCount in
  forwardCount.

(** The end of [main]: the two goroutines of the group, [Wait], and the
    deferred calls.  [run] is run to its return here.  When it returns an
    error the group cancels the context, the signal goroutine returns nil
    and [Wait] returns an error; otherwise the signal goroutine waits, for
    a signal ([SignalCaught]) or for some goroutine to fail ([TaskFailed]);
    when neither comes, [Wait] does not return.  Once the context is
    cancelled the goroutines are taken to return, so that [Wait] does; for
    the vpnkit accept loop, whose listener nothing closes, this needs its
    pending [Accept] to return. *)
Definition serve (fl : Flags) (exitCode : Z) (defers : list deferred)
    : M outcome :=
  do _ <- tell (Go RunTask);
  do err <- run fl (endpoints fl);
  do _ <- tell (Go SignalWait);
  do waited <-
    (match err with
     | Some e => ret (Some (Some e))
     | None =>
         do sig <- ask SignalCaught;
         if sig then
           do _ <- tell Cancel;
           ret (Some (Some "signal caught"))
         else
           do failed <- ask TaskFailed;
           if failed then ret (Some (Some "task failed")) else ret None
     end);
  match waited with
  | None => ret Running
  | Some err =>
      (* if err != nil { log.Error(err); exitCode = 1 } *)
      do exitCode <-
        (match err with
         | Some e =>
             do _ <- tell (LogError e);
             ret 1
         | None => ret exitCode
         end);
      (* main returns; the deferred calls hold their own arguments *)
      runDeferred defers
  end.

(** The pid file. *)
Definition writePid (fl : Flags) (defers : list deferred)
    (k : list deferred -> M outcome) : M outcome :=
  if 0 <? Z.of_nat (String.length (pidFile fl)) then
    do ok <- ask (CreateFile (pidFile fl));
    if negb ok then exitWithError "create pid-file"
    else
      let defers := DeferRemovePid (pidFile fl) :: defers in
      do ok <- ask WriteString;
      if negb ok then exitWithError "write pid-file"
      else k defers
  else k defers.

(** The forward flags: lines 92 to 112 of main.go. *)
Definition checkForward (fl : Flags) (k : M outcome) : M outcome :=
  let forwardCount := 0 in
  let forwardCount :=
    if nonempty (forwardDest fl) then forwardCount + 1 else forwardCount in
  do r <-
    (if nonempty (forwardIdentify fl) then
       do ok <- ask (Stat (forwardIdentify fl));
       if negb ok then ret None else ret (Some (forwardCount + 1))
     else ret (Some forwardCount));
  match r with
  | None =>
      exitWithError ("Identity file " +:+ forwardIdentify fl
                     +:+ " can't be loaded")
  | Some forwardCount =>
      let forwardCount :=
        if nonempty (forwardUser fl) then forwardCount + 1
        else forwardCount in
      let forwardCount :=
        if nonempty (forwardSocket fl) then forwardCount + 1
        else forwardCount in
      if (0 <? forwardCount) && (forwardCount <? 4) then
        exitWithError "-forward-sock, --forward-dest, --forward-user, and --forward-identity must all be specified together, or none specified"
      else k
  end.

(** The tests of [main] before the forward flags. *)
Definition checkSockets (fl : Flags) (k : M outcome) : M outcome :=
  do r <-
    (if 0 <? Z.of_nat (String.length (qemuSocket fl)) then
       match url_Parse (qemuSocket fl) with
       | None => ret (Some "invalid value for listen-qemu")
       | Some (scheme, path) =>
           do exists_ <- ask (Stat path);
           if exists_ && String.eqb scheme "unix"
           then ret (Some (path +:+ " already exists"))
           else ret None
       end
     else ret None);
  match r with
  | Some e => exitWithError e
  | None =>
      if nonempty (vpnkitSocket fl) && nonempty (qemuSocket fl) then
        exitWithError "cannot use qemu and vpnkit protocol at the same time"
      else if (sshPort fl <? 1024) || (sshPort fl >? 65535) then
        exitWithError "ssh-port value must be between 1024 and 65535"
      else k
  end.

Definition main (fl : Flags) : M outcome :=
  (* var exitCode int *)
  let exitCode := 0 in
  (* defer os.Exit(exitCode): the argument of a deferred call is evaluated
     when the defer statement runs, so the call saved here is os.Exit(0) *)
  let defers := [DeferExit exitCode] in
  let fl :=
    if Z.of_nat (length (endpoints fl)) =? 0 then
      {| debug := debug fl; mtu := mtu fl; endpoints := [DefaultURL];
         vpnkitSocket := vpnkitSocket fl; qemuSocket := qemuSocket fl;
         forwardSocket := forwardSocket fl; forwardDest := forwardDest fl;
         forwardUser := forwardUser fl;
         forwardIdentify := forwardIdentify fl;
         sshPort := sshPort fl; pidFile := pidFile fl |}
    else fl in
  checkSockets fl
    (checkForward fl
       (writePid fl defers (fun defers => serve fl exitCode defers))).

End Main.

End gvproxy.

(** ** net/url: Parse *)

(** [url.Parse] as far as [main] uses it: the scheme and the path of a
    URL that has no query, no fragment and no escapes, and whose
    authority, when it has one, is well formed.  [None] is an error. *)
Module url.

Definition between (lo hi : N) (c : ascii) : bool :=
  ((lo <=? N_of_ascii c) && (N_of_ascii c <=? hi))%N.

Definition isLetter (c : ascii) : bool :=
  between 97 122 c || between 65 90 c.

Definition isSchemeSign (c : ascii) : bool :=
  between 48 57 c || Ascii.eqb c "+" || Ascii.eqb c "-" || Ascii.eqb c ".".

(** The loop of [getScheme] from index [i] on, [rest] being [rawURL[i:]]:
    the scheme is what stands before the first colon, when it starts with
    a letter and goes on with letters, digits, +, - and dots. *)
Fixpoint getSchemeFrom (i : nat) (rawURL rest : string)
    : option (string * string) :=
  match rest with
  | EmptyString => Some (EmptyString, rawURL)
  | String c rest' =>
      if isLetter c then getSchemeFrom (S i) rawURL rest'
      else if isSchemeSign c then
        if Nat.eqb i 0 then Some (EmptyString, rawURL)
        else getSchemeFrom (S i) rawURL rest'
      else if Ascii.eqb c ":" then
        if Nat.eqb i 0 then None (* missing protocol scheme *)
        else Some (substring 0 i rawURL, rest')
      else Some (EmptyString, rawURL)
  end.

Definition getScheme (rawURL : string) : option (string * string) :=
  getSchemeFrom 0 rawURL rawURL.

Definition toLower (c : ascii) : ascii :=
  if between 65 90 c then ascii_of_N (N_of_ascii c + 32) else c.

Fixpoint ToLower (s : string) : string :=
  match s with
  | EmptyString => EmptyString
  | String c s' => String (toLower c) (ToLower s')
  end.

(** [s] from its first slash on; empty when it has none. *)
Fixpoint fromSlash (s : string) : string :=
  match s with
  | EmptyString => EmptyString
  | String c s' => if Ascii.eqb c "/" then s else fromSlash s'
  end.

(** Whether the first segment of a path has a colon. *)
Fixpoint colonInFirstSegment (s : string) : bool :=
  match s with
  | EmptyString => false
  | String c s' =>
      if Ascii.eqb c "/" then false
      else if Ascii.eqb c ":" then true
      else colonInFirstSegment s'
  end.

(** The scheme and the path of [url.Parse(rawURL)]. *)
Definition Parse (rawURL : string) : option (string * string) :=
  match getScheme rawURL with
  | None => None
  | Some (scheme, rest) =>
      let scheme := ToLower scheme in
      if negb (String.prefix "/" rest) then
        if negb (String.eqb scheme EmptyString)
        then Some (scheme, EmptyString)   (* an opaque URL has no path *)
        else if colonInFirstSegment rest then None
        else Some (scheme, rest)
      else if String.prefix "//" rest
              && (negb (String.eqb scheme EmptyString)
                  || negb (String.prefix "///" rest))
      then Some (scheme, fromSlash (substring 2 (String.length rest) rest))
      else Some (scheme, rest)
  end.

End url.

(** * Specifications *)

(** ** Vocabulary for statements about logs *)

(** The waits of the [Sleep] calls of a log, in order. *)
Definition sleeps (t : list entry) : list Duration :=
  omap (fun en => match fst en with Sleep d => Some d | _ => None end) t.

(** How many entries of a log satisfy [p], and how many of its calls. *)
Definition count_entries (p : entry -> bool) (t : list entry) : nat :=
  length (List.filter p t).

Definition count_calls (p : call -> bool) (t : list entry) : nat :=
  count_entries (fun en => p (fst en)) t.

(** An attempt to reach sshd, and one that failed. *)
Definition is_connect (c : call) : bool :=
  match c with
  | Connect => true
  | _ => false
  end.

Definition failed_connect (en : entry) : bool :=
  is_connect (fst en) && negb (snd en).

(** The entry [x], wherever it occurs in [t], is the last one. *)
Definition ends_with (x : entry) (t : list entry) : Prop :=
  forall pre post, t = pre ++ x :: post -> post = [].

(** The wait before retry [k] of [initialConnection] in the words of the
    spec: 100 ms doubled [k] times, capped at 1 s. *)
Definition capped_backoff (k : nat) : Duration :=
  Z.min (100 * Millisecond * 2 ^ Z.of_nat k) Second.

(** The logs the loop of [initialConnection] can leave with [n] rounds to
    go and the wait [b]. *)
Inductive ic_shape : nat -> Duration -> list entry -> Prop :=
| ic_exhausted b : ic_shape 0 b []
| ic_cancelled n b : ic_shape (S n) b [(CtxDone, true)]
| ic_connected n b : ic_shape (S n) b [(CtxDone, false); (Connect, true)]
| ic_retry n b s t :
    ic_shape n (virtualnetwork.backOff b) t ->
    ic_shape (S n) b
      ((CtxDone, false) :: (Connect, false)
       :: (LogDebug "Waiting for sshd", true) :: (Sleep b, s) :: t).

(** *** The logs of [connectForward] *)

Definition dial (b : sshclient.Bastion) (ok : bool) : entry :=
  (Dial "unix" (sshclient.BastionPath b), ok).
Definition probe (alive : bool) : entry :=
  (SendRequest "alive@gvproxy" true, alive).
Definition reconnect (ok : bool) : entry := (Reconnect, ok).
Definition pause (slept : bool) : entry := (Sleep (200 * Millisecond), slept).

(** What one pass through the reconnect loop can log, and whether it ends
    with the bastion reconnected: at most three attempts, a 200 ms sleep
    between two attempts, and a sleep cut short by the context ends it. *)
Definition reconnect_runs : list (list entry * bool) :=
  [ ([reconnect true], true);
    ([reconnect false; pause true; reconnect true], true);
    ([reconnect false; pause true; reconnect false; pause true;
      reconnect true], true);
    ([reconnect false; pause false], false);
    ([reconnect false; pause true; reconnect false; pause false], false);
    ([reconnect false; pause true; reconnect false; pause true;
      reconnect false], false) ].

(** The two errors of [connectForward]. *)
Definition dial_error (b : sshclient.Bastion) : string :=
  ("Couldn't restablish ssh tunnel on path: " +:+ sshclient.BastionPath b)
  +:+ ": " +:+ "dial".
Definition reconnect_error (b : sshclient.Bastion) : string :=
  ("Couldn't reestablish ssh connection: " +:+ sshclient.Host b)
  +:+ ": " +:+ "reconnect".

(** The value of [retries] at the next pass of the loop. *)
Definition next_retries (retries : Z) (slept : bool) : Z :=
  if slept then retries + 1 else 4.

(** The logs the loop of [connectForward] can leave from a value of
    [retries] on, with the error it returns ([None] when the channel is
    open). *)
Inductive cf_shape (b : sshclient.Bastion)
    : Z -> list entry -> error -> Prop :=
| cf_open r : cf_shape b r [dial b true] None
| cf_gave_up r : 2 < r -> cf_shape b r [dial b false] (Some (dial_error b))
| cf_alive r s t res :
    r <= 2 -> cf_shape b (next_retries r s) t res ->
    cf_shape b r (dial b false :: probe true :: pause s :: t) res
| cf_reconnected r run s t res :
    r <= 2 -> In (run, true) reconnect_runs ->
    cf_shape b (next_retries r s) t res ->
    cf_shape b r (dial b false :: probe false :: run ++ pause s :: t) res
| cf_lost r run :
    r <= 2 -> In (run, false) reconnect_runs ->
    cf_shape b r (dial b false :: probe false :: run)
      (Some (reconnect_error b)).

(** What [connectForward] returns for the error of a shape. *)
Definition cf_result (res : error) : option conn * error :=
  match res with
  | None => (Some Channel, None)
  | Some m => (None, Some m)
  end.

(** What [acceptConnection] logs after [connectForward] has returned. *)
Definition after_connect (res : error) : list entry :=
  match res with
  | None => [(GoForward true, true); (GoForward false, true)]
  | Some m => [(ConClose, true); (LogError m, true)]
  end.

(** *** The bytes of a pump *)

(** The bytes a reader yields up to the [Read] that reports end of stream
    or an error, the bytes of that [Read] included. *)
Fixpoint produced (src : io.Reader) : list Byte.byte :=
  match src with
  | [] => []
  | (buf, io.NoErr) :: src' => buf ++ produced src'
  | (buf, _) :: _ => buf
  end.

(** The bytes the events of a pump delivered to its destination. *)
Definition delivered (evs : list io.event) : list Byte.byte :=
  concat (omap (fun ev => match ev with
                          | io.Wrote bs => Some bs
                          | _ => None
                          end) evs).

(** *** The host key of a bastion *)

(** The name [CreateBastion] looks up in known_hosts. *)
Definition known_hosts_name (u : sshclient.URL) : string :=
  let port := if String.eqb (sshclient.Port u) "" then "22"
              else sshclient.Port u in
  if negb (String.eqb port "22")
  then "[" +:+ sshclient.Hostname u +:+ "]:" +:+ port
  else sshclient.Hostname u.

(** The key of a line that holds the host or the hash of the call. *)
Definition key_for (host hashhost : string)
    (line : sshclient.knownHostsLine) : option sshclient.PublicKey :=
  match line with
  | Some (hosts, key) =>
      if existsb (fun h => String.eqb h host || String.eqb h hashhost) hosts
      then Some key else None
  | None => None
  end.

(** The key of the first line that holds the host or the hash of the
    call. *)
Fixpoint first_key (host hashhost : string)
    (lines : list sshclient.knownHostsLine) : option sshclient.PublicKey :=
  match lines with
  | [] => None
  | line :: lines' =>
      match key_for host hashhost line with
      | Some key => Some key
      | None => first_key host hashhost lines'
      end
  end.

(** The key known_hosts has for the host; none when the file cannot be
    opened. *)
Definition known_key (known_hosts : option (list sshclient.knownHostsLine))
    (host hashhost : string) : option sshclient.PublicKey :=
  match known_hosts with
  | Some lines => first_key host hashhost lines
  | None => None
  end.



(** The hash of a call is fresh for the file: no line of the file holds
    it.  [knownhosts.HashHostname] salts the hash with random bytes drawn
    at each call, and a hashed line of the file was written earlier, under
    a salt of its own. *)
Definition fresh (hashhost : string)
    (known_hosts : option (list sshclient.knownHostsLine)) : bool :=
  match known_hosts with
  | Some lines =>
      forallb (fun line : sshclient.knownHostsLine =>
                 match line with
                 | Some (hosts, _) =>
                     negb (existsb (fun h => String.eqb h hashhost) hosts)
                 | None => true
                 end) lines
  | None => true
  end.

(** Whether the URL asks for the host key to be checked. *)
Definition secure (u : sshclient.URL) : bool :=
  fst (sshclient.ParseBool (sshclient.Get (sshclient.Query u) "secure")).

(** *** Inputs of the examples *)

(** A host hashed under a salt, as the entries of a hashed known_hosts
    read: the salt, then the digest of the host under it; the digest is
    left symbolic. *)
Definition hashed (salt host : string) : string :=
  "|1|" +:+ salt +:+ "|" +:+ "HMAC-SHA1(" +:+ salt +:+ "," +:+ host +:+ ")".

(** The URL of a guest reached with secure=true. *)
Definition secure_url : sshclient.URL := {|
  sshclient.User := Some {| sshclient.username := "core";
                            sshclient.password := "";
                            sshclient.passwordSet := false |};
  sshclient.Hostname := "192.168.127.2";
  sshclient.Port := "22";
  sshclient.Path := "/run/user/1000/podman/podman.sock";
  sshclient.Query := [("secure", "true")]
|}.

(** The NAT table of the default configuration and two requests. *)
Definition nat_default : gmap tcpip.Address tcpip.Address :=
  {[ tcpip.bytes [192; 168; 127; 254]%N := tcpip.bytes [127; 0; 0; 1]%N ]}.

Definition metadata_request : forwarder.TransportEndpointID := {|
  forwarder.LocalPort := 80;
  forwarder.LocalAddress := tcpip.bytes [169; 254; 169; 254]%N;
  forwarder.RemotePort := 40000;
  forwarder.RemoteAddress := tcpip.bytes [192; 168; 127; 2]%N
|}.

Definition host_request : forwarder.TransportEndpointID := {|
  forwarder.LocalPort := 53;
  forwarder.LocalAddress := tcpip.bytes [192; 168; 127; 254]%N;
  forwarder.RemotePort := 40000;
  forwarder.RemoteAddress := tcpip.bytes [192; 168; 127; 2]%N
|}.

(** Flags with the four forward flags given. *)
Definition forward_flags : gvproxy.Flags := {|
  gvproxy.debug := false; gvproxy.mtu := 1500; gvproxy.endpoints := [];
  gvproxy.vpnkitSocket := ""; gvproxy.qemuSocket := "";
  gvproxy.forwardSocket := "/tmp/podman.sock";
  gvproxy.forwardDest := "/run/user/1000/podman/podman.sock";
  gvproxy.forwardUser := "core";
  gvproxy.forwardIdentify := "/home/core/.ssh/id_ed25519";
  gvproxy.sshPort := 2222; gvproxy.pidFile := ""
|}.

(** Flags with --forward-user alone. *)
Definition user_only_flags : gvproxy.Flags := {|
  gvproxy.debug := false; gvproxy.mtu := 1500; gvproxy.endpoints := [];
  gvproxy.vpnkitSocket := ""; gvproxy.qemuSocket := "";
  gvproxy.forwardSocket := ""; gvproxy.forwardDest := "";
  gvproxy.forwardUser := "core"; gvproxy.forwardIdentify := "";
  gvproxy.sshPort := 2222; gvproxy.pidFile := ""
|}.

(** A stand-in for [url.Parse] in the examples without --listen-qemu,
    where it is not applied. *)
Definition parse_unix (s : string) : option (string * string) :=
  Some ("unix", s).

(** *** The qemu listener *)

(** An accept on the qemu listener. *)
Definition qemu_accept (c : call) : bool :=
  match c with
  | Accept QemuLn => true
  | _ => false
  end.

(** The start of the goroutine that accepts on the qemu listener. *)
Definition go_qemu_accept (c : call) : bool :=
  match c with
  | Go QemuAccept => true
  | _ => false
  end.

(** A computation that, from any state, makes no call that satisfies
    [p]. *)
Definition never (p : call -> bool) {A} (m : M A) : Prop :=
  forall e, exists t,
    log (snd (m e)) = log e ++ t /\ count_calls p t = 0%nat.

(** The bastion of the forwarder to the guest's podman socket. *)
Definition guest_bastion : sshclient.Bastion := {|
  sshclient.Client := Some Channel;
  sshclient.Config := None;
  sshclient.Host := "192.168.127.2";
  sshclient.BastionPort := "22";
  sshclient.BastionPath := "/run/user/1000/podman/podman.sock"
|}.

(** *** Kinds of calls *)

Definition is_dial (c : call) : bool :=
  match c with Dial _ _ => true | _ => false end.
Definition is_probe (c : call) : bool :=
  match c with SendRequest _ _ => true | _ => false end.
Definition is_reconnect (c : call) : bool :=
  match c with Reconnect => true | _ => false end.
Definition is_go (c : call) : bool :=
  match c with Go _ => true | _ => false end.
Definition is_go_forward (c : call) : bool :=
  match c with GoForward _ => true | _ => false end.
Definition is_close (c : call) : bool :=
  match c with ConClose => true | _ => false end.

(** The sum of the waits of a log. *)
Definition slept (t : list entry) : Duration :=
  fold_right Z.add 0 (sleeps t).

(** How many passes the loop of [connectForward] can still make from a
    value of [retries] on. *)
Definition passes_left (retries : Z) : nat :=
  if retries <=? 2 then Z.to_nat (4 - retries) else 1%nat.

(** The auth methods [CreateBastion] collects: the key first, then the
    password. *)
Definition auth_methods (u : sshclient.URL) (identity : string)
    : list sshclient.AuthMethod :=
  (if 0 <? Z.of_nat (String.length identity)
   then [sshclient.PublicKeys identity] else []) ++
  (if snd (sshclient.Password (sshclient.User u))
   then [sshclient.PasswordAuth (fst (sshclient.Password (sshclient.User u)))]
   else []).

(** The six spellings [strconv.ParseBool] reads as true. *)
Definition true_spellings : list string :=
  ["1"; "t"; "T"; "true"; "TRUE"; "True"].

(** The URL without its query. *)
Definition without_query (u : sshclient.URL) : sshclient.URL := {|
  sshclient.User := sshclient.User u;
  sshclient.Hostname := sshclient.Hostname u;
  sshclient.Port := sshclient.Port u;
  sshclient.Path := sshclient.Path u;
  sshclient.Query := []
|}.

(** The URL of a guest reached with secure=yes. *)
Definition yes_url : sshclient.URL := {|
  sshclient.User := Some {| sshclient.username := "core";
                            sshclient.password := "";
                            sshclient.passwordSet := false |};
  sshclient.Hostname := "192.168.127.2";
  sshclient.Port := "22";
  sshclient.Path := "/run/user/1000/podman/podman.sock";
  sshclient.Query := [("secure", "yes")]
|}.

(** [bastion] with a fresh client. *)
Definition connected (bastion : sshclient.Bastion) : sshclient.Bastion :=
  sshclient.Build_Bastion (Some Channel) (sshclient.Config bastion)
    (sshclient.Host bastion) (sshclient.BastionPort bastion)
    (sshclient.BastionPath bastion).

(** *** The start-up of gvproxy *)

Definition is_stat (c : call) : bool :=
  match c with Stat _ => true | _ => false end.

(** [e'] is [e] after some calls of [os.Stat]. *)
Definition extends (e e' : env) : Prop :=
  exists t, log e' = log e ++ t /\
            Forall (fun en => is_stat (fst en) = true) t.

(** What writing the pid file logs when it succeeds. *)
Definition pid_log (fl : gvproxy.Flags) : list entry :=
  if gvproxy.nonempty (gvproxy.pidFile fl)
  then [(CreateFile (gvproxy.pidFile fl), true); (WriteString, true)]
  else [].

(** The flags after [main] has put in the default endpoint. *)
Definition with_default (fl : gvproxy.Flags) : gvproxy.Flags :=
  if Z.of_nat (length (gvproxy.endpoints fl)) =? 0 then
    {| gvproxy.debug := gvproxy.debug fl; gvproxy.mtu := gvproxy.mtu fl;
       gvproxy.endpoints := [gvproxy.DefaultURL];
       gvproxy.vpnkitSocket := gvproxy.vpnkitSocket fl;
       gvproxy.qemuSocket := gvproxy.qemuSocket fl;
       gvproxy.forwardSocket := gvproxy.forwardSocket fl;
       gvproxy.forwardDest := gvproxy.forwardDest fl;
       gvproxy.forwardUser := gvproxy.forwardUser fl;
       gvproxy.forwardIdentify := gvproxy.forwardIdentify fl;
       gvproxy.sshPort := gvproxy.sshPort fl;
       gvproxy.pidFile := gvproxy.pidFile fl |}
  else fl.

(** The deferred calls of [main] when it waits for its goroutines. *)
Definition deferred_calls (fl : gvproxy.Flags) : list gvproxy.deferred :=
  if gvproxy.nonempty (gvproxy.pidFile fl)
  then [gvproxy.DeferRemovePid (gvproxy.pidFile fl); gvproxy.DeferExit 0]
  else [gvproxy.DeferExit 0].

(** What the deferred calls log; [removed] is the outcome of the removal
    of the pid file. *)
Definition deferred_log (fl : gvproxy.Flags) (removed : bool) : list entry :=
  (if gvproxy.nonempty (gvproxy.pidFile fl)
   then (RemoveFile (gvproxy.pidFile fl), removed)
        :: (if removed then []
            else [(LogError "remove pid-file", true)])
   else []) ++ [(OsExit 0, true)].

(** The start of the SSH forwarder goroutine. *)
Definition go_ssh_forward (c : call) : bool :=
  match c with
  | Go SSHForward => true
  | _ => false
  end.

Definition is_remove (c : call) : bool :=
  match c with RemoveFile _ => true | _ => false end.

Definition is_write (c : call) : bool :=
  match c with WriteString => true | _ => false end.

(** The flags pass the tests of [main]. *)
Definition valid_flags (fl : gvproxy.Flags) : Prop :=
  1024 <= gvproxy.sshPort fl <= 65535 /\
  ~ (gvproxy.vpnkitSocket fl <> "" /\ gvproxy.qemuSocket fl <> "") /\
  (gvproxy.forwardCount fl = 0 \/ gvproxy.forwardCount fl = 4).

(** *** The goroutines of [run] *)

(** What [run] logs for endpoints it can listen on, the first of them
    with index [i]. *)
Fixpoint listening_log (i : nat) (eps : list string) : list entry :=
  match eps with
  | [] => []
  | endpoint :: eps' =>
      (Listen (EndpointLn i) endpoint, true)
      :: (Go (CloseOnDone (EndpointLn i)), true)
      :: (Go (ServeHTTP (EndpointLn i)), true)
      :: listening_log (S i) eps'
  end.

Definition is_listen (c : call) : bool :=
  match c with Listen _ _ => true | _ => false end.

(** The number of goroutines [run] starts when nothing fails. *)
Definition goroutines (fl : gvproxy.Flags) (eps : list string) : nat :=
  2 * length eps
  + (if gvproxy.debug fl then 1 else 0)
  + (if gvproxy.nonempty (gvproxy.vpnkitSocket fl) then 1 else 0)
  + (if gvproxy.nonempty (gvproxy.qemuSocket fl) then 2 else 0)
  + (if gvproxy.nonempty (gvproxy.forwardSocket fl) then 1 else 0).

(** Every call of the log succeeded. *)
Definition all_ok (t : list entry) : Prop :=
  Forall (fun en : entry => snd en = true) t.

(** *** The accept loops *)

(** A connection accepted on the vpnkit listener, and one refused. *)
Definition vpn_accepted (en : entry) : bool :=
  match en with
  | (Accept VpnkitLn, true) => true
  | _ => false
  end.
Definition vpn_refused (en : entry) : bool :=
  match en with
  | (Accept VpnkitLn, false) => true
  | _ => false
  end.

Definition go_accept_vpnkit (c : call) : bool :=
  match c with Go AcceptVpnKit => true | _ => false end.
Definition is_log_error (c : call) : bool :=
  match c with LogError _ => true | _ => false end.
Definition ctx_tested (c : call) : bool :=
  match c with CtxDone => true | _ => false end.

(** A goroutine started or a connection accepted. *)
Definition starts_or_accepts (c : call) : bool :=
  match c with
  | Go _ | GoForward _ | Accept _ => true
  | _ => false
  end.

(** Flags with --listen-qemu alone: a URL with the scheme unix, a bare
    path, and a value that is no URL. *)
Definition listen_qemu (socket : string) : gvproxy.Flags := {|
  gvproxy.debug := false; gvproxy.mtu := 1500; gvproxy.endpoints := [];
  gvproxy.vpnkitSocket := ""; gvproxy.qemuSocket := socket;
  gvproxy.forwardSocket := ""; gvproxy.forwardDest := "";
  gvproxy.forwardUser := ""; gvproxy.forwardIdentify := "";
  gvproxy.sshPort := 2222; gvproxy.pidFile := ""
|}.
Definition qemu_url_flags : gvproxy.Flags :=
  listen_qemu "unix:///tmp/qemu.sock".
Definition qemu_flags : gvproxy.Flags := listen_qemu "/tmp/qemu.sock".
Definition qemu_bad_flags : gvproxy.Flags := listen_qemu ":qemu.sock".

(** Flags with --pid-file alone. *)
Definition pid_flags : gvproxy.Flags := {|
  gvproxy.debug := false; gvproxy.mtu := 1500; gvproxy.endpoints := [];
  gvproxy.vpnkitSocket := ""; gvproxy.qemuSocket := "";
  gvproxy.forwardSocket := ""; gvproxy.forwardDest := "";
  gvproxy.forwardUser := ""; gvproxy.forwardIdentify := "";
  gvproxy.sshPort := 2222; gvproxy.pidFile := "/tmp/gvproxy.pid"
|}.

(** * Proofs *)

(** ** Logs *)

Lemma ends_with_nil x : ends_with x [].
Proof. intros [|? ?] post H; discriminate. Qed.

Lemma ends_with_one x y : ends_with x [y].
Proof.
  intros [|? pre] post H; injection H as _ H.
  - by symmetry.
  - by destruct pre.
Qed.

Lemma ends_with_cons x y t : y <> x -> ends_with x t -> ends_with x (y :: t).
Proof.
  intros Hne Ht [|z pre] post H; injection H as H1 H2.
  - by subst.
  - eapply Ht; eauto.
Qed.

Create HintDb ends.
#[local] Hint Resolve ends_with_nil ends_with_one ends_with_cons : ends.
#[local] Hint Extern 1 (_ <> _) => discriminate : ends.

(** ** pkg/virtualnetwork: backOff and initialConnection *)

Lemma split_at_cons {A} (x y : A) t pre post :
  y :: t = pre ++ x :: post ->
  (pre = [] /\ y = x /\ t = post) \/
  (exists pre', pre = y :: pre' /\ t = pre' ++ x :: post).
Proof.
  destruct pre as [|z pre]; simpl; intros H; injection H as -> ->; eauto.
Qed.

(** Walk the occurrence [x] of [H : l = pre ++ x :: post] along the known
    head of [l]. *)
Ltac split_occ H :=
  lazymatch type of H with
  | [] = _ ++ _ :: _ => exfalso; exact (app_cons_not_nil _ _ _ H)
  | _ :: _ = _ ++ _ :: _ =>
      let Heq := fresh "Heq" in
      let pre' := fresh "pre" in
      apply split_at_cons in H as [(-> & Heq & <-) | (pre' & -> & H)];
      [ try discriminate Heq | split_occ H ]
  | _ => idtac
  end.

Section InitialConnection.

Import virtualnetwork.

Lemma backOff_doubles d :
  0 < d <= Second -> backOff d = Z.min (2 * d) Second.
Proof.
  intros Hd. unfold backOff, wrap64, Second, Millisecond in *.
  destruct (Z.eqb_spec d 0); [lia|].
  replace ((d * 2 + 2 ^ 63) mod 2 ^ 64) with (d * 2 + 2 ^ 63)
    by (symmetry; apply Z.mod_small; lia).
  replace (d * 2 + 2 ^ 63 - 2 ^ 63) with (2 * d) by lia.
  destruct (Z.gtb_spec (2 * d) (1000 * 1000000)); lia.
Qed.

Lemma capped_backoff_range k : 0 < capped_backoff k <= Second.
Proof.
  unfold capped_backoff.
  assert (0 < 2 ^ Z.of_nat k) by (apply Z.pow_pos_nonneg; lia).
  unfold Second, Millisecond. lia.
Qed.

Lemma capped_backoff_S k :
  backOff (capped_backoff k) = capped_backoff (S k).
Proof.
  rewrite backOff_doubles by apply capped_backoff_range.
  unfold capped_backoff.
  rewrite Nat2Z.inj_succ, Z.pow_succ_r by lia.
  assert (0 < 2 ^ Z.of_nat k) by (apply Z.pow_pos_nonneg; lia).
  unfold Second, Millisecond. lia.
Qed.

Lemma initialConnection_loop_shape n : forall b c err e,
  exists t,
    log (snd (initialConnection_loop n b c err e)) = log e ++ t /\
    ic_shape n b t.
Proof.
  induction n as [|n IH]; intros b c err e; simpl.
  - exists []. split; [by rewrite app_nil_r | constructor].
  - unfold bind, ask, sleep, tell, note, ret; simpl.
    destruct (oracle e (asked e)); simpl.
    { eexists; split; [reflexivity | constructor]. }
    destruct (oracle e (S (asked e))); simpl.
    { eexists; split; [by rewrite <- app_assoc | constructor]. }
    match goal with
    | |- context [initialConnection_loop n ?b' ?c' ?err' ?e'] =>
        destruct (IH b' c' err' e') as (t & Ht & Hs)
    end.
    rewrite Ht; simpl.
    eexists; split; [| apply ic_retry, Hs].
    by rewrite <- !app_assoc.
Qed.

Lemma ic_shape_attempts n b t :
  ic_shape n b t ->
  (count_calls is_connect t <= n)%nat.
Proof.
  induction 1; unfold count_calls, count_entries in *; simpl in *; lia.
Qed.

Lemma ic_shape_sleeps n k t :
  ic_shape n (capped_backoff k) t ->
  sleeps t = map capped_backoff (seq k (count_entries failed_connect t)).
Proof.
  remember (capped_backoff k) as b eqn:Hb.
  intros H. revert k Hb.
  induction H; intros k Hb; try reflexivity.
  subst b. rewrite capped_backoff_S in IHic_shape.
  unfold count_entries, sleeps in *; simpl.
  f_equal. by apply IHic_shape.
Qed.

Lemma ic_shape_success_last n b t :
  ic_shape n b t -> ends_with (Connect, true) t.
Proof.
  induction 1; auto 6 with ends.
Qed.

Lemma ic_shape_cancel_last n b t :
  ic_shape n b t -> ends_with (CtxDone, true) t.
Proof.
  induction 1; auto 6 with ends.
Qed.

(** A log in which no attempt succeeded and the context was never seen
    done has all the attempts of its rounds. *)
Lemma ic_shape_all_attempts n b t :
  ic_shape n b t ->
  ~ In (Connect, true) t -> ~ In (CtxDone, true) t ->
  count_calls is_connect t = n /\ count_entries failed_connect t = n.
Proof.
  induction 1 as [b|n b|n b|n b s t Hs IH]; intros Hc Hd.
  - by split.
  - destruct Hd. by left.
  - destruct Hc. right. by left.
  - destruct IH as [IH1 IH2].
    { intros Hin. apply Hc. by do 4 right. }
    { intros Hin. apply Hd. by do 4 right. }
    unfold count_calls, count_entries in *. cbn. by rewrite IH1, IH2.
Qed.

(** After a failed attempt come the debug message and the sleep, whose
    wait is the backoff of the attempts made so far; then the rounds are
    used up, or the context is found done, or the next attempt is made. *)
Lemma ic_shape_retry n k t :
  ic_shape n (capped_backoff k) t ->
  forall pre post,
    t = pre ++ (Connect, false) :: post ->
    exists s post',
      post = (LogDebug "Waiting for sshd", true)
             :: (Sleep (capped_backoff (k + count_calls is_connect pre)), s)
             :: post' /\
      (post' = [] /\ S (count_calls is_connect pre) = n \/
       post' = [(CtxDone, true)] \/
       exists ok post'',
         post' = (CtxDone, false) :: (Connect, ok) :: post'').
Proof.
  remember (capped_backoff k) as b eqn:Hb. intros H. revert k Hb.
  induction H as [b|n b|n b|n b s t Hs IH]; intros k Hb pre post Heq.
  - by destruct pre.
  - split_occ Heq.
  - split_occ Heq.
  - subst b. split_occ Heq.
    + exists s, t. rewrite Nat.add_0_r. split; [reflexivity|].
      clear IH. destruct Hs; [by left|right..]; eauto.
    + destruct (IH (S k) (capped_backoff_S k) _ _ Heq)
        as (s' & post' & -> & Hpost).
      exists s', post'. split.
      * do 3 f_equal. unfold count_calls, count_entries. cbn.
        do 2 f_equal. lia.
      * destruct Hpost as [[-> Hn]|Hpost]; [left|right; exact Hpost].
        split; [reflexivity|]. unfold count_calls, count_entries in *.
        cbn. lia.
Qed.

Lemma initialConnection_loop_first n b c err e :
  exists rest,
    log (snd (initialConnection_loop (S n) b c err e))
      = log e ++ (CtxDone, oracle e (asked e)) :: rest /\
    (oracle e (asked e) = false ->
     exists rest', rest = (Connect, oracle e (S (asked e))) :: rest').
Proof.
  cbn [initialConnection_loop]. unfold sleep, tell.
  unfold bind, ask, note, ret.
  destruct (oracle e (asked e)); cbn [oracle asked log snd].
  { exists []. split; [reflexivity|discriminate]. }
  destruct (oracle e (S (asked e))); cbn [negb oracle asked log snd].
  { eexists. split; [by rewrite <- app_assoc|]. intros _. eexists.
    reflexivity. }
  match goal with
  | |- context [initialConnection_loop n ?b' ?c' ?err' ?e'] =>
      destruct (initialConnection_loop_shape n b' c' err' e') as (t & Ht & _)
  end.
  rewrite Ht. cbn [log]. rewrite <- !app_assoc. cbn [app].
  eexists. split; [reflexivity|]. intros _. eexists. reflexivity.
Qed.

Lemma initialConnection_first o :
  exists rest,
    trace initialConnection o = (CtxDone, o 0%nat) :: rest /\
    (o 0%nat = false -> exists rest', rest = (Connect, o 1%nat) :: rest').
Proof.
  unfold trace, initialConnection.
  apply (initialConnection_loop_first 59 (100 * Millisecond) None None
           (start o)).
Qed.

(** C4: [initialConnection] tests the context and, when it is not done,
    dials the guest's sshd; it dials at most 60 times, and exactly 60
    times when no attempt succeeds and the context is never seen done;
    after its k-th failed attempt (k from 0) it sleeps 100 ms doubled k
    times and capped at 1 s, so no sleep is longer than 1 s; a successful
    attempt and an observed cancellation of the context are each the last
    thing it does. *)
Theorem initialConnection_retries (o : nat -> bool) :
  let t := trace initialConnection o in
  (count_calls is_connect t <= 60)%nat /\
  sleeps t = map capped_backoff (seq 0 (count_entries failed_connect t)) /\
  capped_backoff 0 = 100 * Millisecond /\
  (forall k, capped_backoff (S k) = Z.min (2 * capped_backoff k) Second) /\
  (forall d, In d (sleeps t) -> 100 * Millisecond <= d <= Second) /\
  ends_with (Connect, true) t /\
  ends_with (CtxDone, true) t /\
  (exists rest,
     t = (CtxDone, o 0%nat) :: rest /\
     (o 0%nat = false -> exists rest', rest = (Connect, o 1%nat) :: rest')) /\
  (forall pre post,
     t = pre ++ (Connect, false) :: post ->
     exists s post',
       post = (LogDebug "Waiting for sshd", true)
              :: (Sleep (capped_backoff (count_calls is_connect pre)), s)
              :: post' /\
       (post' = [] /\ count_calls is_connect pre = 59%nat \/
        post' = [(CtxDone, true)] \/
        exists ok post'', post' = (CtxDone, false) :: (Connect, ok) :: post'')) /\
  (~ In (Connect, true) t -> ~ In (CtxDone, true) t ->
   count_calls is_connect t = 60%nat /\
   sleeps t = map capped_backoff (seq 0 60)).
Proof.
  pose proof (initialConnection_first o) as Hfirst.
  destruct (initialConnection_loop_shape 60 (100 * Millisecond) None None
              (start o)) as (t & Ht & Hs).
  revert Hfirst.
  cbv zeta. unfold trace, initialConnection. rewrite Ht.
  change (log (start o) ++ t) with t. clear Ht. intros Hfirst.
  change (100 * Millisecond) with (capped_backoff 0) in Hs.
  pose proof (ic_shape_sleeps _ _ _ Hs) as Hsl.
  split; [eapply ic_shape_attempts, Hs|].
  split; [exact Hsl|].
  split; [reflexivity|].
  split.
  { intros k. rewrite <- capped_backoff_S.
    apply backOff_doubles, capped_backoff_range. }
  split.
  { intros d H. rewrite Hsl in H. apply in_map_iff in H as (k & <- & _).
    split; [|apply capped_backoff_range].
    unfold capped_backoff, Second, Millisecond.
    assert (1 <= 2 ^ Z.of_nat k) by (apply (Z.pow_le_mono_r 2 0); lia). lia. }
  split; [eapply ic_shape_success_last, Hs|].
  split; [eapply ic_shape_cancel_last, Hs|].
  split; [exact Hfirst|].
  split.
  { intros pre post Heq.
    destruct (ic_shape_retry 60 0 _ Hs _ _ Heq) as (s & post' & -> & Hpost).
    exists s, post'. split; [reflexivity|].
    destruct Hpost as [[-> Hn]|Hpost]; [left|right; exact Hpost].
    split; [reflexivity|lia]. }
  intros Hc Hd.
  destruct (ic_shape_all_attempts _ _ _ Hs Hc Hd) as [H1 H2].
  split; [exact H1|]. by rewrite Hsl, H2.
Qed.

End InitialConnection.

(** ** pkg/virtualnetwork: connectForward and acceptConnection *)

Lemma wrap64_small z : - 2 ^ 63 <= z < 2 ^ 63 -> wrap64 z = z.
Proof.
  intros H. unfold wrap64. rewrite Z.mod_small; lia.
Qed.

Section ConnectForward.

Import virtualnetwork.

Variable b : sshclient.Bastion.

Lemma reconnectLoop_runs fuel e :
  (3 <= fuel)%nat ->
  exists run ok e',
    In (run, ok) reconnect_runs /\
    reconnectLoop fuel b 1 e =
      (Done (if ok then Next
             else Return (None, Some (reconnect_error b))), e') /\
    log e' = log e ++ run.
Proof.
  intros Hf. destruct fuel as [|[|[|f]]]; [lia..|]. clear Hf.
  unfold reconnect_runs.
  cbn [reconnectLoop]. unfold sleep, Wrapf. unfold bind, ask, ret.
  change (1 >? 2) with false.
  change (wrap64 (1 + 1) >? 2) with false.
  change (wrap64 (wrap64 (1 + 1) + 1) >? 2) with true.
  cbv beta iota zeta. cbn [negb oracle asked log].
  repeat match goal with
         | |- context [oracle e ?n] =>
             destruct (oracle e n); cbv beta iota zeta;
             cbn [negb oracle asked log]
         end;
    (first [ eexists _, true, _; split; [|split; [reflexivity|]]
           | eexists _, false, _; split; [|split; [reflexivity|]] ];
     [| cbn [log]; rewrite <- ?app_assoc; reflexivity ]);
    cbn; tauto.
Qed.

Ltac msimpl := cbv beta iota zeta; cbn -[reconnectLoop connectForwardLoop].
Ltac mstep := unfold sleep, tell; unfold bind, ask, note, ret; msimpl.

Lemma connectForwardLoop_shape fuel : forall r e,
  1 <= r <= 4 -> 5 - r <= Z.of_nat fuel ->
  exists t res e',
    connectForwardLoop fuel b r e = (Done (cf_result res), e') /\
    log e' = log e ++ t /\
    cf_shape b r t res.
Proof.
  induction fuel as [|fuel IH]; intros r e Hr Hf; [lia|].
  cbn [connectForwardLoop]. mstep.
  destruct (oracle e (asked e)); msimpl.
  { exists [dial b true], None. eexists; repeat split. constructor. }
  destruct (Z.gtb_spec r 2) as [Hgt|Hle]; msimpl.
  { exists [dial b false], (Some (dial_error b)). eexists; repeat split.
    by constructor. }
  destruct (oracle e (S (asked e))); msimpl.
  - destruct (oracle e (S (S (asked e)))) eqn:Es; msimpl.
    all: match goal with
      | |- context [connectForwardLoop _ b (wrap64 ?r') ?e'] =>
          rewrite (wrap64_small r') by lia;
          destruct (IH r' e') as (t & res & e2 & Heq & Hlog & Hsh); [lia..|]
      end.
    all: rewrite Heq; eexists _, res, e2; split; [reflexivity|split].
    all: try by (rewrite Hlog; cbn [log]; rewrite <- !app_assoc).
    + by apply (cf_alive b r true).
    + by apply (cf_alive b r false).
  - match goal with
    | |- context [reconnectLoop ?f b 1 ?e'] =>
        destruct (reconnectLoop_runs f e') as (run & ok & e1 & Hin & Hrun & Hl1);
          [lia|]
    end.
    rewrite Hrun. destruct ok; msimpl.
    + destruct (oracle e1 (asked e1)) eqn:Es; msimpl.
      all: match goal with
        | |- context [connectForwardLoop _ b (wrap64 ?r') ?e'] =>
            rewrite (wrap64_small r') by lia;
            destruct (IH r' e') as (t & res & e2 & Heq & Hlog & Hsh); [lia..|]
        end.
      all: rewrite Heq; eexists _, res, e2; split; [reflexivity|split].
      all: try by (rewrite Hlog; cbn [log]; rewrite Hl1; cbn [log];
                   rewrite <- !app_assoc).
      * by apply (cf_reconnected b r run true).
      * by apply (cf_reconnected b r run false).
    + exists ([dial b false; probe false] ++ run), (Some (reconnect_error b)), e1.
      split; [reflexivity|]. split.
      * rewrite Hl1. cbn [log]. by rewrite <- !app_assoc.
      * by apply cf_lost.
Qed.
Lemma cf_shape_first_failure r rest tail res t :
  cf_shape b r t res -> r <= 2 ->
  t ++ tail = dial b false :: rest ->
  exists alive rest', rest = probe alive :: rest'.
Proof.
  intros Hsh Hr Heq.
  destruct Hsh; cbn [app] in Heq; try lia; injection Heq; intros; subst;
    try discriminate; eauto.
Qed.

Lemma cf_shape_opened r t :
  cf_shape b r t None -> In (dial b true) t.
Proof.
  remember None as res eqn:Hres. intros Hsh.
  induction Hsh; try discriminate; cbn [In]; auto.
  right; right. apply in_or_app. right. right. auto.
Qed.

Lemma cf_shape_starts r t res :
  cf_shape b r t res -> exists ok rest, t = dial b ok :: rest.
Proof. destruct 1; eauto. Qed.

Lemma cf_shape_bursts r t res :
  cf_shape b r t res ->
  forall pre post,
    t ++ after_connect res = pre ++ probe false :: post ->
    exists run ok rest,
      In (run, ok) reconnect_runs /\ post = run ++ rest /\
      (ok = false ->
       rest = [(ConClose, true); (LogError (reconnect_error b), true)]) /\
      (ok = true ->
       exists s ok' rest', rest = pause s :: dial b ok' :: rest').
Proof.
  induction 1 as [r|r Hr|r s t res Hr Hsh IH|r run s t res Hr Hin Hsh IH
                  |r run Hr Hin]; intros pre post Heq.
  - cbn in Heq. split_occ Heq.
  - cbn in Heq. split_occ Heq.
  - cbn [app] in Heq. split_occ Heq. eauto.
  - destruct (cf_shape_starts _ _ _ Hsh) as (ok' & rest' & Ht).
    unfold reconnect_runs in Hin. cbn [In] in Hin.
    destruct Hin as [Hin|[Hin|[Hin|[Hin|[Hin|[Hin|[]]]]]]];
      try discriminate Hin;
      match type of Hin with
      | (?R, _) = _ =>
          injection Hin as <-; cbn [app] in Heq; split_occ Heq; eauto;
          exists R, true; eexists;
          (split; [unfold reconnect_runs; cbn; tauto
                  | split; [reflexivity
                           | split; [discriminate|intros _]]]);
          rewrite Ht; cbn [app]; eauto
      end.
  - unfold reconnect_runs in Hin. cbn [In] in Hin.
    destruct Hin as [Hin|[Hin|[Hin|[Hin|[Hin|[Hin|[]]]]]]];
      try discriminate Hin;
      match type of Hin with
      | (?R, _) = _ =>
          injection Hin as <-; cbn [app after_connect] in Heq;
          split_occ Heq;
          exists R, false; eexists;
          (split; [unfold reconnect_runs; cbn; tauto
                  | split; [reflexivity
                           | split; [reflexivity|discriminate]]])
      end.
Qed.

(** After a probe that found the bastion alive comes the sleep and the
    next dial. *)
Lemma cf_shape_alive r t res :
  cf_shape b r t res ->
  forall pre post,
    t ++ after_connect res = pre ++ probe true :: post ->
    exists s ok' rest', post = pause s :: dial b ok' :: rest'.
Proof.
  induction 1 as [r|r Hr|r s t res Hr Hsh IH|r run s t res Hr Hin Hsh IH
                  |r run Hr Hin]; intros pre post Heq.
  - cbn in Heq. split_occ Heq.
  - cbn in Heq. split_occ Heq.
  - destruct (cf_shape_starts _ _ _ Hsh) as (ok' & rest' & Ht).
    cbn [app] in Heq. split_occ Heq; eauto.
    rewrite Ht. cbn [app]. eauto.
  - unfold reconnect_runs in Hin. cbn [In] in Hin.
    destruct Hin as [Hin|[Hin|[Hin|[Hin|[Hin|[Hin|[]]]]]]];
      try discriminate Hin;
      injection Hin as <-; cbn [app] in Heq; split_occ Heq; eauto.
  - unfold reconnect_runs in Hin. cbn [In] in Hin.
    destruct Hin as [Hin|[Hin|[Hin|[Hin|[Hin|[Hin|[]]]]]]];
      try discriminate Hin;
      injection Hin as <-; cbn [app after_connect] in Heq; split_occ Heq.
Qed.

(** The first call of the loop is the dial, and after a failed dial that
    is not the last the probe. *)
Lemma connectForwardLoop_head fuel r e :
  1 <= r <= 4 -> 5 - r <= Z.of_nat fuel ->
  exists rest,
    log (snd (connectForwardLoop fuel b r e))
      = log e ++ dial b (oracle e (asked e)) :: rest /\
    (oracle e (asked e) = false -> r <= 2 ->
     exists rest', rest = probe (oracle e (S (asked e))) :: rest').
Proof.
  intros Hr Hf. destruct fuel as [|fuel]; [lia|].
  cbn [connectForwardLoop]. mstep.
  destruct (oracle e (asked e)); msimpl.
  { exists []. split; [reflexivity|discriminate]. }
  destruct (Z.gtb_spec r 2) as [Hgt|Hle]; msimpl.
  { exists []. split; [reflexivity|]. intros _ ?. lia. }
  destruct (oracle e (S (asked e))); msimpl.
  - destruct (oracle e (S (S (asked e)))) eqn:Es; msimpl.
    all: match goal with
      | |- context [connectForwardLoop _ b (wrap64 ?r') ?e'] =>
          rewrite (wrap64_small r') by lia;
          destruct (connectForwardLoop_shape fuel r' e')
            as (t & res & e2 & Heq & Hlog & Hsh); [lia..|]
      end.
    all: rewrite Heq; cbn [snd]; rewrite Hlog; cbn [log];
      rewrite <- !app_assoc; cbn [app];
      eexists; split; [reflexivity|]; intros _ _; eexists; reflexivity.
  - match goal with
    | |- context [reconnectLoop ?f b 1 ?e'] =>
        destruct (reconnectLoop_runs f e') as (run & ok & e1 & Hin & Hrun & Hl1);
          [lia|]
    end.
    rewrite Hrun. destruct ok; msimpl.
    + destruct (oracle e1 (asked e1)) eqn:Es; msimpl.
      all: match goal with
        | |- context [connectForwardLoop _ b (wrap64 ?r') ?e'] =>
            rewrite (wrap64_small r') by lia;
            destruct (connectForwardLoop_shape fuel r' e')
              as (t & res & e2 & Heq & Hlog & Hsh); [lia..|]
        end.
      all: rewrite Heq; cbn [snd]; rewrite Hlog; cbn [log]; rewrite Hl1;
        cbn [log]; rewrite <- !app_assoc; cbn [app];
        eexists; split; [reflexivity|]; intros _ _; eexists; reflexivity.
    + rewrite Hl1. cbn [log]. rewrite <- !app_assoc. cbn [app].
      eexists; split; [reflexivity|]; intros _ _; eexists; reflexivity.
Qed.

Lemma acceptConnection_run fuel path (o : nat -> bool) :
  (4 <= fuel)%nat -> o 0%nat = true -> o 1%nat = true ->
  exists t res,
    cf_shape b 1 t res /\
    result (acceptConnection fuel b path) o = Done None /\
    trace (acceptConnection fuel b path) o =
      (Accept ForwardLn, true) :: (IsCloseWriteStream, true)
      :: t ++ after_connect res.
Proof.
  intros Hf H0 H1.
  unfold result, trace, acceptConnection, connectForward, start.
  mstep. rewrite H0. msimpl. rewrite H1. msimpl.
  match goal with
  | |- context [connectForwardLoop fuel b 1 ?e] =>
      destruct (connectForwardLoop_shape fuel 1 e)
        as (t & res & e' & Heq & Hlog & Hsh); [lia..|]
  end.
  exists t, res. split; [exact Hsh|].
  rewrite Heq. cbn [log app] in Hlog.
  destruct res; cbn; rewrite Hlog; cbn; by rewrite <- ?app_assoc.
Qed.

(** The dial is the first thing done for an accepted connection that can
    be half-closed, and the probe the next when the dial fails. *)
Lemma acceptConnection_head fuel path (o : nat -> bool) :
  (4 <= fuel)%nat -> o 0%nat = true -> o 1%nat = true ->
  exists rest,
    trace (acceptConnection fuel b path) o =
      (Accept ForwardLn, true) :: (IsCloseWriteStream, true)
      :: dial b (o 2%nat) :: rest /\
    (o 2%nat = false -> exists rest', rest = probe (o 3%nat) :: rest').
Proof.
  intros Hf H0 H1.
  unfold trace, acceptConnection, connectForward, start.
  mstep. rewrite H0. msimpl. rewrite H1. msimpl.
  match goal with
  | |- context [connectForwardLoop fuel b 1 ?e] =>
      destruct (connectForwardLoop_shape fuel 1 e)
        as (t & res & e' & Heq & Hlog & Hsh); [lia..|];
      destruct (connectForwardLoop_head fuel 1 e)
        as (rest & Hhead & Hprobe); [lia..|];
      rewrite Heq in Hhead |- *
  end.
  cbn [snd log app oracle asked] in Hhead, Hlog, Hprobe.
  rewrite Hlog in Hhead. injection Hhead as ->.
  destruct res; cbn; rewrite Hlog; cbn.
  - eexists. split; [reflexivity|]. intros H2.
    destruct (Hprobe H2 ltac:(lia)) as (rest' & ->). cbn [app]. eauto.
  - eexists. split; [reflexivity|]. intros H2.
    destruct (Hprobe H2 ltac:(lia)) as (rest' & ->). cbn [app]. eauto.
Qed.

(** C3: an accepted connection never makes [AcceptAndTunnel] fail.  For
    an accepted connection that can be half-closed the channel is dialled
    first.  When that dial fails, the next call is the global request
    alive@gvproxy.  After a failed probe the bastion is reconnected at
    most three times, with a 200 ms sleep between two attempts, and a
    sleep cut short by the context ends the attempts; once the bastion is
    reconnected, or was found alive, the forwarder sleeps 200 ms and dials
    the channel again.  When no channel could be opened the connection is
    closed and the error logged, and the function still returns nil. *)
Theorem acceptConnection_channel_failure
    (fuel : nat) (path : string) (o : nat -> bool) :
  (4 <= fuel)%nat -> o 0%nat = true ->
  let t := trace (acceptConnection fuel b path) o in
  result (acceptConnection fuel b path) o = Done None /\
  (o 1%nat = true ->
   (exists rest,
      t = (Accept ForwardLn, true) :: (IsCloseWriteStream, true)
          :: dial b (o 2%nat) :: rest /\
      (o 2%nat = false -> exists rest', rest = probe (o 3%nat) :: rest')) /\
   (forall rest,
      t = (Accept ForwardLn, true) :: (IsCloseWriteStream, true)
          :: dial b false :: rest ->
      exists alive rest', rest = probe alive :: rest') /\
   (forall pre post,
      t = pre ++ probe false :: post ->
      exists run ok rest,
        In (run, ok) reconnect_runs /\ post = run ++ rest /\
        (ok = false ->
         rest = [(ConClose, true); (LogError (reconnect_error b), true)]) /\
        (ok = true ->
         exists s ok' rest', rest = pause s :: dial b ok' :: rest')) /\
   (forall pre post,
      t = pre ++ probe true :: post ->
      exists s ok' rest', post = pause s :: dial b ok' :: rest') /\
   (~ In (dial b true) t ->
    exists pre msg, t = pre ++ [(ConClose, true); (LogError msg, true)])).
Proof.
  intros Hf H0. cbv zeta.
  destruct (o 1%nat) eqn:H1.
  2: { split; [|discriminate].
       unfold result, acceptConnection, start. mstep.
       rewrite H0. msimpl. by rewrite H1. }
  pose proof (acceptConnection_head fuel path o Hf H0 H1) as Hhead.
  destruct (acceptConnection_run fuel path o Hf H0 H1)
    as (t & res & Hsh & -> & Ht).
  rewrite Ht in Hhead |- *.
  split; [reflexivity|]. intros _.
  split; [exact Hhead|]. split; [|split; [|split]].
  - intros rest Hrest. injection Hrest as Hrest.
    eapply cf_shape_first_failure; eauto. lia.
  - intros pre post Hocc. split_occ Hocc.
    eapply cf_shape_bursts; eauto.
  - intros pre post Hocc. split_occ Hocc.
    eapply cf_shape_alive; eauto.
  - intros Hno. destruct res as [m|].
    + exists ((Accept ForwardLn, true) :: (IsCloseWriteStream, true) :: t), m.
      reflexivity.
    + exfalso. apply Hno. right; right. apply in_or_app. left.
      eapply cf_shape_opened, Hsh.
Qed.

End ConnectForward.

(** ** pkg/virtualnetwork: the pump *)

Section Pump.

Import virtualnetwork.

Lemma delivered_wrote writes : delivered (map io.Wrote writes) = concat writes.
Proof.
  unfold delivered. induction writes as [|w ws IH]; cbn; [done|].
  by f_equal.
Qed.

Lemma Copy_loop_writes src : forall dst written,
  exists writes,
    snd (io.Copy_loop dst src written) = map io.Wrote writes /\
    concat writes `prefix_of` produced src.
Proof.
  induction src as [|[buf er] src IH]; intros dst written.
  - exists []. split; [reflexivity|]. by exists [].
  - cbn [io.Copy_loop produced].
    assert (Hbuf : forall n, take n buf `prefix_of`
                     match er with
                     | io.NoErr => buf ++ produced src
                     | _ => buf
                     end).
    { intros n. etrans; [apply prefix_take|].
      destruct er; [by apply prefix_app_r| |]; done. }
    destruct (0 <? Z.of_nat (length buf)) eqn:Hnr.
    + destruct (io.Write dst buf) as [[nw ew] dst'].
      destruct ((nw <? 0) || (Z.of_nat (length buf) <? nw)) eqn:Hbad.
      { exists [take (Z.to_nat nw) buf]. cbn. rewrite app_nil_r. auto. }
      destruct ew.
      { exists [take (Z.to_nat nw) buf]. cbn. rewrite app_nil_r. auto. }
      destruct (Z.eqb_spec (Z.of_nat (length buf)) nw) as [<-|Hne]; cbn [negb].
      2: { exists [take (Z.to_nat nw) buf]. cbn. rewrite app_nil_r. auto. }
      rewrite Nat2Z.id, firstn_all.
      destruct er.
      * destruct (IH dst' (written + Z.of_nat (length buf)))
          as (ws & Hws & Hpre).
        destruct (io.Copy_loop dst' src _) as [r evs']. cbn in Hws. subst evs'.
        exists (buf :: ws). split; [reflexivity|].
        cbn. by apply prefix_app.
      * exists [buf]. cbn. by rewrite app_nil_r.
      * exists [buf]. cbn. by rewrite app_nil_r.
    + apply Z.ltb_ge in Hnr.
      assert (buf = []) as -> by (destruct buf; [done|cbn [length] in Hnr; lia]).
      destruct er.
      * destruct (IH dst written) as (ws & Hws & Hpre).
        destruct (io.Copy_loop dst src written) as [r evs']. cbn in Hws.
        subst evs'. exists ws. split; [reflexivity|done].
      * exists []. split; [reflexivity|]. by exists [].
      * exists []. split; [reflexivity|]. by exists [].
Qed.

Lemma Copy_loop_reliable src : forall written,
  delivered (snd (io.Copy_loop [] src written)) = produced src.
Proof.
  induction src as [|[buf er] src IH]; intros written; [reflexivity|].
  cbn [io.Copy_loop produced io.Write].
  destruct (Z.ltb_spec 0 (Z.of_nat (length buf))) as [Hnr|Hnr].
  - replace ((Z.of_nat (length buf) <? 0)
             || (Z.of_nat (length buf) <? Z.of_nat (length buf))) with false
      by (symmetry; apply orb_false_iff; split; apply Z.ltb_ge; lia).
    rewrite Z.eqb_refl. cbn [negb]. rewrite Nat2Z.id, firstn_all.
    destruct er.
    + specialize (IH (written + Z.of_nat (length buf))).
      destruct (io.Copy_loop [] src _) as [r evs']. cbn in IH |- *.
      unfold delivered in *. cbn. by rewrite IH.
    + unfold delivered. cbn. by rewrite app_nil_r.
    + unfold delivered. cbn. by rewrite app_nil_r.
  - assert (buf = []) as -> by (destruct buf; [done|cbn [length] in Hnr; lia]).
    destruct er; [|reflexivity..].
    specialize (IH written).
    destruct (io.Copy_loop [] src written) as [r evs']. exact IH.
Qed.

(** C7: the pump writes to its destination only bytes of its source, in
    the order the source gave them, and nothing it has not read; it stops
    copying at the end of the source's stream (or at an error), and only
    then half-closes the destination and, last, closes the source. With a
    destination that takes every write, all the bytes of the source have
    been delivered when the half-close happens. *)
Theorem forward_copies_then_half_closes (src : io.Reader) (dest : io.Writer) :
  (exists writes,
     forward src dest =
       map io.Wrote writes ++ [io.CloseWrite; io.SrcClose] /\
     concat writes `prefix_of` produced src) /\
  (exists writes,
     forward src [] = map io.Wrote writes ++ [io.CloseWrite; io.SrcClose] /\
     concat writes = produced src).
Proof.
  unfold forward, io.Copy. split.
  - destruct (Copy_loop_writes src dest 0) as (ws & Hws & Hpre).
    destruct (io.Copy_loop dest src 0) as [r evs]. cbn in Hws. subst evs.
    exists ws. split; [reflexivity | exact Hpre].
  - destruct (Copy_loop_writes src [] 0) as (ws & Hws & _).
    pose proof (Copy_loop_reliable src 0) as Hall.
    destruct (io.Copy_loop [] src 0) as [r evs]. cbn in Hws, Hall. subst evs.
    exists ws. split; [reflexivity|].
    by rewrite <- delivered_wrote.
Qed.

End Pump.

(** ** pkg/sshclient: CreateBastion *)

Section Bastion.

Import sshclient.

Variable HashHostname : string -> string.
Variable known_hosts : option (list knownHostsLine).
Variable server_key : PublicKey.

Ltac msimpl := cbv beta iota zeta; cbn -[scan].
Ltac mstep := unfold tell; unfold bind, ask, note, ret; msimpl.

Lemma scan_key lines host hashhost e :
  fst (scan lines host hashhost e) = first_key host hashhost lines.
Proof.
  revert e. induction lines as [|[[hosts key]|] lines IH]; intros e.
  - reflexivity.
  - cbn [scan first_key key_for].
    destruct (existsb _ hosts); [reflexivity|]. apply IH.
  - cbn [scan first_key key_for]. unfold bind, tell, note.
    apply IH.
Qed.

Lemma HostKey_key host e :
  fst (HostKey HashHostname known_hosts host e) =
  known_key known_hosts host (HashHostname host).
Proof.
  unfold HostKey, known_key. destruct known_hosts as [lines|].
  - apply scan_key.
  - reflexivity.
Qed.

Lemma reconnect_config bastion c e :
  Config (fst (fst (reconnect server_key bastion c e))) = Config bastion /\
  (snd (fst (reconnect server_key bastion c e)) = None ->
   forall cfg, Config bastion = Some cfg ->
     accepts (HostKeyCallbackOf cfg) server_key = true).
Proof.
  unfold reconnect, NewClientConn.
  destruct (Config bastion) as [cfg|] eqn:Hcfg;
    [destruct (accepts (HostKeyCallbackOf cfg) server_key) eqn:Hacc|];
    destruct c; mstep;
    repeat match goal with
           | |- context [oracle e ?n] => destruct (oracle e n); msimpl
           end;
    rewrite ?Hcfg; (split; [reflexivity|]); intros Herr cfg' Hcfg';
    try discriminate; by simplify_eq.
Qed.

(** What [CreateBastion] returns once it has an auth method: the bastion
    carries the callback the host key policy chooses. *)
Lemma CreateBastion_callback _url passPhrase identity initial e b err :
  fst (CreateBastion HashHostname known_hosts server_key _url passPhrase
         identity initial e) = (b, err) ->
  forall cfg, Config b = Some cfg ->
    HostKeyCallbackOf cfg =
      (if secure _url then
         match known_key known_hosts (known_hosts_name _url)
                 (HashHostname (known_hosts_name _url)) with
         | Some key => FixedHostKey key
         | None => InsecureIgnoreHostKey
         end
       else InsecureIgnoreHostKey) /\
    (err = None -> accepts (HostKeyCallbackOf cfg) server_key = true).
Proof.
  unfold CreateBastion, secure, known_hosts_name.
  set (port := if String.eqb (Port _url) "" then "22" else Port _url).
  set (host := if negb (String.eqb port "22")
               then "[" +:+ Hostname _url +:+ "]:" +:+ port
               else Hostname _url).
  destruct (ParseBool (Get (Query _url) "secure")) as [sec perr].
  destruct (Password (User _url)) as [pw found].
  unfold bind at 1.
  assert (Hfin : forall callback auth e1,
    fst (reconnect server_key
           (Build_Bastion None
              (Some (Build_ClientConfig (Username (User _url)) auth callback
                       (5 * Second)))
              (Hostname _url) port (Path _url)) initial e1) = (b, err) ->
    forall cfg, Config b = Some cfg ->
      HostKeyCallbackOf cfg = callback /\
      (err = None -> accepts (HostKeyCallbackOf cfg) server_key = true)).
  { intros callback auth e1 Heq cfg Hcfg.
    match type of Heq with
    | fst (reconnect _ ?B _ _) = _ =>
        destruct (reconnect_config B initial e1) as [HC HA]
    end.
    rewrite Heq in HC, HA. cbn [fst snd Config] in HC, HA.
    rewrite Hcfg in HC. injection HC as ->. split; [reflexivity|].
    intros ->. by apply (HA eq_refl _ eq_refl). }
  assert (Hrest : forall auth e1,
    fst ((if Z.of_nat (length (if found then auth ++ [PasswordAuth pw]
                               else auth)) =? 0
          then ret (noBastion, Some "No available auth methods")
          else
            do callback <- (if sec then
                              do key <- HostKey HashHostname known_hosts host;
                              match key with
                              | Some key => ret (FixedHostKey key)
                              | None => ret InsecureIgnoreHostKey
                              end
                            else ret InsecureIgnoreHostKey);
            reconnect server_key
              (Build_Bastion None
                 (Some (Build_ClientConfig (Username (User _url))
                          (if found then auth ++ [PasswordAuth pw] else auth)
                          callback (5 * Second)))
                 (Hostname _url) port (Path _url)) initial) e1) = (b, err) ->
    forall cfg, Config b = Some cfg ->
      HostKeyCallbackOf cfg =
        (if sec then
           match known_key known_hosts host (HashHostname host) with
           | Some key => FixedHostKey key
           | None => InsecureIgnoreHostKey
           end
         else InsecureIgnoreHostKey) /\
      (err = None -> accepts (HostKeyCallbackOf cfg) server_key = true)).
  { intros auth e1.
    destruct (Z.of_nat _ =? 0).
    { intros [= <- <-] cfg Hcfg. discriminate Hcfg. }
    destruct sec.
    - unfold bind. pose proof (HostKey_key host e1) as Hk.
      destruct (HostKey HashHostname known_hosts host e1) as [key e2].
      cbn [fst] in Hk. rewrite <- Hk.
      destruct key; unfold ret; apply Hfin.
    - unfold bind, ret. apply Hfin. }
  destruct (0 <? Z.of_nat (String.length identity)).
  - unfold bind, ask, ret. destruct (oracle e (asked e)); cbn [negb].
    + apply Hrest.
    + intros [= <- <-] cfg Hcfg. discriminate Hcfg.
  - unfold ret at 1. apply Hrest.
Qed.




(** C10: without an identity and without a password in the URL,
    [CreateBastion] returns the error "No available auth methods" and has
    called nothing: no key is read and no connection is attempted. *)
Theorem CreateBastion_no_auth_methods
    (_url : URL) (passPhrase : string) (initial : option conn)
    (o : nat -> bool) :
  snd (Password (User _url)) = false ->
  result (CreateBastion HashHostname known_hosts server_key _url passPhrase
            "" initial) o = (noBastion, Some "No available auth methods") /\
  trace (CreateBastion HashHostname known_hosts server_key _url passPhrase
           "" initial) o = [].
Proof.
  intros Hpw. unfold result, trace, CreateBastion.
  destruct (Password (User _url)) as [pw found]. cbn [snd] in Hpw. subst found.
  split; reflexivity.
Qed.

End Bastion.



Lemma CreateBastion_no_auth_methods_witness :
  trace (sshclient.CreateBastion (fun h => h) None "k" secure_url "" ""
           None) (script [] true) = [].
Proof.
  exact (proj2 (CreateBastion_no_auth_methods (fun h => h) None "k"
                  secure_url "" None (script [] true) eq_refl)).
Defined.

(** ** pkg/services/forwarder: the UDP handler *)

Section UDPForwarder.

Import forwarder.

Lemma linkLocal_contains (c d : N) :
  tcpip.Contains linkLocal (tcpip.bytes [169; 254; c; d]%N) = true.
Proof.
  unfold tcpip.Contains, linkLocal, tcpip.bytes.
  cbn [fold_right tcpip.address tcpip.mask String.length Nat.eqb negb
       tcpip.masked_eq].
  change (tcpip.byte_and (ascii_of_N 169) (ascii_of_N 255))
    with (ascii_of_N 169).
  change (tcpip.byte_and (ascii_of_N 254) (ascii_of_N 255))
    with (ascii_of_N 254).
  assert (Hz : forall x, tcpip.byte_and (ascii_of_N x) (ascii_of_N 0)
                         = ascii_of_N 0).
  { intros x. unfold tcpip.byte_and.
    change (N_of_ascii (ascii_of_N 0)) with 0%N. by rewrite N.land_0_r. }
  rewrite !Hz, !Ascii.eqb_refl. reflexivity.
Qed.

(** C6: for a destination in 169.254.0.0/16 the handler returns at once:
    it calls nothing, so it creates no endpoint and starts no proxy that
    could dial the host. *)
Theorem UDP_link_local_not_forwarded
    (nat : gmap tcpip.Address tcpip.Address) (r : TransportEndpointID)
    (o : Datatypes.nat -> bool) (c d : N) :
  LocalAddress r = tcpip.bytes [169; 254; c; d]%N ->
  trace (UDP nat r) o = [] /\
  ~ In (CreateEndpoint, true) (trace (UDP nat r) o) /\
  (forall network host port ok,
     ~ In (ProxyRun network host port, ok) (trace (UDP nat r) o)).
Proof.
  intros Haddr.
  assert (Ht : trace (UDP nat r) o = []).
  { unfold trace, UDP. by rewrite Haddr, linkLocal_contains. }
  rewrite Ht. repeat split; intros; apply in_nil.
Qed.

(** C5: whatever proxy the handler starts dials the network "udp" at the
    port the guest addressed, and at the address the NAT table maps the
    guest's destination to, or at that destination when the table has no
    entry for it; and it does start one for every destination that is not
    link-local once the endpoint is created. *)
Theorem UDP_dials_nat_target
    (nat : gmap tcpip.Address tcpip.Address) (r : TransportEndpointID)
    (o : Datatypes.nat -> bool) :
  (forall network host port ok,
     In (ProxyRun network host port, ok) (trace (UDP nat r) o) ->
     network = "udp" /\ port = LocalPort r /\
     (forall replaced, nat !! LocalAddress r = Some replaced ->
                       host = replaced) /\
     (nat !! LocalAddress r = None -> host = LocalAddress r)) /\
  (tcpip.Contains linkLocal (LocalAddress r) = false -> o 0%nat = true ->
   exists host,
     In (ProxyRun "udp" host (LocalPort r), true) (trace (UDP nat r) o)).
Proof.
  unfold trace, UDP, start.
  destruct (tcpip.Contains linkLocal (LocalAddress r)).
  { split; [intros ? ? ? ? []|discriminate]. }
  unfold tell. unfold bind, ask, note, ret. cbn.
  destruct (o 0%nat); cbn.
  - split.
    + intros network host port ok [H|[H|[H|[H|[]]]]]; try discriminate H.
      injection H as <- <- <- <-.
      repeat split; intros; simplify_option_eq; done.
    + intros _ _. eexists. do 3 right. left. reflexivity.
  - split; [|discriminate].
    intros network host port ok [H|[H|[H|[H|[]]]]]; discriminate H.
Qed.

End UDPForwarder.

Lemma UDP_link_local_not_forwarded_witness :
  trace (forwarder.UDP nat_default metadata_request) (script [] true) = [].
Proof.
  exact (proj1 (UDP_link_local_not_forwarded nat_default metadata_request
                  (script [] true) 169%N 254%N eq_refl)).
Defined.

(** The default NAT entry at work: a datagram to 192.168.127.254:53 is
    proxied to 127.0.0.1:53. *)
Example UDP_host_alias :
  trace (forwarder.UDP nat_default host_request) (script [] true) =
  [(NatLock, true); (NatUnlock, true); (CreateEndpoint, true);
   (ProxyRun "udp" (tcpip.bytes [127; 0; 0; 1]%N) 53, true)].
Proof. vm_compute. reflexivity. Qed.

(** ** cmd/gvproxy: the flags and the exit status *)

Section Gvproxy.

Import gvproxy.

Variable url_Parse : string -> option (string * string).

Lemma exitWithError_status msg e : fst (exitWithError msg e) = Exit 1.
Proof. reflexivity. Qed.

Lemma checkSockets_fails fl k :
  (forall e, fst (k e) = Exit 1) ->
  forall e, fst (checkSockets url_Parse fl k e) = Exit 1.
Proof.
  intros Hk e. unfold checkSockets.
  destruct (0 <? Z.of_nat (String.length (qemuSocket fl))).
  - destruct (url_Parse (qemuSocket fl)) as [[scheme path]|].
    + unfold bind at 1. unfold bind at 1. unfold ask.
      destruct (oracle e (asked e) && String.eqb scheme "unix");
        unfold ret; [reflexivity|].
      destruct (nonempty (vpnkitSocket fl) && nonempty (qemuSocket fl));
        [reflexivity|].
      destruct ((sshPort fl <? 1024) || (sshPort fl >? 65535));
        [reflexivity|apply Hk].
    + reflexivity.
  - unfold bind, ret.
    destruct (nonempty (vpnkitSocket fl) && nonempty (qemuSocket fl));
      [reflexivity|].
    destruct ((sshPort fl <? 1024) || (sshPort fl >? 65535));
      [reflexivity|apply Hk].
Qed.

Lemma checkForward_rejects fl k e :
  1 <= forwardCount fl <= 3 ->
  fst (checkForward fl k e) = Exit 1.
Proof.
  unfold forwardCount, checkForward. intros Hc.
  destruct (nonempty (forwardDest fl)), (nonempty (forwardIdentify fl)),
    (nonempty (forwardUser fl)), (nonempty (forwardSocket fl));
    cbn in Hc; try lia;
    unfold bind, ask, ret; try destruct (oracle e (asked e)); reflexivity.
Qed.

Lemma checkForward_none fl k e :
  forwardCount fl = 0 -> checkForward fl k e = k e.
Proof.
  unfold forwardCount, checkForward. intros Hc.
  destruct (nonempty (forwardDest fl)), (nonempty (forwardIdentify fl)),
    (nonempty (forwardUser fl)), (nonempty (forwardSocket fl));
    cbn in Hc; try lia. reflexivity.
Qed.

Lemma checkForward_all fl k e :
  forwardCount fl = 4 ->
  checkForward fl k e =
    let e' ok := Env (oracle e) (S (asked e))
                   (log e ++ [(Stat (forwardIdentify fl), ok)]) in
    if oracle e (asked e) then k (e' true)
    else exitWithError ("Identity file " +:+ forwardIdentify fl
                        +:+ " can't be loaded") (e' false).
Proof.
  unfold forwardCount, checkForward. intros Hc.
  destruct (nonempty (forwardDest fl)), (nonempty (forwardIdentify fl)),
    (nonempty (forwardUser fl)), (nonempty (forwardSocket fl));
    cbn in Hc; try lia.
  unfold bind, ask, ret. cbv zeta.
  destruct (oracle e (asked e)); reflexivity.
Qed.

(** C8, as the code has it: with one, two or three of the four forward
    flags given the process exits with status 1 whatever else happens;
    with none given the test of the forward flags passes control on; with
    all four given it does so when the identity file can be stat'ed, and
    exits with an error when it cannot. *)
Theorem main_forward_flags (fl : Flags) (o : nat -> bool) :
  (1 <= forwardCount fl <= 3 -> result (main url_Parse fl) o = Exit 1) /\
  (forwardCount fl = 0 ->
   forall k e, checkForward fl k e = k e) /\
  (forwardCount fl = 4 ->
   forall k e,
     let e' ok := Env (oracle e) (S (asked e))
                    (log e ++ [(Stat (forwardIdentify fl), ok)]) in
     (oracle e (asked e) = true -> checkForward fl k e = k (e' true)) /\
     (oracle e (asked e) = false ->
      fst (checkForward fl k e) = Exit 1)).
Proof.
  split; [|split].
  - intros Hc. unfold result, main.
    apply checkSockets_fails. intros e.
    apply checkForward_rejects.
    destruct (Z.of_nat (length (endpoints fl)) =? 0); exact Hc.
  - intros Hc k e. by apply checkForward_none.
  - intros Hc k e. cbv zeta.
    rewrite (checkForward_all fl k e Hc). cbv zeta.
    split; intros ->; reflexivity.
Qed.

Lemma runDeferred_exit code ds e :
  ds = [DeferExit code] \/ (exists p, ds = [DeferRemovePid p; DeferExit code]) ->
  fst (runDeferred ds e) = Exit code.
Proof.
  intros [->|[p ->]]; cbn [runDeferred]; unfold bind, ask, tell, note, ret.
  - reflexivity.
  - by destruct (oracle e (asked e)).
Qed.

(** Once [main] is past its start-up tests the status is the argument the
    deferred [os.Exit] was given when the [defer] ran, whatever [Wait]
    returns. *)
Lemma serve_status fl exitCode code ds e status :
  ds = [DeferExit code] \/ (exists p, ds = [DeferRemovePid p; DeferExit code]) ->
  fst (serve fl exitCode ds e) = Exit status -> status = code.
Proof.
  intros Hds. unfold serve.
  unfold bind at 1. unfold tell, note. unfold bind at 1.
  destruct (run fl (endpoints fl) _) as [err e1].
  unfold bind at 1. unfold bind at 1. unfold tell, note.
  destruct err as [msg|].
  - unfold ret at 1. unfold bind, tell, note, ret.
    rewrite runDeferred_exit with (code := code) by done. congruence.
  - unfold bind, ask, tell, note, ret. cbn [oracle asked log].
    destruct (oracle e1 (asked e1)); cbn [oracle asked log].
    + rewrite runDeferred_exit with (code := code) by done. congruence.
    + destruct (oracle e1 (S (asked e1))).
      * rewrite runDeferred_exit with (code := code) by done. congruence.
      * discriminate.
Qed.

End Gvproxy.

(** C1 at a failing input: no flag is given and the default endpoint
    cannot be listened on; [run] returns the error, it is logged, and the
    process exits with status 0. *)
Theorem main_listen_failure_exits_0 :
  let o := script [true; false] true in
  result (gvproxy.main parse_unix gvproxy.defaults) o = gvproxy.Exit 0 /\
  trace (gvproxy.main parse_unix gvproxy.defaults) o =
    [(Go RunTask, true); (VNNew, true);
     (Listen (EndpointLn 0) gvproxy.DefaultURL, false);
     (Go SignalWait, true); (LogError "cannot listen: listen", true);
     (OsExit 0, true)].
Proof. split; reflexivity. Qed.

(** The other half of C1: a signal after a good start ends the process
    with status 0. *)
Example main_signal_exits_0 :
  let o := script [true; true; true] true in
  result (gvproxy.main parse_unix gvproxy.defaults) o = gvproxy.Exit 0 /\
  trace (gvproxy.main parse_unix gvproxy.defaults) o =
    [(Go RunTask, true); (VNNew, true);
     (Listen (EndpointLn 0) gvproxy.DefaultURL, true);
     (Go (CloseOnDone (EndpointLn 0)), true);
     (Go (ServeHTTP (EndpointLn 0)), true);
     (Go SignalWait, true); (SignalCaught, true); (Cancel, true);
     (LogError "signal caught", true); (OsExit 0, true)].
Proof. split; reflexivity. Qed.

(** C8, as the spec has it, fails: all four forward flags are given, the
    identity file does not exist, and the process exits with status 1. *)
Lemma main_four_flags_identity_missing :
  gvproxy.forwardCount forward_flags = 4 /\
  result (gvproxy.main parse_unix forward_flags) (script [false] true)
    = gvproxy.Exit 1.
Proof. split; reflexivity. Qed.

Lemma main_forward_flags_witness :
  result (gvproxy.main parse_unix user_only_flags) (script [] true)
    = gvproxy.Exit 1.
Proof.
  apply (proj1 (main_forward_flags parse_unix user_only_flags
                  (script [] true))).
  vm_compute. split; discriminate.
Defined.

(** ** cmd/gvproxy: who accepts on the qemu listener *)

Lemma count_calls_app p t1 t2 :
  count_calls p (t1 ++ t2) = (count_calls p t1 + count_calls p t2)%nat.
Proof.
  unfold count_calls, count_entries. by rewrite List.filter_app, length_app.
Qed.

Section Never.

Variable p : call -> bool.

Lemma never_ret {A} (a : A) : never p (ret a).
Proof. intros e. exists []. by rewrite app_nil_r. Qed.

Lemma never_bind {A B} (m : M A) (k : A -> M B) :
  never p m -> (forall a, never p (k a)) -> never p (bind m k).
Proof.
  intros Hm Hk e. unfold bind.
  destruct (Hm e) as (t1 & H1 & C1).
  destruct (m e) as [a e1]. cbn [snd] in H1.
  destruct (Hk a e1) as (t2 & H2 & C2).
  exists (t1 ++ t2). rewrite H2, H1, count_calls_app, C1, C2.
  by rewrite app_assoc.
Qed.

Lemma never_note c b : p c = false -> never p (note c b).
Proof.
  intros Hc e. exists [(c, b)]. split; [reflexivity|].
  unfold count_calls, count_entries. cbn. by rewrite Hc.
Qed.

Lemma never_tell c : p c = false -> never p (tell c).
Proof. apply never_note. Qed.

Lemma never_ask c : p c = false -> never p (ask c).
Proof.
  intros Hc e. exists [(c, oracle e (asked e))]. split; [reflexivity|].
  unfold count_calls, count_entries. cbn. by rewrite Hc.
Qed.

End Never.

Create HintDb never.

Ltac never_step :=
  first
    [ apply never_ret
    | apply never_ask; reflexivity
    | apply never_note; reflexivity
    | apply never_tell; reflexivity
    | solve [auto with never]
    | apply never_bind; [|intros ?]
    | match goal with
      | |- never _ (if ?b then _ else _) => destruct b
      | |- never _ (match ?x with _ => _ end) => destruct x
      end ].

Ltac never_auto := repeat never_step.

Section QemuAccept.

Import sshclient virtualnetwork gvproxy.

Variable url_Parse : string -> option (string * string).
Variable HashHostname : string -> string.
Variable known_hosts : option (list knownHostsLine).
Variable server_key : PublicKey.

Lemma never_initialConnection_loop n : forall b c err,
  never qemu_accept (initialConnection_loop n b c err).
Proof.
  induction n as [|n IH]; intros b c err; cbn [initialConnection_loop];
    unfold sleep; never_auto.
Qed.

Lemma never_reconnectLoop fuel : forall b r,
  never qemu_accept (reconnectLoop fuel b r).
Proof.
  induction fuel as [|fuel IH]; intros b r; cbn [reconnectLoop];
    unfold sleep; never_auto.
Qed.

Lemma never_connectForwardLoop fuel : forall b r,
  never qemu_accept (connectForwardLoop fuel b r).
Proof.
  induction fuel as [|fuel IH]; intros b r; cbn [connectForwardLoop];
    unfold sleep; never_auto; apply never_reconnectLoop.
Qed.

Lemma never_acceptConnection fuel b path :
  never qemu_accept (acceptConnection fuel b path).
Proof.
  unfold acceptConnection, connectForward.
  pose proof (never_connectForwardLoop fuel b 1). never_auto.
Qed.

Lemma never_scan lines host hashhost :
  never qemu_accept (scan lines host hashhost).
Proof.
  induction lines as [|[[hosts key]|] lines IH]; cbn [scan]; never_auto.
Qed.

Lemma never_CreateBastion _url passPhrase identity initial :
  never qemu_accept
    (CreateBastion HashHostname known_hosts server_key _url passPhrase
       identity initial).
Proof.
  unfold CreateBastion, HostKey, reconnect, NewClientConn.
  destruct (ParseBool _) as [sec perr].
  destruct (Password _) as [pw found].
  pose proof never_scan.
  never_auto.
Qed.

Lemma never_CreateSSHForward socket dest identity :
  never qemu_accept
    (CreateSSHForward HashHostname known_hosts server_key socket dest
       identity).
Proof.
  unfold CreateSSHForward, setupProxy, listenUnix, initialConnection.
  pose proof never_initialConnection_loop.
  pose proof never_CreateBastion.
  never_auto.
Qed.

Lemma never_forwardLoop fuel forward :
  never qemu_accept (forwardLoop fuel forward).
Proof.
  induction fuel as [|fuel IH]; cbn [forwardLoop];
    unfold AcceptAndTunnel; pose proof never_acceptConnection; never_auto.
Qed.

Lemma never_debugLoop fuel : never qemu_accept (debugLoop fuel).
Proof. induction fuel as [|fuel IH]; cbn [debugLoop]; never_auto. Qed.

Lemma never_vpnloop fuel : never qemu_accept (vpnloop fuel).
Proof. induction fuel as [|fuel IH]; cbn [vpnloop]; never_auto. Qed.

Lemma never_listenEndpoints p eps :
  (forall ln addr, p (Listen ln addr) = false) ->
  (forall ln, p (Go (CloseOnDone ln)) = false) ->
  (forall ln, p (Go (ServeHTTP ln)) = false) ->
  forall i, never p (listenEndpoints i eps).
Proof.
  intros H1 H2 H3.
  induction eps as [|ep eps IH]; intros i; cbn [listenEndpoints].
  - never_auto.
  - apply never_bind; [by apply never_ask|]. intros []; cbn [negb].
    + apply never_bind; [by apply never_tell|]. intros _.
      apply never_bind; [by apply never_tell|]. intros _. apply IH.
    + apply never_ret.
Qed.

Lemma never_run fl eps : never qemu_accept (run fl eps).
Proof.
  unfold run.
  assert (forall i, never qemu_accept (listenEndpoints i eps))
    by (apply never_listenEndpoints; reflexivity).
  never_auto.
Qed.

Lemma never_exec fuel fl t :
  t <> QemuAccept ->
  never qemu_accept (exec HashHostname known_hosts server_key fuel fl t).
Proof.
  intros Ht.
  pose proof never_run. pose proof never_debugLoop. pose proof never_vpnloop.
  pose proof never_CreateSSHForward. pose proof never_forwardLoop.
  destruct t; cbn [exec]; try done; never_auto.
Qed.

Lemma run_spawns_qemu_accept fl eps e err e' :
  run fl eps e = (err, e') ->
  exists t,
    log e' = log e ++ t /\
    (count_calls go_qemu_accept t <= 1)%nat /\
    (nonempty (qemuSocket fl) = true -> err = None ->
     count_calls go_qemu_accept t = 1%nat) /\
    (nonempty (qemuSocket fl) = false ->
     count_calls go_qemu_accept t = 0%nat).
Proof.
  unfold run. unfold bind at 1. unfold ask at 1.
  destruct (oracle e (asked e)); cbn [negb].
  2: { intros [= <- <-]. eexists. split; [reflexivity|].
       cbn. repeat split; (lia || done). }
  unfold bind at 1.
  match goal with
  | |- context [listenEndpoints 0 eps ?e1] =>
      destruct (never_listenEndpoints go_qemu_accept eps
                  ltac:(reflexivity) ltac:(reflexivity) ltac:(reflexivity)
                  0%nat e1) as (t1 & H1 & C1);
      destruct (listenEndpoints 0 eps e1) as [lerr e2]
  end.
  cbn [snd log] in H1.
  destruct lerr as [msg|].
  { intros [= <- <-]. exists ((VNNew, true) :: t1).
    rewrite H1, <- app_assoc. split; [reflexivity|].
    change ((VNNew, true) :: t1) with ([(VNNew, true)] ++ t1).
    rewrite count_calls_app, C1. cbn. repeat split; (lia || done). }
  unfold tell. unfold bind, ask, note, ret.
  destruct (debug fl), (nonempty (vpnkitSocket fl)),
    (nonempty (qemuSocket fl)), (nonempty (forwardSocket fl));
    cbn [negb oracle asked log];
    repeat match goal with
           | |- context [oracle e2 ?n] =>
               destruct (oracle e2 n); cbn [negb oracle asked log]
           end;
    intros [= <- <-]; cbn [log]; rewrite H1, <- ?app_assoc;
    (eexists; split; [reflexivity|]);
    rewrite ?count_calls_app, ?C1; cbn; repeat split; (lia || done).
Qed.

(** C9: [run] starts the goroutine that accepts on the qemu listener at
    most once, and once when --listen-qemu is given and [run] succeeds;
    that goroutine calls [Accept] on the listener exactly once and, when a
    connection is accepted, hands it to [AcceptQemu] and does nothing
    else; no other goroutine of the process ever accepts on that
    listener. *)
Theorem qemu_listener_accepts_once
    (fl : Flags) (fuel : nat) (o : nat -> bool) :
  let started := trace (run fl (endpoints fl)) o in
  let exec := exec HashHostname known_hosts server_key fuel fl in
  (count_calls go_qemu_accept started <= 1)%nat /\
  (nonempty (qemuSocket fl) = true ->
   result (run fl (endpoints fl)) o = None ->
   count_calls go_qemu_accept started = 1%nat) /\
  (forall o',
     trace (exec QemuAccept) o' =
       (Accept QemuLn, o' 0%nat)
       :: (if o' 0%nat then [(VNAcceptQemu, o' 1%nat)] else []) /\
     count_calls qemu_accept (trace (exec QemuAccept) o') = 1%nat) /\
  (forall t o',
     t <> QemuAccept ->
     count_calls qemu_accept (trace (exec t) o') = 0%nat).
Proof.
  cbv zeta. unfold trace, result.
  destruct (run fl (endpoints fl) (start o)) as [err e'] eqn:Hrun.
  destruct (run_spawns_qemu_accept _ _ _ _ _ Hrun) as (t & Hlog & Hle & H1 & _).
  cbn [snd fst]. rewrite Hlog. cbn [start log app].
  split; [exact Hle|]. split; [exact H1|]. split.
  - intros o'. cbn [gvproxy.exec]. unfold bind, ask, ret, start.
    cbn [oracle asked log]. destruct (o' 0%nat); cbn; by destruct (o' 1%nat).
  - intros t' o' Hne.
    destruct (never_exec fuel fl t' Hne (start o')) as (t2 & H2 & C2).
    rewrite H2. exact C2.
Qed.

End QemuAccept.

Lemma acceptConnection_channel_failure_witness :
  let o := script [true; true; false; false; false; true; false] false in
  result (virtualnetwork.acceptConnection 4 guest_bastion "/tmp/podman.sock")
    o = Done None /\
  exists rest,
    trace (virtualnetwork.acceptConnection 4 guest_bastion "/tmp/podman.sock")
      o =
      (Accept ForwardLn, true) :: (IsCloseWriteStream, true)
      :: dial guest_bastion false :: rest /\
    (false = false -> exists rest', rest = probe false :: rest').
Proof.
  intros o.
  pose proof (acceptConnection_channel_failure guest_bastion 4
                "/tmp/podman.sock" o ltac:(lia) eq_refl) as [Hres Hlog].
  split; [exact Hres|]. exact (proj1 (Hlog eq_refl)).
Defined.

(** ** The code on concrete inputs *)

Example backOff_sequence :
  map capped_backoff (seq 0 6) =
  [100 * Millisecond; 200 * Millisecond; 400 * Millisecond;
   800 * Millisecond; Second; Second] /\
  virtualnetwork.backOff 0 = 5 * Millisecond /\
  virtualnetwork.backOff (800 * Millisecond) = Second.
Proof. repeat split. Qed.

(** sshd answers the third attempt. *)
Example initialConnection_third_attempt :
  trace virtualnetwork.initialConnection
    (script [false; false; true; false; false; true; false; true] true) =
  [(CtxDone, false); (Connect, false); (LogDebug "Waiting for sshd", true);
   (Sleep (100 * Millisecond), true);
   (CtxDone, false); (Connect, false); (LogDebug "Waiting for sshd", true);
   (Sleep (200 * Millisecond), true);
   (CtxDone, false); (Connect, true)].
Proof. reflexivity. Qed.

(** The bastion is gone for good: three reconnects, then the accepted
    connection is dropped; the accept loop of the forwarder goes on with
    the next connection, whose channel opens. *)
Example forwardLoop_survives_lost_bastion :
  let forward := virtualnetwork.Build_SSHForward true guest_bastion
                   "/tmp/podman.sock" in
  trace (gvproxy.forwardLoop 4 forward)
    (script [false; true; true; false; false; false; true; false; true;
             false; false; true; true; true; true] true) =
  [(CtxDone, false); (Accept ForwardLn, true); (IsCloseWriteStream, true);
   dial guest_bastion false; probe false;
   reconnect false; pause true; reconnect false; pause true; reconnect false;
   (ConClose, true); (LogError (reconnect_error guest_bastion), true);
   (CtxDone, false); (Accept ForwardLn, true); (IsCloseWriteStream, true);
   dial guest_bastion true; (GoForward true, true); (GoForward false, true);
   (CtxDone, true)].
Proof. reflexivity. Qed.

(** A sleep cut short by the context: one more dial, then the error. *)
Example connectForward_cancelled :
  trace (virtualnetwork.connectForward 4 guest_bastion)
    (script [false; true; false; false] true) =
  [dial guest_bastion false; probe true; pause false;
   dial guest_bastion false] /\
  result (virtualnetwork.connectForward 4 guest_bastion)
    (script [false; true; false; false] true) =
  Done (None, Some (dial_error guest_bastion)).
Proof. split; reflexivity. Qed.

(** A pump whose destination fails in the middle of the second chunk. *)
Example forward_write_error :
  virtualnetwork.forward
    [([Byte.x61; Byte.x62], io.NoErr); ([Byte.x63; Byte.x64], io.NoErr);
     ([Byte.x65], io.EOF)]
    [(2, false); (1, true)] =
  [io.Wrote [Byte.x61; Byte.x62]; io.Wrote [Byte.x63]; io.CloseWrite;
   io.SrcClose].
Proof. reflexivity. Qed.

Example forward_to_end_of_stream :
  virtualnetwork.forward
    [([Byte.x61; Byte.x62], io.NoErr); ([], io.NoErr); ([Byte.x63], io.EOF);
     ([Byte.x64], io.NoErr)] [] =
  [io.Wrote [Byte.x61; Byte.x62]; io.Wrote [Byte.x63]; io.CloseWrite;
   io.SrcClose].
Proof. reflexivity. Qed.

(** known_hosts names the guest in plain form; the key is pinned and a
    server with another key is refused. *)
Example CreateBastion_pinned_key_refuses :
  let known := Some [None; Some (["example.org"], "other key");
                     Some (["192.168.127.2"], "host key")] in
  let run key :=
    sshclient.CreateBastion (hashed "ZnJlc2ggc2FsdA==") known key secure_url ""
      "/home/core/.ssh/id_ed25519" (Some StackConn) in
  snd (result (run "rogue key") (script [] true))
    = Some "ssh: handshake failed" /\
  snd (result (run "host key") (script [] true)) = None /\
  trace (run "rogue key") (script [] true) =
    [(ReadIdentity "/home/core/.ssh/id_ed25519", true);
     (LogError "Failed to parse known_hosts", true);
     (VerifyHostKey, false)].
Proof. repeat split. Qed.

(** known_hosts names the guest in hashed form only, under the salt of
    the tool that wrote the line; [HostKey] hashes the host under a salt
    of its own and finds no key, so a server with any key is accepted. *)
Example CreateBastion_hashed_line_not_matched :
  let known := Some [Some ([hashed "b2xkIHNhbHQ=" "192.168.127.2"],
                           "host key")] in
  let run key :=
    sshclient.CreateBastion (hashed "ZnJlc2ggc2FsdA==") known key secure_url ""
      "/home/core/.ssh/id_ed25519" (Some StackConn) in
  result (sshclient.HostKey (hashed "ZnJlc2ggc2FsdA==") known "192.168.127.2")
    (script [] true) = None /\
  snd (result (run "rogue key") (script [] true)) = None /\
  sshclient.Client (fst (result (run "rogue key") (script [] true)))
    = Some Channel.
Proof. repeat split. Qed.

(** --ssh-port out of range, and both of --listen-qemu and
    --listen-vpnkit. *)
Example main_start_up_errors :
  let ssh_port p := {|
    gvproxy.debug := false; gvproxy.mtu := 1500; gvproxy.endpoints := [];
    gvproxy.vpnkitSocket := ""; gvproxy.qemuSocket := "";
    gvproxy.forwardSocket := ""; gvproxy.forwardDest := "";
    gvproxy.forwardUser := ""; gvproxy.forwardIdentify := "";
    gvproxy.sshPort := p; gvproxy.pidFile := "" |} in
  result (gvproxy.main parse_unix (ssh_port 1023)) (script [] true)
    = gvproxy.Exit 1 /\
  result (gvproxy.main parse_unix (ssh_port 65536)) (script [] true)
    = gvproxy.Exit 1 /\
  trace (gvproxy.main parse_unix (ssh_port 1023)) (script [] true) =
    [(LogError "ssh-port value must be between 1024 and 65535", true);
     (OsExit 1, true)].
Proof. repeat split. Qed.

(** * Further properties of the code *)

(** ** pkg/virtualnetwork: backOff *)

(** X1: [backOff] never returns more than a second.  For a delay from 0
    up to 2^62 ns (excluded) what it returns is positive: 5 ms for 0, else
    the double capped at a second.  From 2^62 ns on the doubling overflows
    [int64] and the delay returned is negative.  A negative delay is
    doubled as well: down to -2^62 ns it stays negative, and below that it
    wraps round to a delay that is not negative. *)
Theorem backOff_bounded (d : Duration) :
  - 2 ^ 63 <= d < 2 ^ 63 ->
  virtualnetwork.backOff d <= Second /\
  (d = 0 -> virtualnetwork.backOff d = 5 * Millisecond) /\
  (0 < d < 2 ^ 62 -> virtualnetwork.backOff d = Z.min (2 * d) Second) /\
  (0 <= d < 2 ^ 62 -> 0 < virtualnetwork.backOff d) /\
  (2 ^ 62 <= d ->
   virtualnetwork.backOff d = 2 * d - 2 ^ 64 /\ virtualnetwork.backOff d < 0) /\
  (- 2 ^ 62 <= d < 0 ->
   virtualnetwork.backOff d = 2 * d /\ virtualnetwork.backOff d < 0) /\
  (d < - 2 ^ 62 ->
   virtualnetwork.backOff d = Z.min (2 * d + 2 ^ 64) Second /\
   0 <= virtualnetwork.backOff d).
Proof.
  intros Hd. unfold virtualnetwork.backOff.
  destruct (Z.eqb_spec d 0) as [->|Hnz].
  { change (5 * Millisecond >? Second) with false. cbv beta iota.
    unfold Second, Millisecond. repeat split; try lia. }
  split; [|split; [|split; [|split; [|split; [|split]]]]].
  - destruct (Z.gtb_spec (wrap64 (d * 2)) Second); lia.
  - intros ->. done.
  - intros Hs. rewrite wrap64_small by lia.
    destruct (Z.gtb_spec (d * 2) Second); unfold Second, Millisecond in *; lia.
  - intros Hs. rewrite wrap64_small by lia.
    destruct (Z.gtb_spec (d * 2) Second); unfold Second, Millisecond in *; lia.
  - intros Hl.
    assert (Hw : wrap64 (d * 2) = d * 2 - 2 ^ 64).
    { unfold wrap64.
      replace (d * 2 + 2 ^ 63) with (d * 2 - 2 ^ 63 + 1 * 2 ^ 64) by lia.
      rewrite Z.mod_add by lia. rewrite Z.mod_small; lia. }
    rewrite Hw.
    destruct (Z.gtb_spec (d * 2 - 2 ^ 64) Second);
      unfold Second, Millisecond in *; lia.
  - intros Hn. rewrite wrap64_small by lia.
    destruct (Z.gtb_spec (d * 2) Second); unfold Second, Millisecond in *; lia.
  - intros Hn.
    assert (Hw : wrap64 (d * 2) = d * 2 + 2 ^ 64).
    { unfold wrap64.
      replace (d * 2 + 2 ^ 63) with (d * 2 + 2 ^ 63 + 2 ^ 64 + (-1) * 2 ^ 64)
        by lia.
      rewrite Z.mod_add by lia. rewrite Z.mod_small; lia. }
    rewrite Hw.
    destruct (Z.gtb_spec (d * 2 + 2 ^ 64) Second);
      unfold Second, Millisecond in *; lia.
Qed.

Lemma backOff_bounded_witness :
  virtualnetwork.backOff (2 ^ 62) < 0 /\
  virtualnetwork.backOff (-1) = -2 /\
  virtualnetwork.backOff 0 = 5 * Millisecond.
Proof.
  split; [|split].
  - exact (proj2 (proj1 (proj2 (proj2 (proj2 (proj2
             (backOff_bounded (2 ^ 62) ltac:(lia)))))) ltac:(lia))).
  - exact (proj1 (proj1 (proj2 (proj2 (proj2 (proj2 (proj2
             (backOff_bounded (-1) ltac:(lia))))))) ltac:(lia))).
  - exact (proj1 (proj2 (backOff_bounded 0 ltac:(lia))) eq_refl).
Defined.

(** ** pkg/virtualnetwork: what initialConnection returns *)

Lemma count_calls_In p en t :
  In en t -> p (fst en) = true -> (0 < count_calls p t)%nat.
Proof.
  intros Hin Hp. unfold count_calls, count_entries.
  induction t as [|x t IH]; [destruct Hin|].
  cbn. destruct Hin as [->|Hin].
  - rewrite Hp. cbn. lia.
  - destruct (p (fst x)); cbn; [lia|auto].
Qed.

Lemma initialConnection_loop_cancelled n b c err e :
  oracle e (asked e) = true ->
  virtualnetwork.initialConnection_loop (S n) b c err e =
    ((c, err), Env (oracle e) (S (asked e)) (log e ++ [(CtxDone, true)])).
Proof.
  intros H. cbn [virtualnetwork.initialConnection_loop].
  unfold bind, ask. rewrite H. reflexivity.
Qed.

Lemma initialConnection_loop_result n : forall b c err e,
  exists t,
    log (snd (virtualnetwork.initialConnection_loop n b c err e))
      = log e ++ t /\
    let r := fst (virtualnetwork.initialConnection_loop n b c err e) in
    (r = (Some StackConn, None) /\ In (Connect, true) t) \/
    (~ In (Connect, true) t /\
     ((r = (c, err) /\ count_calls is_connect t = 0%nat) \/
      (r = (None, Some "connect") /\ In (Connect, false) t))).
Proof.
  induction n as [|n IH]; intros b c err e.
  - exists []. split; [by rewrite app_nil_r|]. right.
    split; [intros []|]. left. split; reflexivity.
  - cbn [virtualnetwork.initialConnection_loop].
    unfold virtualnetwork.sleep, tell. unfold bind, ask, note, ret.
    simpl.
    destruct (oracle e (asked e)); simpl.
    { exists [(CtxDone, true)]. split; [reflexivity|]. right. split.
      - intros [H|[]]; discriminate H.
      - left. split; reflexivity. }
    destruct (oracle e (S (asked e))); simpl.
    { exists [(CtxDone, false); (Connect, true)].
      split; [rewrite <- ?app_assoc; reflexivity|].
      left. split; [reflexivity|]. right; left; reflexivity. }
    match goal with
    | |- context [virtualnetwork.initialConnection_loop n ?b' ?c' ?err' ?e'] =>
        destruct (IH b' c' err' e') as (t & Ht & Hr);
        destruct (virtualnetwork.initialConnection_loop n b' c' err' e')
          as [r e2]
    end.
    cbn [fst snd log] in *.
    exists ((CtxDone, false) :: (Connect, false)
            :: (LogDebug "Waiting for sshd", true)
            :: (Sleep b, oracle e (S (S (asked e)))) :: t).
    split; [rewrite Ht; by rewrite <- !app_assoc|].
    destruct Hr as [[-> Hin]|[Hno Hr]].
    + left. split; [reflexivity|]. do 4 right. exact Hin.
    + right. split.
      { intros [H|[H|[H|[H|H]]]]; try discriminate H. by apply Hno. }
      right. split; [|right; left; reflexivity].
      destruct Hr as [[-> _]|[-> _]]; reflexivity.
Qed.

(** X2: [initialConnection] returns a connection exactly when an attempt
    succeeded, and the error of the last attempt exactly when attempts
    were made and all failed; when the context is done before the first
    attempt it returns neither a connection nor an error. *)
Theorem initialConnection_result (o : nat -> bool) :
  let r := result virtualnetwork.initialConnection o in
  let t := trace virtualnetwork.initialConnection o in
  (r = (Some StackConn, None) <-> In (Connect, true) t) /\
  (r = (None, Some "connect") <->
   In (Connect, false) t /\ ~ In (Connect, true) t) /\
  (r = (None, None) <-> count_calls is_connect t = 0%nat) /\
  (o 0%nat = true -> r = (None, None) /\ t = [(CtxDone, true)]).
Proof.
  cbv zeta. unfold result, trace, virtualnetwork.initialConnection.
  split; [|split; [|split]].
  4: { intros H0.
       rewrite initialConnection_loop_cancelled by exact H0.
       split; reflexivity. }
  all: destruct (initialConnection_loop_result 60 (100 * Millisecond) None
                   None (start o)) as (t & Ht & Hr);
    rewrite Ht; cbn [start log app]; cbv zeta in Hr;
    destruct Hr as [[-> Hin]|[Hno [[-> Hc]|[-> Hin]]]].
  all: split; intros H; try discriminate H; try reflexivity;
    try assumption; try (split; assumption);
    try (lazymatch type of H with _ /\ _ => destruct H as [H1 H2] end);
    try contradiction;
    exfalso;
    match goal with
    | Hi : In _ ?l, Hc : count_calls is_connect ?l = 0%nat |- _ =>
        apply (count_calls_In is_connect) in Hi; [lia|reflexivity]
    end.
Qed.

Lemma initialConnection_result_witness :
  result virtualnetwork.initialConnection (script [true] false)
  = (None, None).
Proof.
  exact (proj1 (proj2 (proj2 (proj2
    (initialConnection_result (script [true] false)))) eq_refl)).
Defined.

Lemma initialConnection_loop_exhausts n : forall b c err e,
  (forall i, (i < n)%nat ->
     oracle e (asked e + 3 * i)%nat = false /\
     oracle e (asked e + 3 * i + 1)%nat = false) ->
  exists t,
    log (snd (virtualnetwork.initialConnection_loop n b c err e))
      = log e ++ t /\
    fst (virtualnetwork.initialConnection_loop n b c err e) =
      (if Nat.eqb n 0 then (c, err) else (None, Some "connect")) /\
    count_entries failed_connect t = n /\
    count_calls is_connect t = n.
Proof.
  induction n as [|n IH]; intros b c err e Ho.
  - exists []. repeat split. simpl. by rewrite app_nil_r.
  - cbn [virtualnetwork.initialConnection_loop].
    unfold virtualnetwork.sleep, tell. unfold bind, ask, note, ret.
    simpl.
    destruct (Ho 0%nat ltac:(lia)) as [H0 H1].
    replace (asked e + 3 * 0)%nat with (asked e) in H0 by lia.
    replace (asked e + 3 * 0 + 1)%nat with (S (asked e)) in H1 by lia.
    rewrite H0. simpl. rewrite H1. simpl.
    match goal with
    | |- context [virtualnetwork.initialConnection_loop n ?b' ?c' ?err' ?e'] =>
        destruct (IH b' c' err' e') as (t & Ht & Hr & Hf & Hc);
        [|destruct (virtualnetwork.initialConnection_loop n b' c' err' e')
            as [r e2]]
    end.
    { intros i Hi. cbn [oracle asked].
      destruct (Ho (S i) ltac:(lia)) as [Ha Hb].
      replace (S (S (S (asked e))) + 3 * i)%nat
        with (asked e + 3 * S i)%nat by lia.
      auto. }
    cbn [fst snd log] in *.
    exists ((CtxDone, false) :: (Connect, false)
            :: (LogDebug "Waiting for sshd", true)
            :: (Sleep b, oracle e (S (S (asked e)))) :: t).
    split; [rewrite Ht; by rewrite <- !app_assoc|].
    split; [rewrite Hr; by destruct n|].
    unfold count_calls, count_entries in *. simpl. split; by f_equal.
Qed.

(** X3: when no attempt succeeds and the context is never seen done,
    [initialConnection] makes its 60 attempts, has slept 57.5 s in all,
    and returns the error of the last attempt. *)
Theorem initialConnection_exhausted (o : nat -> bool) :
  (forall i, (i < 60)%nat ->
     o (3 * i)%nat = false /\ o (3 * i + 1)%nat = false) ->
  result virtualnetwork.initialConnection o = (None, Some "connect") /\
  count_calls is_connect (trace virtualnetwork.initialConnection o) = 60%nat /\
  slept (trace virtualnetwork.initialConnection o) = 57500 * Millisecond.
Proof.
  intros Ho. unfold result, trace, virtualnetwork.initialConnection.
  destruct (initialConnection_loop_exhausts 60 (100 * Millisecond) None None
              (start o) Ho) as (t & Ht & Hr & Hf & Hc).
  destruct (initialConnection_loop_shape 60 (100 * Millisecond) None None
              (start o)) as (t' & Ht' & Hs).
  rewrite Ht in Ht'. apply app_inv_head in Ht'. subst t'.
  change (100 * Millisecond) with (capped_backoff 0) in Hs.
  apply ic_shape_sleeps in Hs. rewrite Hf in Hs.
  rewrite Hr, Ht. cbn [start log app]. split; [reflexivity|].
  split; [exact Hc|]. unfold slept. rewrite Hs. reflexivity.
Qed.

Lemma initialConnection_exhausted_witness :
  result virtualnetwork.initialConnection (script [] false)
  = (None, Some "connect").
Proof.
  apply (proj1 (initialConnection_exhausted (script [] false)
                  ltac:(intros i _; split; unfold script;
                        [destruct (3 * i)%nat as [|[|?]]
                        |destruct (3 * i + 1)%nat as [|[|?]]];
                        reflexivity))).
Defined.

(** ** pkg/virtualnetwork: the cost and the result of connectForward *)

Lemma count_calls_cons p en t :
  count_calls p (en :: t) =
  ((if p (fst en) then 1 else 0) + count_calls p t)%nat.
Proof.
  unfold count_calls, count_entries. cbn. by destruct (p (fst en)).
Qed.

Lemma sleeps_app t1 t2 : sleeps (t1 ++ t2) = sleeps t1 ++ sleeps t2.
Proof. unfold sleeps. apply omap_app. Qed.

Lemma reconnect_runs_calls run ok :
  In (run, ok) reconnect_runs ->
  count_calls is_dial run = 0%nat /\
  count_calls is_probe run = 0%nat /\
  count_calls is_go_forward run = 0%nat /\
  count_calls is_close run = 0%nat /\
  (1 <= count_calls is_reconnect run <= 3)%nat /\
  (length (sleeps run) <= 2)%nat /\
  Forall (fun d => d = 200 * Millisecond) (sleeps run).
Proof.
  unfold reconnect_runs. cbn [In].
  intros [H|[H|[H|[H|[H|[H|[]]]]]]]; injection H as <- <-;
    cbn; repeat split; try lia; repeat constructor.
Qed.

Lemma passes_left_next r s :
  r <= 2 -> (passes_left (next_retries r s) + 1 <= passes_left r)%nat.
Proof.
  intros Hr. unfold passes_left, next_retries.
  destruct s; repeat case_match; lia.
Qed.

Lemma passes_left_pos r : (1 <= passes_left r)%nat.
Proof. unfold passes_left. case_match; lia. Qed.

Lemma cf_shape_bounds b r t res :
  cf_shape b r t res ->
  (count_calls is_dial t <= passes_left r)%nat /\
  (count_calls is_probe t + 1 <= passes_left r)%nat /\
  (count_calls is_reconnect t + 3 <= 3 * passes_left r)%nat /\
  (length (sleeps t) + 3 <= 3 * passes_left r)%nat /\
  Forall (fun d => d = 200 * Millisecond) (sleeps t) /\
  count_calls is_go_forward t = 0%nat /\
  count_calls is_close t = 0%nat.
Proof.
  induction 1 as [r|r Hr|r s t res Hr Hsh IH|r run s t res Hr Hin Hsh IH
                  |r run Hr Hin].
  - pose proof (passes_left_pos r). cbn. repeat split; try lia. constructor.
  - pose proof (passes_left_pos r). cbn. repeat split; try lia. constructor.
  - pose proof (passes_left_next r s Hr).
    destruct IH as (I1 & I2 & I3 & I4 & I5 & I6 & I7).
    rewrite !count_calls_cons. cbn [fst dial probe pause is_dial is_probe
      is_reconnect is_go_forward is_close].
    change (sleeps (dial b false :: probe true :: pause s :: t))
      with (200 * Millisecond :: sleeps t).
    cbn [length]. repeat split; try lia. by constructor.
  - pose proof (passes_left_next r s Hr).
    destruct IH as (I1 & I2 & I3 & I4 & I5 & I6 & I7).
    destruct (reconnect_runs_calls _ _ Hin) as (R1 & R2 & R3 & R4 & R5 & R6 & R7).
    rewrite !count_calls_cons, !count_calls_app, !count_calls_cons.
    cbn [fst dial probe pause is_dial is_probe is_reconnect is_go_forward
         is_close].
    change (sleeps (dial b false :: probe false :: run ++ pause s :: t))
      with (sleeps (run ++ pause s :: t)).
    rewrite sleeps_app.
    change (sleeps (pause s :: t)) with (200 * Millisecond :: sleeps t).
    rewrite length_app. cbn [length].
    repeat split; try lia.
    apply Forall_app. split; [exact R7|by constructor].
  - assert (2 <= passes_left r)%nat
      by (unfold passes_left; case_match; lia).
    destruct (reconnect_runs_calls _ _ Hin) as (R1 & R2 & R3 & R4 & R5 & R6 & R7).
    rewrite !count_calls_cons. cbn [fst dial probe is_dial is_probe
      is_reconnect is_go_forward is_close].
    change (sleeps (dial b false :: probe false :: run)) with (sleeps run).
    repeat split; try lia. exact R7.
Qed.

Lemma slept_bound l n :
  Forall (fun d => d = 200 * Millisecond) l -> (length l <= n)%nat ->
  fold_right Z.add 0 l <= Z.of_nat n * (200 * Millisecond).
Proof.
  intros Hl. revert n. induction Hl as [|d l -> _ IH]; intros n Hn; cbn.
  - unfold Millisecond. lia.
  - cbn [length] in Hn. destruct n as [|n]; [lia|].
    specialize (IH n ltac:(lia)). unfold Millisecond in *. lia.
Qed.

(** X4: [connectForward] returns, and whatever the bastion does it has
    dialled the channel at most 3 times, probed the bastion at most twice,
    tried at most 6 reconnects and slept at most 6 times 200 ms. *)
Theorem connectForward_bounded
    (fuel : nat) (b : sshclient.Bastion) (o : nat -> bool) :
  (4 <= fuel)%nat ->
  let t := trace (virtualnetwork.connectForward fuel b) o in
  (exists v, result (virtualnetwork.connectForward fuel b) o = Done v) /\
  (count_calls is_dial t <= 3)%nat /\
  (count_calls is_probe t <= 2)%nat /\
  (count_calls is_reconnect t <= 6)%nat /\
  Forall (fun d => d = 200 * Millisecond) (sleeps t) /\
  slept t <= 1200 * Millisecond.
Proof.
  intros Hf. cbv zeta. unfold result, trace, virtualnetwork.connectForward.
  destruct (connectForwardLoop_shape b fuel 1 (start o))
    as (t & res & e' & Heq & Hlog & Hsh); [lia..|].
  rewrite Heq. cbn [fst snd]. rewrite Hlog. cbn [start log app].
  destruct (cf_shape_bounds _ _ _ _ Hsh) as (B1 & B2 & B3 & B4 & B5 & _).
  change (passes_left 1) with 3%nat in *.
  split; [eauto|].
  split; [lia|]. split; [lia|]. split; [lia|]. split; [exact B5|].
  unfold slept.
  etrans; [apply (slept_bound _ 6 B5); unfold Duration in *; lia|].
  unfold Millisecond. lia.
Qed.

Lemma connectForward_bounded_witness :
  (count_calls is_dial
     (trace (virtualnetwork.connectForward 4 guest_bastion)
        (script [] false)) <= 3)%nat.
Proof.
  apply (proj1 (proj2 (connectForward_bounded 4 guest_bastion
                         (script [] false) ltac:(lia)))).
Defined.

Lemma cf_shape_result b r t res :
  cf_shape b r t res ->
  match res with
  | None => exists pre, t = pre ++ [dial b true] /\ ~ In (dial b true) pre
  | Some m =>
      (m = dial_error b \/ m = reconnect_error b) /\ ~ In (dial b true) t
  end.
Proof.
  assert (Hrun : forall run ok, In (run, ok) reconnect_runs ->
                                ~ In (dial b true) run).
  { intros run ok Hin Hd.
    apply (count_calls_In is_dial) in Hd; [|reflexivity].
    destruct (reconnect_runs_calls _ _ Hin) as (R1 & _). lia. }
  induction 1 as [r|r Hr|r s t res Hr Hsh IH|r run s t res Hr Hin Hsh IH
                  |r run Hr Hin].
  - exists []. split; [reflexivity|]. intros [].
  - split; [by left|]. intros [H|[]]. discriminate H.
  - destruct res as [m|].
    + destruct IH as [Hm Hno]. split; [exact Hm|].
      intros [H|[H|[H|H]]]; try discriminate H. by apply Hno.
    + destruct IH as (pre & -> & Hno).
      exists (dial b false :: probe true :: pause s :: pre).
      split; [reflexivity|].
      intros [H|[H|[H|H]]]; try discriminate H. by apply Hno.
  - destruct res as [m|].
    + destruct IH as [Hm Hno]. split; [exact Hm|].
      intros [H|[H|H]]; try discriminate H.
      apply in_app_or in H as [H|[H|H]]; try discriminate H;
        [by eapply Hrun|by apply Hno].
    + destruct IH as (pre & -> & Hno).
      exists (dial b false :: probe false :: run ++ pause s :: pre).
      split; [cbn; by rewrite <- app_assoc|].
      intros [H|[H|H]]; try discriminate H.
      apply in_app_or in H as [H|[H|H]]; try discriminate H;
        [by eapply Hrun|by apply Hno].
  - split; [by right|].
    intros [H|[H|H]]; try discriminate H. by eapply Hrun.
Qed.

(** X5: [connectForward] returns the channel exactly when its last dial
    succeeded, and no dial before it did; otherwise it returns one of its
    two errors and no dial has succeeded. *)
Theorem connectForward_result
    (fuel : nat) (b : sshclient.Bastion) (o : nat -> bool) :
  (4 <= fuel)%nat ->
  let t := trace (virtualnetwork.connectForward fuel b) o in
  let r := result (virtualnetwork.connectForward fuel b) o in
  (r = Done (Some Channel, None) /\
   exists pre, t = pre ++ [dial b true] /\ ~ In (dial b true) pre) \/
  (exists msg, r = Done (None, Some msg) /\
     (msg = dial_error b \/ msg = reconnect_error b) /\
     ~ In (dial b true) t).
Proof.
  intros Hf. cbv zeta. unfold result, trace, virtualnetwork.connectForward.
  destruct (connectForwardLoop_shape b fuel 1 (start o))
    as (t & res & e' & Heq & Hlog & Hsh); [lia..|].
  rewrite Heq. cbn [fst snd]. rewrite Hlog. cbn [start log app].
  pose proof (cf_shape_result _ _ _ _ Hsh) as Hres.
  destruct res as [m|]; [right|left].
  - exists m. by destruct Hres.
  - split; [reflexivity|exact Hres].
Qed.

Lemma connectForward_result_witness :
  result (virtualnetwork.connectForward 4 guest_bastion) (script [] true)
  = Done (Some Channel, None).
Proof.
  destruct (connectForward_result 4 guest_bastion (script [] true)
              ltac:(lia)) as [[H _]|(msg & H & _)].
  - exact H.
  - discriminate H.
Defined.

(** ** pkg/virtualnetwork: the other ways out of acceptConnection *)

(** X6: a failed accept is returned as an error and nothing else happens;
    a connection that cannot be half-closed is closed and dropped, and the
    function returns nil: the error it wraps there is the nil error of the
    accept. *)
Theorem acceptConnection_early_returns
    (fuel : nat) (b : sshclient.Bastion) (path : string) (o : nat -> bool) :
  (o 0%nat = false ->
   result (virtualnetwork.acceptConnection fuel b path) o =
     Done (Some (("Error accepting on socket: " +:+ path) +:+ ": accept")) /\
   trace (virtualnetwork.acceptConnection fuel b path) o =
     [(Accept ForwardLn, false)]) /\
  (o 0%nat = true -> o 1%nat = false ->
   result (virtualnetwork.acceptConnection fuel b path) o = Done None /\
   trace (virtualnetwork.acceptConnection fuel b path) o =
     [(Accept ForwardLn, true); (IsCloseWriteStream, false);
      (ConClose, true)]).
Proof.
  unfold result, trace, virtualnetwork.acceptConnection, start.
  unfold tell. unfold bind, ask, note, ret. cbn [oracle asked log].
  split.
  - intros ->. split; reflexivity.
  - intros -> H1. cbn [negb oracle asked log]. rewrite H1.
    split; reflexivity.
Qed.

Lemma acceptConnection_early_returns_witness :
  result (virtualnetwork.acceptConnection 4 guest_bastion "/tmp/podman.sock")
    (script [true; false] true) = Done None.
Proof.
  exact (proj1 (proj2 (acceptConnection_early_returns 4 guest_bastion
                         "/tmp/podman.sock" (script [true; false] true))
                  eq_refl eq_refl)).
Defined.

(** X7: for an accepted connection that can be half-closed, the two pumps
    are started exactly when a dial succeeded, as the last two things the
    function does and without closing the connection; when no dial
    succeeded no pump is started and the connection is closed once. *)
Theorem acceptConnection_pumps
    (fuel : nat) (b : sshclient.Bastion) (path : string) (o : nat -> bool) :
  (4 <= fuel)%nat -> o 0%nat = true -> o 1%nat = true ->
  let t := trace (virtualnetwork.acceptConnection fuel b path) o in
  (In (dial b true) t ->
   (exists pre, t = pre ++ [(GoForward true, true); (GoForward false, true)]
                /\ count_calls is_go_forward pre = 0%nat) /\
   count_calls is_close t = 0%nat) /\
  (~ In (dial b true) t ->
   count_calls is_go_forward t = 0%nat /\ count_calls is_close t = 1%nat).
Proof.
  intros Hf H0 H1. cbv zeta.
  destruct (acceptConnection_run b fuel path o Hf H0 H1)
    as (t & res & Hsh & _ & ->).
  destruct (cf_shape_bounds _ _ _ _ Hsh) as (_ & _ & _ & _ & _ & G & C).
  pose proof (cf_shape_result _ _ _ _ Hsh) as Hres.
  destruct res as [m|]; cbn [after_connect].
  - destruct Hres as [_ Hno]. split.
    + intros [H|[H|H]]; try discriminate H.
      apply in_app_or in H as [H|[H|[H|[]]]]; try discriminate H.
      by destruct Hno.
    + intros _. rewrite !count_calls_cons, !count_calls_app, G, C.
      split; reflexivity.
  - split.
    + intros _. split.
      * exists ((Accept ForwardLn, true) :: (IsCloseWriteStream, true) :: t).
        split; [reflexivity|]. by rewrite !count_calls_cons, G.
      * by rewrite !count_calls_cons, !count_calls_app, C.
    + intros Hno. exfalso. apply Hno. right; right. apply in_or_app. left.
      eapply cf_shape_opened, Hsh.
Qed.

Lemma acceptConnection_pumps_witness :
  count_calls is_close
    (trace (virtualnetwork.acceptConnection 4 guest_bastion "/tmp/podman.sock")
       (script [] true)) = 0%nat.
Proof.
  refine (proj2 (proj1 (acceptConnection_pumps 4 guest_bastion
                          "/tmp/podman.sock" (script [] true)
                          ltac:(lia) eq_refl eq_refl) _)).
  vm_compute. tauto.
Defined.

(** ** pkg/sshclient: HostKey *)

Lemma key_for_Some host hashhost line key :
  key_for host hashhost line = Some key <->
  exists hosts, line = Some (hosts, key) /\
                (In host hosts \/ In hashhost hosts).
Proof.
  unfold key_for. destruct line as [[hosts k]|].
  - destruct (existsb _ hosts) eqn:Hex.
    + apply existsb_exists in Hex as (h & Hin & Hh).
      apply orb_true_iff in Hh as [Hh|Hh]; apply String.eqb_eq in Hh; subst h;
        (split; [intros [= <-]; eauto|intros (? & [= <- <-] & _); done]).
    + split; [discriminate|]. intros (hs & [= <- <-] & Hin).
      assert (existsb (fun h => String.eqb h host || String.eqb h hashhost)
                hosts = true); [|congruence].
      apply existsb_exists.
      destruct Hin as [Hin|Hin]; eexists; (split; [exact Hin|]);
        rewrite String.eqb_refl; [reflexivity|apply orb_true_r].
  - split; [discriminate|]. by intros (? & ? & _).
Qed.

Lemma first_key_Some host hashhost lines key :
  first_key host hashhost lines = Some key <->
  exists before line after,
    lines = before ++ line :: after /\
    key_for host hashhost line = Some key /\
    Forall (fun l => key_for host hashhost l = None) before.
Proof.
  induction lines as [|l lines IH]; cbn [first_key].
  - split; [discriminate|]. intros (before & ? & ? & H & _).
    by destruct before.
  - destruct (key_for host hashhost l) as [k|] eqn:Hk.
    + split.
      * intros [= <-]. exists [], l, lines.
        split; [reflexivity|]. split; [exact Hk|constructor].
      * intros ([|l' before] & line & after & Heq & Hline & Hbefore);
          injection Heq as <- ->; [congruence|].
        apply Forall_cons in Hbefore as [H _]. congruence.
    + rewrite IH. split.
      * intros (before & line & after & -> & Hline & Hbefore).
        exists (l :: before), line, after.
        split; [reflexivity|]. split; [exact Hline|by constructor].
      * intros ([|l' before] & line & after & Heq & Hline & Hbefore);
          injection Heq as <- ->; [congruence|].
        apply Forall_cons in Hbefore as [_ H].
        exists before, line, after. by repeat split.
Qed.

(** [HostKey] returns the key of the first line that parses and holds
    the host or the hash of this call. *)
Lemma HostKey_first_named
    (HashHostname : string -> string)
    (known_hosts : option (list sshclient.knownHostsLine))
    (host : string) (o : nat -> bool) :
  let r := result (sshclient.HostKey HashHostname known_hosts host) o in
  let names hosts := In host hosts \/ In (HashHostname host) hosts in
  (forall key,
     r = Some key <->
     exists before hosts after,
       known_hosts = Some (before ++ Some (hosts, key) :: after) /\
       names hosts /\
       forall hosts' key', In (Some (hosts', key')) before ->
                           ~ names hosts') /\
  (known_hosts = None -> r = None).
Proof.
  cbv zeta. unfold result. rewrite HostKey_key. unfold known_key.
  split; [|by intros ->].
  intros key. destruct known_hosts as [lines|].
  - rewrite first_key_Some. split.
    + intros (before & line & after & -> & Hline & Hbefore).
      apply key_for_Some in Hline as (hosts & -> & Hn).
      exists before, hosts, after. split; [reflexivity|]. split; [exact Hn|].
      intros hosts' key' Hin Hn'.
      rewrite List.Forall_forall in Hbefore. specialize (Hbefore _ Hin).
      assert (key_for host (HashHostname host) (Some (hosts', key'))
              = Some key') as Hk by (apply key_for_Some; eauto).
      congruence.
    + intros (before & hosts & after & [= ->] & Hn & Hbefore).
      exists before, (Some (hosts, key)), after. split; [reflexivity|].
      split; [apply key_for_Some; eauto|].
      apply List.Forall_forall. intros l Hin.
      destruct (key_for host (HashHostname host) l) as [k|] eqn:Hk;
        [|reflexivity].
      apply key_for_Some in Hk as (hs & -> & Hn'). by destruct (Hbefore _ _ Hin).
  - split; [discriminate|]. by intros (? & ? & ? & ? & _).
Qed.

Lemma fresh_not_in hashhost lines hosts key :
  fresh hashhost (Some lines) = true ->
  In (Some (hosts, key)) lines -> ~ In hashhost hosts.
Proof.
  cbn [fresh]. rewrite forallb_forall. intros Hf Hin Hh.
  specialize (Hf _ Hin). cbn in Hf. apply negb_true_iff in Hf.
  assert (existsb (fun h => String.eqb h hashhost) hosts = true);
    [|congruence].
  apply existsb_exists. exists hashhost. split; [exact Hh|].
  apply String.eqb_refl.
Qed.

(** X8: a line of known_hosts counts for [HostKey] only when it parses and
    names the host in plain form: the hash the function compares with is
    salted afresh and no line holds it.  [HostKey] returns a key exactly
    when there is such a line, and then it is the key of the first one;
    lines that do not parse, lines for other hosts and lines that name
    the host in hashed form are passed over; when the file cannot be
    opened it returns nil. *)
Theorem HostKey_first_match
    (HashHostname : string -> string)
    (known_hosts : option (list sshclient.knownHostsLine))
    (host : string) (o : nat -> bool) :
  fresh (HashHostname host) known_hosts = true ->
  let r := result (sshclient.HostKey HashHostname known_hosts host) o in
  (forall key,
     r = Some key <->
     exists before hosts after,
       known_hosts = Some (before ++ Some (hosts, key) :: after) /\
       In host hosts /\
       forall hosts' key', In (Some (hosts', key')) before ->
                           ~ In host hosts') /\
  (known_hosts = None -> r = None).
Proof.
  intros Hfresh. cbv zeta.
  destruct (HostKey_first_named HashHostname known_hosts host o)
    as [Hkey Hnone].
  split; [|exact Hnone]. intros key. rewrite Hkey. clear Hkey Hnone.
  split.
  - intros (before & hosts & after & -> & Hn & Hbefore).
    exists before, hosts, after. split; [reflexivity|].
    assert (Hin : In (Some (hosts, key))
                    (before ++ Some (hosts, key) :: after))
      by (apply in_or_app; right; by left).
    split.
    + destruct Hn as [Hn|Hn]; [exact Hn|].
      by destruct (fresh_not_in _ _ _ _ Hfresh Hin).
    + intros hosts' key' Hin' Hn'. apply (Hbefore _ _ Hin'). by left.
  - intros (before & hosts & after & -> & Hn & Hbefore).
    exists before, hosts, after. split; [reflexivity|].
    split; [by left|].
    intros hosts' key' Hin' [Hn'|Hn'].
    + by apply (Hbefore _ _ Hin').
    + apply (fresh_not_in _ _ _ _ Hfresh
               (in_or_app before _ _ (or_introl Hin'))). exact Hn'.
Qed.

Lemma HostKey_first_match_witness :
  result (sshclient.HostKey (hashed "ZnJlc2ggc2FsdA==")
            (Some [None;
                   Some ([hashed "b2xkIHNhbHQ=" "192.168.127.2"], "old key");
                   Some (["192.168.127.2"], "host key")])
            "192.168.127.2") (script [] true)
  = Some "host key".
Proof.
  apply (proj1 (HostKey_first_match (hashed "ZnJlc2ggc2FsdA==")
                  (Some [None;
                         Some ([hashed "b2xkIHNhbHQ=" "192.168.127.2"],
                               "old key");
                         Some (["192.168.127.2"], "host key")])
                  "192.168.127.2" (script [] true) eq_refl)).
  exists [None; Some ([hashed "b2xkIHNhbHQ=" "192.168.127.2"], "old key")],
    ["192.168.127.2"], [].
  split; [reflexivity|]. split; [by left|].
  intros hosts' key' [H|[H|[]]]; [discriminate H|].
  injection H as <- <-. intros [H|[]]. discriminate H.
Defined.

(** ** pkg/sshclient: reconnect and the bastion CreateBastion builds *)

Section BastionMore.

Import sshclient.

Variable HashHostname : string -> string.
Variable known_hosts : option (list knownHostsLine).
Variable server_key : PublicKey.

Lemma reconnect_cases bastion c e :
  let r := reconnect server_key bastion c e in
  (fst r = (connected bastion, None) /\
   exists cfg, Config bastion = Some cfg /\
               accepts (HostKeyCallbackOf cfg) server_key = true) \/
  (exists msg, fst r = (bastion, Some msg)).
Proof.
  cbv zeta. unfold reconnect, NewClientConn, connected.
  unfold bind, ask, note, ret.
  destruct (Config bastion) as [cfg|] eqn:Hcfg;
    [destruct (accepts (HostKeyCallbackOf cfg) server_key) eqn:Hacc|];
    destruct c; cbn [negb oracle asked log];
    repeat match goal with
           | |- context [oracle e ?n] =>
               destruct (oracle e n); cbn [negb oracle asked log fst]
           end;
    first [ left; split; [reflexivity|eauto] | right; eexists; reflexivity ].
Qed.

(** X9: a reconnect that fails leaves the bastion as it was, its old
    client included; one that succeeds changes the client only, and the
    host key callback has accepted the server's key.  With a connection
    handed in, the connect callback is not called; without one, a failing
    callback is the only call made. *)
Theorem reconnect_keeps_bastion_on_failure
    (bastion : Bastion) (c : option conn) (o : nat -> bool) :
  let r := result (reconnect server_key bastion c) o in
  let t := trace (reconnect server_key bastion c) o in
  (snd r <> None -> fst r = bastion) /\
  (snd r = None ->
   fst r = connected bastion /\
   exists cfg, Config bastion = Some cfg /\
               accepts (HostKeyCallbackOf cfg) server_key = true) /\
  (c <> None -> ~ In (ConnectCallback, true) t /\
                ~ In (ConnectCallback, false) t) /\
  (c = None -> o 0%nat = false ->
   t = [(ConnectCallback, false)] /\
   snd r = Some (("Connection to bastion host (" +:+ Host bastion +:+
                  ") failed.") +:+ ": connect")).
Proof.
  cbv zeta. unfold result. split; [|split; [|split]].
  - destruct (reconnect_cases bastion c (start o)) as [[-> _]|(msg & ->)];
      [intros H; by destruct H|done].
  - destruct (reconnect_cases bastion c (start o)) as [[-> H]|(msg & ->)];
      [done|discriminate].
  - intros Hc. destruct c as [c|]; [|done].
    unfold trace, reconnect, NewClientConn, start.
    unfold bind, ask, note, ret. cbn [negb oracle asked log].
    destruct (negb _); cbn [negb oracle asked log].
    + split; intros [H|[]]; discriminate H.
    + destruct (o 0%nat); cbn; split; intros [H|[H|[]]]; discriminate H.
  - intros -> H0. unfold trace, reconnect, start.
    unfold bind, ask, note, ret. cbn [negb oracle asked log].
    rewrite H0. split; reflexivity.
Qed.

End BastionMore.

Lemma reconnect_keeps_bastion_on_failure_witness :
  fst (result (sshclient.reconnect "host key" guest_bastion None)
         (script [false] true)) = guest_bastion.
Proof.
  apply (proj1 (reconnect_keeps_bastion_on_failure "host key" guest_bastion
                  None (script [false] true))).
  discriminate.
Defined.

Section CreateBastionMore.

Import sshclient.

Variable HashHostname : string -> string.
Variable known_hosts : option (list knownHostsLine).
Variable server_key : PublicKey.

(** What [CreateBastion] returns: the empty bastion with an error, or the
    bastion it configured from the URL, handed to [reconnect]. *)
Lemma CreateBastion_cases _url passPhrase identity initial e :
  let r := fst (CreateBastion HashHostname known_hosts server_key _url
                  passPhrase identity initial e) in
  (fst r = noBastion /\ snd r <> None) \/
  (exists callback e1,
     r = fst (reconnect server_key
                (Build_Bastion None
                   (Some (Build_ClientConfig (Username (User _url))
                            (auth_methods _url identity) callback
                            (5 * Second)))
                   (Hostname _url)
                   (if String.eqb (Port _url) "" then "22" else Port _url)
                   (Path _url)) initial e1)).
Proof.
  cbv zeta. unfold CreateBastion, auth_methods.
  set (port := if String.eqb (Port _url) "" then "22" else Port _url).
  destruct (ParseBool (Get (Query _url) "secure")) as [sec perr].
  destruct (Password (User _url)) as [pw found]. cbn [fst snd].
  unfold bind at 1.
  assert (Hrest : forall auth e1,
    let r := fst ((if Z.of_nat (length (if found
                                        then auth ++ [PasswordAuth pw]
                                        else auth)) =? 0
          then ret (noBastion, Some "No available auth methods")
          else
            do callback <- (if sec then
                              do key <- HostKey HashHostname known_hosts
                                          (if negb (String.eqb port "22")
                                           then "[" +:+ Hostname _url
                                                +:+ "]:" +:+ port
                                           else Hostname _url);
                              match key with
                              | Some key => ret (FixedHostKey key)
                              | None => ret InsecureIgnoreHostKey
                              end
                            else ret InsecureIgnoreHostKey);
            reconnect server_key
              (Build_Bastion None
                 (Some (Build_ClientConfig (Username (User _url))
                          (if found then auth ++ [PasswordAuth pw] else auth)
                          callback (5 * Second)))
                 (Hostname _url) port (Path _url)) initial) e1) in
    (fst r = noBastion /\ snd r <> None) \/
    (exists callback e2,
       r = fst (reconnect server_key
                  (Build_Bastion None
                     (Some (Build_ClientConfig (Username (User _url))
                              (auth ++ (if found then [PasswordAuth pw]
                                        else []))
                              callback (5 * Second)))
                     (Hostname _url) port (Path _url)) initial e2))).
  { intros auth e1. cbv zeta.
    replace (if found then auth ++ [PasswordAuth pw] else auth)
      with (auth ++ (if found then [PasswordAuth pw] else []))
      by (destruct found; [reflexivity|apply app_nil_r]).
    destruct (Z.of_nat _ =? 0); [left; by split|]. right.
    destruct sec; unfold bind, ret.
    - destruct (HostKey HashHostname known_hosts _ e1) as [[key|] e2]; eauto.
    - eauto. }
  destruct (0 <? Z.of_nat (String.length identity)).
  - unfold bind, ask, ret. destruct (oracle e (asked e)); cbn [negb].
    + apply Hrest.
    + left. by split.
  - unfold ret at 1. apply (Hrest []).
Qed.

(** X10: the bastion [CreateBastion] builds carries the user, host and
    path of the URL, the port of the URL or 22 when it has none, a 5 s
    timeout, and the auth methods in this order: the identity key when an
    identity is given, then the password when the URL has one.  It holds a
    client exactly when no error is returned. *)
Theorem CreateBastion_configuration
    (_url : URL) (passPhrase identity : string) (initial : option conn)
    (o : nat -> bool) (b : Bastion) (err : error) (cfg : ClientConfig) :
  result (CreateBastion HashHostname known_hosts server_key _url passPhrase
            identity initial) o = (b, err) ->
  Config b = Some cfg ->
  Auth cfg = auth_methods _url identity /\
  ConfigUser cfg = Username (User _url) /\
  Timeout cfg = 5 * Second /\
  Host b = Hostname _url /\
  BastionPort b = (if String.eqb (Port _url) "" then "22" else Port _url) /\
  BastionPath b = Path _url /\
  (err = None -> Client b = Some Channel) /\
  (err <> None -> Client b = None).
Proof.
  unfold result. intros Hres Hcfg.
  destruct (CreateBastion_cases _url passPhrase identity initial (start o))
    as [[Hb _]|(callback & e1 & Hr)].
  { rewrite Hres in Hb. cbn [fst] in Hb. subst b. discriminate Hcfg. }
  rewrite Hres in Hr.
  match type of Hr with
  | _ = fst (reconnect _ ?B _ _) =>
      destruct (reconnect_cases server_key B initial e1)
        as [[Hok _]|(msg & Hfail)]
  end.
  - rewrite Hok in Hr. injection Hr as -> ->.
    cbn in Hcfg. injection Hcfg as <-. cbn.
    repeat split; try reflexivity. intros H; by destruct H.
  - rewrite Hfail in Hr. injection Hr as -> ->.
    cbn in Hcfg. injection Hcfg as <-. cbn.
    repeat split; try reflexivity. discriminate.
Qed.

(** X11: an identity that cannot be read or parsed ends [CreateBastion]
    with the wrapped error before anything else is tried: no known_hosts
    lookup, no connection, no handshake. *)
Theorem CreateBastion_identity_unreadable
    (_url : URL) (passPhrase identity : string) (initial : option conn)
    (o : nat -> bool) :
  identity <> "" -> o 0%nat = false ->
  result (CreateBastion HashHostname known_hosts server_key _url passPhrase
            identity initial) o =
    (noBastion,
     Some (("failed to parse identity " +:+ identity) +:+ ": read")) /\
  trace (CreateBastion HashHostname known_hosts server_key _url passPhrase
           identity initial) o = [(ReadIdentity identity, false)].
Proof.
  intros Hid H0. unfold result, trace, CreateBastion.
  assert ((0 <? Z.of_nat (String.length identity)) = true) as ->.
  { destruct identity; [done|]. cbn [String.length]. apply Z.ltb_lt. lia. }
  destruct (ParseBool _) as [sec perr].
  destruct (Password _) as [pw found].
  unfold bind, ask, ret, start. cbn [oracle asked log]. rewrite H0.
  split; reflexivity.
Qed.

(** X12: unless the secure parameter of the URL is spelled in one of the
    six ways [strconv.ParseBool] reads as true, [CreateBastion] does what
    it does for the URL without a query: the same calls, the same result,
    and a bastion, when it builds one, that ignores the host key.  A value
    such as yes or on is not an error, it is insecure. *)
Theorem CreateBastion_secure_spellings
    (_url : URL) (passPhrase identity : string) (initial : option conn)
    (o : nat -> bool) :
  let create u := CreateBastion HashHostname known_hosts server_key u
                    passPhrase identity initial in
  (secure _url = true <-> In (Get (Query _url) "secure") true_spellings) /\
  (~ In (Get (Query _url) "secure") true_spellings ->
   result (create _url) o = result (create (without_query _url)) o /\
   trace (create _url) o = trace (create (without_query _url)) o /\
   forall cfg, Config (fst (result (create _url) o)) = Some cfg ->
               HostKeyCallbackOf cfg = InsecureIgnoreHostKey).
Proof.
  cbv zeta.
  assert (Hs : secure _url = true <->
               In (Get (Query _url) "secure") true_spellings).
  { unfold secure, ParseBool, true_spellings.
    destruct (existsb _ ["1"; "t"; "T"; "true"; "TRUE"; "True"]) eqn:Hex.
    - split; [intros _|done].
      apply existsb_exists in Hex as (x & Hin & Hx).
      apply String.eqb_eq in Hx. by subst x.
    - split.
      + intros H. destruct (existsb _ _) in H; discriminate H.
      + intros Hin. assert (existsb (String.eqb (Get (Query _url) "secure"))
                              ["1"; "t"; "T"; "true"; "TRUE"; "True"] = true);
          [|congruence].
        apply existsb_exists. eexists. split; [exact Hin|].
        apply String.eqb_refl. }
  split; [exact Hs|]. intros Hno.
  assert (Hsec : secure _url = false).
  { destruct (secure _url); [|reflexivity]. destruct Hno. by apply Hs. }
  assert (Heq : forall e,
    CreateBastion HashHostname known_hosts server_key _url passPhrase
      identity initial e =
    CreateBastion HashHostname known_hosts server_key (without_query _url)
      passPhrase identity initial e).
  { intros e. unfold CreateBastion, without_query.
    cbn [User Hostname Port Path Query Get].
    unfold secure in Hsec.
    destruct (ParseBool (Get (Query _url) "secure")) as [sec perr].
    cbn [fst] in Hsec. subst sec.
    replace (ParseBool "") with (false, Some "invalid syntax")
      by reflexivity.
    reflexivity. }
  unfold result, trace. rewrite Heq. split; [reflexivity|].
  split; [reflexivity|]. rewrite <- Heq.
  intros cfg Hcfg.
  destruct (CreateBastion_callback HashHostname known_hosts server_key
              _url passPhrase identity initial (start o) _ _
              (surjective_pairing _) cfg Hcfg) as [Hcb _].
  by rewrite Hsec in Hcb.
Qed.

End CreateBastionMore.

Lemma CreateBastion_configuration_witness :
  sshclient.BastionPort
    (fst (result (sshclient.CreateBastion (fun h => h) None "k" secure_url ""
                    "/home/core/.ssh/id_ed25519" None) (script [] true)))
  = "22".
Proof.
  refine (proj1 (proj2 (proj2 (proj2 (proj2
    (CreateBastion_configuration (fun h => h) None "k" secure_url ""
       "/home/core/.ssh/id_ed25519" None (script [] true) _ _ _
       (surjective_pairing _) eq_refl)))))).
Defined.

Lemma CreateBastion_identity_unreadable_witness :
  trace (sshclient.CreateBastion (fun h => h) None "k" secure_url ""
           "/home/core/.ssh/id_ed25519" None) (script [false] true)
  = [(ReadIdentity "/home/core/.ssh/id_ed25519", false)].
Proof.
  apply (proj2 (CreateBastion_identity_unreadable (fun h => h) None "k"
                  secure_url "" "/home/core/.ssh/id_ed25519" None
                  (script [false] true) ltac:(discriminate) eq_refl)).
Defined.

Lemma CreateBastion_secure_spellings_witness :
  let create :=
    sshclient.CreateBastion (hashed "ZnJlc2ggc2FsdA==")
      (Some [Some (["192.168.127.2"], "host key")]) "rogue key" yes_url ""
      "/home/core/.ssh/id_ed25519" (Some StackConn) in
  snd (result create (script [] true)) = None /\
  forall cfg,
    sshclient.Config (fst (result create (script [] true))) = Some cfg ->
    sshclient.HostKeyCallbackOf cfg = sshclient.InsecureIgnoreHostKey.
Proof.
  intros create.
  assert (Hno : ~ In (sshclient.Get (sshclient.Query yes_url) "secure")
                     true_spellings).
  { intros H. repeat (destruct H as [H|H]; [discriminate H|]). destruct H. }
  destruct (proj2 (CreateBastion_secure_spellings (hashed "ZnJlc2ggc2FsdA==")
                     (Some [Some (["192.168.127.2"], "host key")])
                     "rogue key" yes_url "" "/home/core/.ssh/id_ed25519"
                     (Some StackConn) (script [] true)) Hno)
    as (Hres & _ & Hcb).
  split; [|exact Hcb].
  unfold create. rewrite Hres. reflexivity.
Defined.

(** ** pkg/services/forwarder: which requests the UDP handler forwards *)

Lemma byte_and_255 a : tcpip.byte_and a (ascii_of_N 255) = a.
Proof. destruct a as [[] [] [] [] [] [] [] []]; reflexivity. Qed.

Lemma linkLocal_contains_inv a :
  tcpip.Contains forwarder.linkLocal a = true ->
  exists c d, a = tcpip.bytes [169; 254; c; d]%N.
Proof.
  unfold tcpip.Contains, forwarder.linkLocal, tcpip.bytes.
  cbn [fold_right tcpip.address tcpip.mask].
  destruct a as [|a0 [|a1 [|a2 [|a3 [|a4 a]]]]]; cbn [String.length Nat.eqb negb];
    try discriminate.
  cbn [tcpip.masked_eq]. rewrite !byte_and_255.
  destruct (Ascii.eqb_spec a0 (ascii_of_N 169)) as [->|]; [|discriminate].
  destruct (Ascii.eqb_spec a1 (ascii_of_N 254)) as [->|]; [|discriminate].
  intros _. exists (N_of_ascii a2), (N_of_ascii a3).
  by rewrite !ascii_N_embedding.
Qed.

(** X13: the handler does nothing at all exactly for the four-byte
    destinations 169.254.c.d; for every other destination it takes and
    releases the NAT lock, then creates the endpoint, and only then either
    logs the failure or starts one proxy. *)
Theorem UDP_forwards_all_but_link_local
    (nat : gmap tcpip.Address tcpip.Address)
    (r : forwarder.TransportEndpointID) (o : Datatypes.nat -> bool) :
  let t := trace (forwarder.UDP nat r) o in
  (t = [] <->
   exists c d, forwarder.LocalAddress r = tcpip.bytes [169; 254; c; d]%N) /\
  (t <> [] ->
   exists rest,
     t = (NatLock, true) :: (NatUnlock, true)
         :: (CreateEndpoint, o 0%nat) :: rest /\
     (o 0%nat = false ->
      rest = [(LogError "r.CreateEndpoint() failed", true)]) /\
     (o 0%nat = true ->
      exists host,
        rest = [(ProxyRun "udp" host (forwarder.LocalPort r), true)])).
Proof.
  cbv zeta. unfold trace, forwarder.UDP, start.
  destruct (tcpip.Contains forwarder.linkLocal (forwarder.LocalAddress r))
    eqn:Hc.
  - split; [|done]. split; [intros _|done].
    by apply linkLocal_contains_inv.
  - unfold tell. unfold bind, ask, note, ret. cbn [oracle asked log app].
    split.
    + split.
      * destruct (o 0%nat); discriminate.
      * intros (c & d & Ha). rewrite Ha, linkLocal_contains in Hc.
        discriminate Hc.
    + intros _. destruct (o 0%nat); cbn; eexists; (split; [reflexivity|]);
        split; try discriminate; eauto.
Qed.

(** ** cmd/gvproxy: from the flags to the goroutines *)

Section MainMore.

Import gvproxy.

Variable url_Parse : string -> option (string * string).

Lemma extends_refl e : extends e e.
Proof. exists []. split; [by rewrite app_nil_r|constructor]. Qed.

Lemma extends_trans e1 e2 e3 : extends e1 e2 -> extends e2 e3 -> extends e1 e3.
Proof.
  intros (t1 & H1 & F1) (t2 & H2 & F2). exists (t1 ++ t2).
  split; [by rewrite H2, H1, app_assoc|by apply Forall_app].
Qed.

Lemma extends_ask c e :
  is_stat c = true ->
  extends e (Env (oracle e) (S (asked e)) (log e ++ [(c, oracle e (asked e))])).
Proof.
  intros Hc. eexists. split; [reflexivity|]. by repeat constructor.
Qed.

Lemma nonempty_length s : (0 <? Z.of_nat (String.length s)) = nonempty s.
Proof. by destruct s. Qed.

Lemma checkSockets_cases fl k e :
  (exists msg e', checkSockets url_Parse fl k e = exitWithError msg e' /\
                  extends e e') \/
  (exists e', checkSockets url_Parse fl k e = k e' /\ extends e e' /\
              1024 <= sshPort fl <= 65535 /\
              nonempty (vpnkitSocket fl) && nonempty (qemuSocket fl) = false).
Proof.
  unfold checkSockets.
  assert (Hrest : forall e',
    extends e e' ->
    (exists msg e'',
       (if nonempty (vpnkitSocket fl) && nonempty (qemuSocket fl)
        then exitWithError
               "cannot use qemu and vpnkit protocol at the same time"
        else if (sshPort fl <? 1024) || (sshPort fl >? 65535)
             then exitWithError
                    "ssh-port value must be between 1024 and 65535"
             else k) e' = exitWithError msg e'' /\ extends e e'') \/
    (exists e'',
       (if nonempty (vpnkitSocket fl) && nonempty (qemuSocket fl)
        then exitWithError
               "cannot use qemu and vpnkit protocol at the same time"
        else if (sshPort fl <? 1024) || (sshPort fl >? 65535)
             then exitWithError
                    "ssh-port value must be between 1024 and 65535"
             else k) e' = k e'' /\ extends e e'' /\
       1024 <= sshPort fl <= 65535 /\
       nonempty (vpnkitSocket fl) && nonempty (qemuSocket fl) = false)).
  { intros e' He.
    destruct (nonempty (vpnkitSocket fl) && nonempty (qemuSocket fl));
      [left; eauto|].
    destruct (Z.ltb_spec (sshPort fl) 1024); [left; eauto|].
    destruct (Z.gtb_spec (sshPort fl) 65535); [left; eauto|].
    right. exists e'. repeat split; (done || lia). }
  destruct (0 <? Z.of_nat (String.length (qemuSocket fl))).
  - destruct (url_Parse (qemuSocket fl)) as [[scheme path]|].
    + unfold bind, ask, ret. cbv beta iota zeta.
      destruct (oracle e (asked e) && String.eqb scheme "unix") eqn:Hex;
        cbv beta iota zeta.
      * left. eexists _, _. split; [reflexivity|]. by apply extends_ask.
      * apply Hrest. by apply extends_ask.
    + left. eexists _, e. split; [reflexivity|apply extends_refl].
  - unfold bind, ret. cbv beta iota zeta. apply Hrest, extends_refl.
Qed.

Lemma forwardCount_4 fl :
  forwardCount fl = 4 <->
  nonempty (forwardDest fl) = true /\ nonempty (forwardIdentify fl) = true /\
  nonempty (forwardUser fl) = true /\ nonempty (forwardSocket fl) = true.
Proof.
  unfold forwardCount.
  destruct (nonempty (forwardDest fl)), (nonempty (forwardIdentify fl)),
    (nonempty (forwardUser fl)), (nonempty (forwardSocket fl));
    cbn; split; (lia || tauto || (intros (?&?&?&?); discriminate)).
Qed.

Lemma forwardCount_0 fl :
  forwardCount fl = 0 <->
  nonempty (forwardDest fl) = false /\ nonempty (forwardIdentify fl) = false /\
  nonempty (forwardUser fl) = false /\ nonempty (forwardSocket fl) = false.
Proof.
  unfold forwardCount.
  destruct (nonempty (forwardDest fl)), (nonempty (forwardIdentify fl)),
    (nonempty (forwardUser fl)), (nonempty (forwardSocket fl));
    cbn; split; (lia || tauto || (intros (?&?&?&?); discriminate)).
Qed.

Lemma checkForward_cases fl k e :
  (exists msg e', checkForward fl k e = exitWithError msg e' /\
                  extends e e') \/
  (exists e', checkForward fl k e = k e' /\ extends e e' /\
              (forwardCount fl = 0 \/
               (forwardCount fl = 4 /\
                In (Stat (forwardIdentify fl), true) (log e')))).
Proof.
  destruct (Z.eq_dec (forwardCount fl) 0) as [H0|H0].
  { right. exists e. rewrite checkForward_none by done.
    split; [done|]. split; [apply extends_refl|by left]. }
  destruct (Z.eq_dec (forwardCount fl) 4) as [H4|H4].
  { rewrite checkForward_all by done. cbv zeta.
    destruct (oracle e (asked e)) eqn:Ho.
    - right. eexists. split; [reflexivity|].
      split; [rewrite <- Ho; by apply extends_ask|].
      right. split; [done|]. cbn [log]. apply in_or_app. right. by left.
    - left. eexists _, _. split; [reflexivity|].
      rewrite <- Ho. by apply extends_ask. }
  left.
  assert (1 <= forwardCount fl <= 3).
  { unfold forwardCount in *.
    destruct (nonempty (forwardDest fl)), (nonempty (forwardIdentify fl)),
      (nonempty (forwardUser fl)), (nonempty (forwardSocket fl));
      cbn in *; lia. }
  unfold forwardCount, checkForward in *.
  destruct (nonempty (forwardDest fl)), (nonempty (forwardIdentify fl)),
    (nonempty (forwardUser fl)), (nonempty (forwardSocket fl));
    cbn in H; try lia;
    unfold bind, ask, ret; try destruct (oracle e (asked e)) eqn:Ho;
    cbn [negb]; eexists _, _;
    (split; [reflexivity|]);
    first [ apply extends_refl | rewrite <- Ho; by apply extends_ask ].
Qed.

Lemma writePid_cases fl ds k e :
  (exists msg e' t,
     writePid fl ds k e = exitWithError msg e' /\ log e' = log e ++ t /\
     (t = [(CreateFile (pidFile fl), false)] \/
      t = [(CreateFile (pidFile fl), true); (WriteString, false)])) \/
  (exists e',
     writePid fl ds k e =
       k (if nonempty (pidFile fl)
          then DeferRemovePid (pidFile fl) :: ds else ds) e' /\
     log e' = log e ++ pid_log fl).
Proof.
  unfold writePid, pid_log. rewrite nonempty_length.
  destruct (nonempty (pidFile fl)).
  2: { right. exists e. split; [done|by rewrite app_nil_r]. }
  unfold bind, ask. cbv beta iota zeta. cbn [oracle asked log].
  destruct (oracle e (asked e)) eqn:H1; cbv beta iota zeta;
    cbn [negb oracle asked log].
  - destruct (oracle e (S (asked e))) eqn:H2; cbv beta iota zeta;
      cbn [negb oracle asked log].
    + right. eexists. split; [reflexivity|]. cbn [log].
      by rewrite <- app_assoc.
    + left. eexists _, _, _. split; [reflexivity|]. cbn [log].
      split; [by rewrite <- app_assoc|by right].
  - left. eexists _, _, _. split; [reflexivity|]. cbn [log].
    split; [reflexivity|by left].
Qed.

Lemma with_default_fields fl :
  sshPort (with_default fl) = sshPort fl /\
  vpnkitSocket (with_default fl) = vpnkitSocket fl /\
  qemuSocket (with_default fl) = qemuSocket fl /\
  forwardSocket (with_default fl) = forwardSocket fl /\
  forwardIdentify (with_default fl) = forwardIdentify fl /\
  pidFile (with_default fl) = pidFile fl /\
  forwardCount (with_default fl) = forwardCount fl.
Proof.
  unfold with_default. destruct (_ =? 0); repeat split.
Qed.

(** [main] either stops in one of its start-up tests, having called only
    [os.Stat] and the two calls for the pid file, or hands over to [serve]
    with flags that have passed every test. *)
Lemma main_cases fl o :
  (exists msg e' ts tp,
     main url_Parse fl (start o) = exitWithError msg e' /\
     log e' = ts ++ tp /\
     Forall (fun en => is_stat (fst en) = true) ts /\
     (tp = [] \/ tp = [(CreateFile (pidFile fl), false)] \/
      tp = [(CreateFile (pidFile fl), true); (WriteString, false)])) \/
  (exists e' ts,
     main url_Parse fl (start o) =
       serve (with_default fl) 0 (deferred_calls fl) e' /\
     log e' = ts ++ pid_log fl /\
     Forall (fun en => is_stat (fst en) = true) ts /\
     1024 <= sshPort fl <= 65535 /\
     nonempty (vpnkitSocket fl) && nonempty (qemuSocket fl) = false /\
     (forwardCount fl = 0 \/
      (forwardCount fl = 4 /\ In (Stat (forwardIdentify fl), true) ts))).
Proof.
  destruct (with_default_fields fl) as (F1 & F2 & F3 & F4 & F5 & F6 & F7).
  change (main url_Parse fl) with
    (checkSockets url_Parse (with_default fl)
       (checkForward (with_default fl)
          (writePid (with_default fl) [DeferExit 0]
             (fun defers => serve (with_default fl) 0 defers)))).
  match goal with
  | |- context [checkSockets url_Parse ?f ?k (start o)] =>
      destruct (checkSockets_cases f k (start o))
        as [(msg & e1 & -> & (t1 & L1 & S1))
           |(e1 & -> & (t1 & L1 & S1) & Hport & Hex)]
  end.
  { left. exists msg, e1, t1, []. rewrite app_nil_r. repeat split; auto. }
  match goal with
  | |- context [checkForward ?f ?k e1] =>
      destruct (checkForward_cases f k e1)
        as [(msg & e2 & -> & (t2 & L2 & S2))
           |(e2 & -> & (t2 & L2 & S2) & Hfwd)]
  end.
  { left. exists msg, e2, (t1 ++ t2), []. rewrite app_nil_r.
    split; [reflexivity|]. split; [by rewrite L2, L1|].
    split; [by apply Forall_app|by left]. }
  match goal with
  | |- context [writePid ?f ?ds ?k e2] =>
      destruct (writePid_cases f ds k e2)
        as [(msg & e3 & t3 & -> & L3 & Ht3)|(e3 & -> & L3)]
  end.
  { left. exists msg, e3, (t1 ++ t2), t3. rewrite F6 in Ht3.
    split; [reflexivity|]. split; [by rewrite L3, L2, L1|].
    split; [by apply Forall_app|tauto]. }
  right. exists e3, (t1 ++ t2).
  unfold deferred_calls. rewrite F6.
  assert (pid_log (with_default fl) = pid_log fl) as Hp
    by (unfold pid_log; by rewrite F6).
  rewrite Hp in L3.
  split; [reflexivity|]. split; [by rewrite L3, L2, L1|].
  split; [by apply Forall_app|].
  rewrite F1 in Hport. rewrite F2, F3 in Hex. rewrite F7, F5 in Hfwd.
  split; [exact Hport|]. split; [exact Hex|].
  destruct Hfwd as [H0|[H4 Hin]]; [by left|right].
  split; [exact H4|]. rewrite L2, L1 in Hin. exact Hin.
Qed.

End MainMore.

Section Serve.

Import gvproxy.

Variable url_Parse : string -> option (string * string).

Lemma Forall_count (q p : call -> bool) t :
  Forall (fun en => q (fst en) = true) t ->
  (forall c, q c = true -> p c = false) ->
  count_calls p t = 0%nat.
Proof.
  intros Ht Hq. induction Ht as [|en t Hen _ IH]; [reflexivity|].
  rewrite count_calls_cons, IH, (Hq _ Hen). reflexivity.
Qed.

Lemma never_runDeferred p ds :
  (forall c, p (OsExit c) = false) ->
  (forall s, p (RemoveFile s) = false) ->
  (forall s, p (LogError s) = false) ->
  never p (runDeferred ds).
Proof.
  intros H1 H2 H3. induction ds as [|[code|path] ds IH]; cbn [runDeferred].
  - apply never_ret.
  - apply never_bind; [by apply never_tell|]. intros _. apply never_ret.
  - apply never_bind; [by apply never_ask|]. intros ok.
    apply never_bind; [|intros _; exact IH].
    destruct (negb ok); [by apply never_tell|apply never_ret].
Qed.

Lemma never_run_remove fl eps : never is_remove (run fl eps).
Proof.
  unfold run.
  assert (forall i, never is_remove (listenEndpoints i eps))
    by (apply never_listenEndpoints; reflexivity).
  never_auto.
Qed.

Lemma never_run_ssh_forward fl eps :
  nonempty (forwardSocket fl) = false ->
  never go_ssh_forward (run fl eps).
Proof.
  intros Hf. unfold run. rewrite Hf.
  assert (forall i, never go_ssh_forward (listenEndpoints i eps))
    by (apply never_listenEndpoints; reflexivity).
  never_auto.
Qed.

Lemma never_serve_ssh_forward fl ec ds :
  nonempty (forwardSocket fl) = false ->
  never go_ssh_forward (serve fl ec ds).
Proof.
  intros Hf. unfold serve.
  pose proof (never_run_ssh_forward fl (endpoints fl) Hf).
  assert (never go_ssh_forward (runDeferred ds))
    by (apply never_runDeferred; reflexivity).
  never_auto.
Qed.

Lemma runDeferred_log fl e :
  exists e',
    runDeferred (deferred_calls fl) e = (Exit 0, e') /\
    log e' = log e ++ deferred_log fl (oracle e (asked e)).
Proof.
  unfold deferred_calls, deferred_log.
  destruct (nonempty (pidFile fl)); cbn [runDeferred];
    unfold tell; unfold bind, ask, note, ret; cbn [oracle asked log].
  - destruct (oracle e (asked e)); cbn [negb oracle asked log];
      eexists; (split; [reflexivity|]); cbn [log app];
      by rewrite <- ?app_assoc.
  - eexists. split; reflexivity.
Qed.

(** What [serve] has logged when it is over. *)
Lemma serve_log fl fl0 ec e r e' :
  serve fl ec (deferred_calls fl0) e = (r, e') ->
  exists t,
    log e' = log e ++ (Go RunTask, true) :: t /\
    match r with
    | Exit status =>
        status = 0 /\
        exists pre removed,
          t = pre ++ deferred_log fl0 removed /\
          count_calls is_remove pre = 0%nat
    | Running => True
    end.
Proof.
  unfold serve. unfold tell. unfold bind at 1 2. unfold note at 1.
  cbv beta iota zeta.
  match goal with
  | |- context [run fl (endpoints fl) ?e0] =>
      destruct (never_run_remove fl (endpoints fl) e0) as (tr & Lr & Cr);
      destruct (run fl (endpoints fl) e0) as [err e1]
  end.
  cbn [snd log] in Lr.
  unfold bind, ask, note, ret. cbv beta iota zeta. cbn [oracle asked log].
  assert (Hfin : forall e3 mid,
    log e3 = log e1 ++ mid -> count_calls is_remove mid = 0%nat ->
    runDeferred (deferred_calls fl0) e3 = (r, e') ->
    exists t,
      log e' = log e ++ (Go RunTask, true) :: t /\
      match r with
      | Exit status =>
          status = 0 /\
          exists pre removed,
            t = pre ++ deferred_log fl0 removed /\
            count_calls is_remove pre = 0%nat
      | Running => True
      end).
  { intros e3 mid L3 C3.
    destruct (runDeferred_log fl0 e3) as (e4 & -> & L4). intros [= <- <-].
    exists (tr ++ mid ++ deferred_log fl0 (oracle e3 (asked e3))).
    split.
    - rewrite L4, L3, Lr. rewrite <- !app_assoc. reflexivity.
    - split; [reflexivity|]. exists (tr ++ mid), (oracle e3 (asked e3)).
      split; [by rewrite <- app_assoc|].
      by rewrite count_calls_app, Cr, C3. }
  destruct err as [msg|]; cbv beta iota zeta; cbn [oracle asked log].
  - eapply Hfin; [cbn [log]; rewrite <- app_assoc; reflexivity|reflexivity].
  - destruct (oracle e1 (asked e1)); cbv beta iota zeta;
      cbn [oracle asked log].
    + eapply Hfin; [cbn [log]; rewrite <- !app_assoc; reflexivity
                   |reflexivity].
    + destruct (oracle e1 (S (asked e1))); cbv beta iota zeta;
        cbn [oracle asked log].
      * eapply Hfin; [cbn [log]; rewrite <- !app_assoc; reflexivity
                     |reflexivity].
      * intros [= <- <-]. eexists. split; [|exact I]. cbn [log].
        rewrite Lr, <- !app_assoc. reflexivity.
Qed.

End Serve.

Section MainTheorems.

Import gvproxy.

Variable url_Parse : string -> option (string * string).

Lemma nonempty_true s : nonempty s = true <-> s <> "".
Proof.
  unfold nonempty. destruct (String.eqb_spec s ""); split; try done.
Qed.

Lemma never_run_write fl eps : never is_write (run fl eps).
Proof.
  unfold run.
  assert (forall i, never is_write (listenEndpoints i eps))
    by (apply never_listenEndpoints; reflexivity).
  never_auto.
Qed.

Lemma never_serve_write fl ec ds : never is_write (serve fl ec ds).
Proof.
  unfold serve.
  pose proof (never_run_write fl (endpoints fl)).
  assert (never is_write (runDeferred ds))
    by (apply never_runDeferred; reflexivity).
  never_auto.
Qed.

(** The two ways [main] can go, with what it has logged. *)
Lemma main_run fl o :
  let r := result (main url_Parse fl) o in
  let t := trace (main url_Parse fl) o in
  (r = Exit 1 /\
   exists msg ts tp,
     t = ts ++ tp ++ [(LogError msg, true); (OsExit 1, true)] /\
     Forall (fun en => is_stat (fst en) = true) ts /\
     (tp = [] \/ tp = [(CreateFile (pidFile fl), false)] \/
      tp = [(CreateFile (pidFile fl), true); (WriteString, false)])) \/
  (exists ts t',
     t = ts ++ pid_log fl ++ (Go RunTask, true) :: t' /\
     Forall (fun en => is_stat (fst en) = true) ts /\
     1024 <= sshPort fl <= 65535 /\
     nonempty (vpnkitSocket fl) && nonempty (qemuSocket fl) = false /\
     (forwardCount fl = 0 \/
      (forwardCount fl = 4 /\ In (Stat (forwardIdentify fl), true) ts)) /\
     (nonempty (forwardSocket fl) = false ->
      count_calls go_ssh_forward t' = 0%nat) /\
     count_calls is_write t' = 0%nat /\
     match r with
     | Exit status =>
         status = 0 /\
         exists pre removed,
           t' = pre ++ deferred_log fl removed /\
           count_calls is_remove pre = 0%nat
     | Running => True
     end).
Proof.
  cbv zeta. unfold result, trace.
  destruct (main_cases url_Parse fl o)
    as [(msg & e' & ts & tp & -> & L & S & Htp)
       |(e' & ts & -> & L & S & Hport & Hex & Hfwd)].
  - left. split; [reflexivity|]. exists msg, ts, tp.
    split; [|by split]. cbn. rewrite L. by rewrite <- !app_assoc.
  - right.
    destruct (serve (with_default fl) 0 (deferred_calls fl) e')
      as [r e''] eqn:Hserve.
    destruct (serve_log _ _ _ _ _ _ Hserve) as (t' & L' & Hr).
    exists ts, t'. cbn [fst snd]. rewrite L', L.
    split; [by rewrite <- app_assoc|].
    split; [exact S|]. split; [exact Hport|]. split; [exact Hex|].
    split; [exact Hfwd|].
    destruct (with_default_fields fl) as (_ & _ & _ & F4 & _).
    split; [|split; [|exact Hr]].
    + intros Hf. rewrite <- F4 in Hf.
      destruct (never_serve_ssh_forward _ 0 (deferred_calls fl) Hf e')
        as (t0 & L0 & C0).
      rewrite Hserve in L0. cbn [snd] in L0. rewrite L' in L0.
      apply app_inv_head in L0. subst t0.
      by rewrite count_calls_cons in C0.
    + destruct (never_serve_write (with_default fl) 0 (deferred_calls fl) e')
        as (t0 & L0 & C0).
      rewrite Hserve in L0. cbn [snd] in L0. rewrite L' in L0.
      apply app_inv_head in L0. subst t0.
      by rewrite count_calls_cons in C0.
Qed.

Lemma pid_log_calls fl :
  count_calls is_go (pid_log fl) = 0%nat /\
  count_calls is_remove (pid_log fl) = 0%nat /\
  count_calls go_ssh_forward (pid_log fl) = 0%nat /\
  ~ In (WriteString, false) (pid_log fl).
Proof.
  unfold pid_log. destruct (nonempty (pidFile fl)); cbn.
  - repeat split. intros [H|[H|[]]]; discriminate H.
  - repeat split. intros [].
Qed.

(** X14: the exit status of [main] is 1 exactly when it stops in one of
    its start-up tests, before any goroutine is started; once the
    goroutines are started the process either goes on running or exits
    with status 0, with [os.Exit(0)] as its last call. *)
Theorem main_exit_status (fl : Flags) (o : nat -> bool) :
  let t := trace (main url_Parse fl) o in
  match result (main url_Parse fl) o with
  | Exit status =>
      (status = 1 /\ count_calls is_go t = 0%nat /\
       exists pre msg, t = pre ++ [(LogError msg, true); (OsExit 1, true)]) \/
      (status = 0 /\ In (Go RunTask, true) t /\
       exists pre, t = pre ++ [(OsExit 0, true)])
  | Running => In (Go RunTask, true) t
  end.
Proof.
  cbv zeta.
  destruct (main_run fl o)
    as [(-> & msg & ts & tp & -> & S & Htp)
       |(ts & t' & -> & S & _ & _ & _ & _ & _ & Hr)].
  - left. split; [reflexivity|]. split.
    + rewrite !count_calls_app, (Forall_count is_stat is_go ts S)
        by (by intros []).
      by destruct Htp as [->|[->| ->]].
    + exists (ts ++ tp), msg. by rewrite <- app_assoc.
  - assert (Hin : In (Go RunTask, true)
                    (ts ++ pid_log fl ++ (Go RunTask, true) :: t')).
    { apply in_or_app. right. apply in_or_app. right. by left. }
    destruct (result (main url_Parse fl) o) as [status|]; [|exact Hin].
    destruct Hr as (-> & pre & removed & -> & _).
    right. split; [reflexivity|]. split; [exact Hin|].
    unfold deferred_log.
    match goal with
    | |- context [?d ++ [(OsExit 0, true)]] =>
        exists (ts ++ pid_log fl ++ (Go RunTask, true) :: pre ++ d)
    end.
    rewrite <- !app_assoc. cbn. by rewrite <- !app_assoc.
Qed.

(** X15: goroutines are only started with flags that have passed the
    tests: an ssh port between 1024 and 65535, not both of --listen-qemu
    and --listen-vpnkit, and none or all four of the forward flags; with
    any other flags the process exits with status 1 and starts none. *)
Theorem main_starts_only_valid_flags (fl : Flags) (o : nat -> bool) :
  let t := trace (main url_Parse fl) o in
  (In (Go RunTask, true) t -> valid_flags fl) /\
  (~ valid_flags fl ->
   result (main url_Parse fl) o = Exit 1 /\ count_calls is_go t = 0%nat).
Proof.
  cbv zeta.
  destruct (main_run fl o)
    as [(Hr & msg & ts & tp & Ht & S & Htp)
       |(ts & t' & Ht & S & Hport & Hex & Hfwd & _)].
  - assert (Hc : count_calls is_go (trace (main url_Parse fl) o) = 0%nat).
    { rewrite Ht, !count_calls_app, (Forall_count is_stat is_go ts S)
        by (by intros []).
      by destruct Htp as [->|[->| ->]]. }
    split; [|by intros _].
    intros Hin. apply (count_calls_In is_go) in Hin; [lia|reflexivity].
  - assert (Hv : valid_flags fl).
    { split; [exact Hport|]. split; [|tauto].
      intros [Hv Hq]. apply nonempty_true in Hv, Hq.
      by rewrite Hv, Hq in Hex. }
    split; [by intros _|]. intros Hn. by destruct Hn.
Qed.

(** X16: the SSH forwarder goroutine is started only when all four
    forward flags are given and the identity file was there when [main]
    stat'ed it. *)
Theorem main_forwarder_needs_identity (fl : Flags) (o : nat -> bool) :
  let t := trace (main url_Parse fl) o in
  In (Go SSHForward, true) t ->
  forwardSocket fl <> "" /\ forwardDest fl <> "" /\ forwardUser fl <> "" /\
  forwardIdentify fl <> "" /\
  In (Stat (forwardIdentify fl), true) t.
Proof.
  cbv zeta. intros Hin.
  destruct (main_run fl o)
    as [(Hr & msg & ts & tp & Ht & S & Htp)
       |(ts & t' & Ht & S & _ & _ & Hfwd & Hssh & _)]; rewrite Ht in Hin |- *.
  - apply (count_calls_In go_ssh_forward) in Hin; [|reflexivity].
    rewrite !count_calls_app,
      (Forall_count is_stat go_ssh_forward ts S) in Hin by (by intros []).
    destruct Htp as [->|[->| ->]]; cbn in Hin; lia.
  - destruct (nonempty (forwardSocket fl)) eqn:Hf.
    + destruct Hfwd as [H0|[H4 Hstat]].
      { apply forwardCount_0 in H0 as (_ & _ & _ & H0). congruence. }
      apply forwardCount_4 in H4 as (H1 & H2 & H3 & H4).
      rewrite !nonempty_true in *.
      repeat split; try done. apply in_or_app. by left.
    + apply (count_calls_In go_ssh_forward) in Hin; [|reflexivity].
      destruct (pid_log_calls fl) as (_ & _ & Hp & _).
      rewrite !count_calls_app, count_calls_cons,
        (Forall_count is_stat go_ssh_forward ts S), Hp, (Hssh eq_refl) in Hin
        by (by intros []).
      cbn in Hin. lia.
Qed.

(** X17: when the process exits after its goroutines have run, the pid
    file is removed once, just before [os.Exit(0)]; when writing the pid
    fails the process exits with status 1 and the file it has created is
    not removed. *)
Theorem main_pid_file (fl : Flags) (o : nat -> bool) :
  let t := trace (main url_Parse fl) o in
  let r := result (main url_Parse fl) o in
  (pidFile fl <> "" -> r = Exit 0 ->
   exists (pre : list entry) (removed : bool),
     t = pre ++ (RemoveFile (pidFile fl), removed)
             :: (if removed then []
                 else [(LogError "remove pid-file", true)])
             ++ [(OsExit 0, true)] /\
     count_calls is_remove pre = 0%nat /\
     In (WriteString, true) pre) /\
  (In (WriteString, false) t ->
   r = Exit 1 /\ In (CreateFile (pidFile fl), true) t /\
   count_calls is_remove t = 0%nat).
Proof.
  cbv zeta.
  destruct (main_run fl o)
    as [(Hr & msg & ts & tp & Ht & S & Htp)
       |(ts & t' & Ht & S & _ & _ & _ & _ & Hw & Hr)]; rewrite Ht.
  - split; [intros _ H; congruence|].
    intros Hin. split; [exact Hr|].
    assert (Hts : ~ In (WriteString, false) ts).
    { intros H. apply (count_calls_In is_write) in H; [|reflexivity].
      rewrite (Forall_count is_stat is_write ts S) in H by (by intros []).
      lia. }
    rewrite !count_calls_app, (Forall_count is_stat is_remove ts S)
      by (by intros []).
    apply in_app_or in Hin as [Hin|Hin]; [done|].
    apply in_app_or in Hin as [Hin|[Hin|[Hin|[]]]]; try discriminate Hin.
    destruct Htp as [->|[->| ->]].
    + destruct Hin.
    + destruct Hin as [Hin|[]]; discriminate Hin.
    + split; [|reflexivity]. apply in_or_app. right. by left.
  - split.
    + intros Hpid Hexit. rewrite Hexit in Hr.
      destruct Hr as (_ & pre & removed & -> & Cpre).
      apply nonempty_true in Hpid.
      unfold deferred_log, pid_log. rewrite Hpid.
      exists (ts ++ [(CreateFile (pidFile fl), true); (WriteString, true)]
              ++ (Go RunTask, true) :: pre), removed.
      split; [by rewrite <- !app_assoc|]. split.
      * rewrite !count_calls_app, !count_calls_cons,
          (Forall_count is_stat is_remove ts S), Cpre by (by intros []).
        reflexivity.
      * apply in_or_app. right. right. by left.
    + intros Hin. exfalso.
      apply (count_calls_In is_write) in Hin as Hc; [|reflexivity].
      apply in_app_or in Hin as [Hin|Hin].
      { apply (count_calls_In is_write) in Hin; [|reflexivity].
        rewrite (Forall_count is_stat is_write ts S) in Hin by (by intros []).
        lia. }
      apply in_app_or in Hin as [Hin|[Hin|Hin]].
      * by apply (pid_log_calls fl).
      * discriminate Hin.
      * apply (count_calls_In is_write) in Hin; [lia|reflexivity].
Qed.

End MainTheorems.

Lemma main_starts_only_valid_flags_witness :
  result (gvproxy.main parse_unix user_only_flags) (script [] true)
  = gvproxy.Exit 1.
Proof.
  apply (proj2 (main_starts_only_valid_flags parse_unix user_only_flags
                  (script [] true))).
  intros (_ & _ & [H|H]); vm_compute in H; discriminate H.
Defined.

Lemma main_forwarder_needs_identity_witness :
  In (Stat "/home/core/.ssh/id_ed25519", true)
    (trace (gvproxy.main parse_unix forward_flags) (script [] true)).
Proof.
  apply (main_forwarder_needs_identity parse_unix forward_flags
           (script [] true)).
  vm_compute. tauto.
Defined.

Section RunMore.

Import gvproxy.

Lemma listening_log_ok i eps : all_ok (listening_log i eps).
Proof.
  revert i. induction eps as [|ep eps IH]; intros i; cbn.
  - constructor.
  - repeat (constructor; [reflexivity|]). apply IH.
Qed.

Lemma listening_log_go i eps :
  count_calls is_go (listening_log i eps) = (2 * length eps)%nat.
Proof.
  revert i. induction eps as [|ep eps IH]; intros i; [reflexivity|].
  cbn [listening_log length]. rewrite !count_calls_cons, IH. cbn. lia.
Qed.

Lemma listenEndpoints_cases eps : forall i e r e',
  listenEndpoints i eps e = (r, e') ->
  (r = None /\ log e' = log e ++ listening_log i eps) \/
  (exists pre ep post,
     eps = pre ++ ep :: post /\
     r = Some "cannot listen: listen" /\
     log e' = log e ++ listening_log i pre
              ++ [(Listen (EndpointLn (i + length pre)) ep, false)]).
Proof.
  induction eps as [|ep eps IH]; intros i e r e'.
  - intros [= <- <-]. left. split; [reflexivity|]. cbn. by rewrite app_nil_r.
  - cbn [listenEndpoints]. unfold bind, ask, tell, note.
    destruct (oracle e (asked e)) eqn:Ho; cbn [negb].
    + intros E. apply IH in E. cbn [log] in E.
      destruct E as [[Hr Hl]|(pre & ep' & post & -> & Hr & Hl)].
      * left. split; [exact Hr|]. rewrite Hl. cbn [listening_log].
        by rewrite <- !app_assoc.
      * right. exists (ep :: pre), ep', post.
        split; [reflexivity|]. split; [exact Hr|]. rewrite Hl.
        cbn [listening_log length app].
        replace (i + S (length pre))%nat with (S i + length pre)%nat by lia.
        by rewrite <- !app_assoc.
    + intros [= <- <-].
      right. exists [], ep, eps. split; [reflexivity|]. split; [reflexivity|].
      cbn. by rewrite Nat.add_0_r.
Qed.

(** X18: the listen loop of [run] stops at the first endpoint it cannot
    listen on, with the error "cannot listen: ...": the endpoints after it
    are not listened on, and each endpoint before it has its two
    goroutines, the one that closes the listener and the one that serves
    it.  When every listen succeeds the loop returns no error. *)
Theorem listenEndpoints_stops_at_first_failure
    (i : nat) (eps : list string) (o : nat -> bool) :
  let r := result (listenEndpoints i eps) o in
  let t := trace (listenEndpoints i eps) o in
  (r = None /\ t = listening_log i eps) \/
  (exists pre ep post,
     eps = pre ++ ep :: post /\
     r = Some "cannot listen: listen" /\
     t = listening_log i pre
         ++ [(Listen (EndpointLn (i + length pre)) ep, false)]).
Proof.
  cbv zeta. unfold result, trace.
  destruct (listenEndpoints i eps (start o)) as [r e'] eqn:E.
  apply listenEndpoints_cases in E. cbn [fst snd].
  destruct E as [[Hr Hl]|(pre & ep & post & Heps & Hr & Hl)].
  - left. split; [exact Hr|]. rewrite Hl. reflexivity.
  - right. exists pre, ep, post. split; [exact Heps|]. split; [exact Hr|].
    rewrite Hl. reflexivity.
Qed.

Lemma all_ok_app t1 t2 : all_ok t1 -> all_ok t2 -> all_ok (t1 ++ t2).
Proof. intros H1 H2. apply Forall_app. by split. Qed.

Lemma run_cases fl eps e r e' :
  run fl eps e = (r, e') ->
  all_ok (log e) ->
  match r with
  | None =>
      all_ok (log e') /\
      count_calls is_go (log e')
      = (count_calls is_go (log e) + goroutines fl eps)%nat
  | Some _ =>
      exists pre c,
        log e' = pre ++ [(c, false)] /\ all_ok pre /\
        (c = VNNew \/ is_listen c = true)
  end.
Proof.
  unfold run, goroutines. intros E Hok0.
  unfold bind at 1 in E. unfold ask at 1 in E.
  destruct (oracle e (asked e)); cbn [negb] in E.
  2: { injection E as <- <-. exists (log e), VNNew.
       split; [reflexivity|]. split; [exact Hok0|by left]. }
  unfold bind at 1 in E.
  match type of E with
  | context [listenEndpoints 0 eps ?e1] =>
      destruct (listenEndpoints 0 eps e1) as [r1 e2] eqn:E1
  end.
  apply listenEndpoints_cases in E1. cbn [fst snd log app] in *.
  destruct E1 as [[Hr Hl]|(pre & ep & post & Heps & Hr & Hl)]; subst r1.
  2: { injection E as <- <-.
       exists ((log e ++ [(VNNew, true)]) ++ listening_log 0 pre),
         (Listen (EndpointLn (0 + length pre)) ep).
       rewrite Hl. split; [by rewrite <- !app_assoc|]. split; [|by right].
       apply all_ok_app; [|apply listening_log_ok].
       apply all_ok_app; [exact Hok0|]. by repeat constructor. }
  assert (Hbase : all_ok (log e2) /\
                  count_calls is_go (log e2)
                  = (count_calls is_go (log e) + 2 * length eps)%nat).
  { rewrite Hl. split.
    - apply all_ok_app; [|apply listening_log_ok].
      apply all_ok_app; [exact Hok0|]. by repeat constructor.
    - rewrite !count_calls_app, listening_log_go. cbn. lia. }
  clear Hl. destruct Hbase as [Hok Hgo].
  destruct e2 as [o2 a2 l2]. cbn [log] in *.
  unfold bind, ask, tell, note, ret in E.
  destruct (debug fl), (nonempty (vpnkitSocket fl)),
    (nonempty (qemuSocket fl)), (nonempty (forwardSocket fl));
    cbn [oracle asked log fst snd negb] in E;
    repeat match type of E with
    | context [o2 ?n] =>
        destruct (o2 n) eqn:?; cbn [oracle asked log fst snd negb] in E
    end;
    injection E as <- <-; cbn [log].
  all: first
    [ split;
      [ repeat (apply all_ok_app;
                [|constructor; [reflexivity|constructor]]); exact Hok
      | rewrite ?count_calls_app, Hgo; cbn; lia ]
    | match goal with
      | |- exists pre c, ?l ++ [(?c0, false)] = _ /\ _ =>
          exists l, c0; split; [reflexivity|]; split; [|by right];
          repeat (apply all_ok_app;
                  [|constructor; [reflexivity|constructor]]); exact Hok
      end ].
Qed.

(** X19: [run] returns at the first call that fails, which is the
    creation of the virtual network or a listen, and starts nothing after
    it.  When it returns no error every call succeeded, and it has
    started two goroutines for each endpoint, one for --debug, one for
    the vpnkit socket, two for the qemu socket and one for the forward
    socket. *)
Theorem run_stops_at_first_failure
    (fl : Flags) (eps : list string) (o : nat -> bool) :
  let t := trace (run fl eps) o in
  match result (run fl eps) o with
  | None => all_ok t /\ count_calls is_go t = goroutines fl eps
  | Some _ =>
      exists pre c,
        t = pre ++ [(c, false)] /\ all_ok pre /\
        (c = VNNew \/ is_listen c = true)
  end.
Proof.
  cbv zeta. unfold result, trace.
  destruct (run fl eps (start o)) as [r e'] eqn:E.
  apply run_cases in E; [|constructor]. exact E.
Qed.

End RunMore.

Section Loops.

Import sshclient virtualnetwork gvproxy.

Variable HashHostname : string -> string.
Variable known_hosts : option (list knownHostsLine).
Variable server_key : PublicKey.

Lemma count_entries_app p t1 t2 :
  count_entries p (t1 ++ t2) = (count_entries p t1 + count_entries p t2)%nat.
Proof. unfold count_entries. by rewrite List.filter_app, length_app. Qed.

Lemma vpnloop_cases fuel : forall e r e',
  vpnloop fuel e = (r, e') ->
  exists t,
    log e' = log e ++ t /\
    count_calls is_go t = count_entries vpn_accepted t /\
    count_calls go_accept_vpnkit t = count_entries vpn_accepted t /\
    count_calls is_log_error t = count_entries vpn_refused t /\
    match r with
    | Done err =>
        err = None /\
        exists pre, t = pre ++ [(CtxDone, true)] /\ ~ In (CtxDone, true) pre
    | OutOfFuel =>
        ~ In (CtxDone, true) t /\ count_calls ctx_tested t = fuel
    end.
Proof.
  induction fuel as [|fuel IH]; intros e r e'; cbn [vpnloop].
  - intros [= <- <-]. exists []. rewrite app_nil_r.
    repeat split; try reflexivity. intros [].
  - unfold bind, ask, tell, note, ret.
    destruct (oracle e (asked e)); cbn [oracle asked log negb].
    { intros [= <- <-]. exists [(CtxDone, true)].
      repeat split; try reflexivity.
      exists []. split; [reflexivity|intros []]. }
    destruct (oracle e (S (asked e))) eqn:Hacc; cbn [oracle asked log negb];
      intros E; apply IH in E; cbn [log] in E;
      destruct E as (t & Hl & Hgo & Hgv & Herr & Hr).
    + exists ((CtxDone, false) :: (Accept VpnkitLn, true)
              :: (Go AcceptVpnKit, true) :: t).
      split; [rewrite Hl; by rewrite <- !app_assoc|].
      rewrite !count_calls_cons.
      change ((CtxDone, false) :: (Accept VpnkitLn, true)
              :: (Go AcceptVpnKit, true) :: t)
        with ([(CtxDone, false); (Accept VpnkitLn, true);
               (Go AcceptVpnKit, true)] ++ t).
      rewrite !count_entries_app, Hgo, Hgv, Herr.
      repeat split; try reflexivity.
      destruct r as [err|].
      * destruct Hr as (-> & pre & -> & Hpre). split; [reflexivity|].
        exists ((CtxDone, false) :: (Accept VpnkitLn, true)
                :: (Go AcceptVpnKit, true) :: pre).
        split; [reflexivity|].
        intros [H|[H|[H|H]]]; try discriminate H. by apply Hpre.
      * destruct Hr as [Hno Hc]. split.
        -- intros [H|[H|[H|H]]]; try discriminate H. by apply Hno.
        -- rewrite Hc. reflexivity.
    + exists ((CtxDone, false) :: (Accept VpnkitLn, false)
              :: (LogError "vpnkit accept error", true) :: t).
      split; [rewrite Hl; by rewrite <- !app_assoc|].
      rewrite !count_calls_cons.
      change ((CtxDone, false) :: (Accept VpnkitLn, false)
              :: (LogError "vpnkit accept error", true) :: t)
        with ([(CtxDone, false); (Accept VpnkitLn, false);
               (LogError "vpnkit accept error", true)] ++ t).
      rewrite !count_entries_app, Hgo, Hgv, Herr.
      repeat split; try reflexivity.
      destruct r as [err|].
      * destruct Hr as (-> & pre & -> & Hpre). split; [reflexivity|].
        exists ((CtxDone, false) :: (Accept VpnkitLn, false)
                :: (LogError "vpnkit accept error", true) :: pre).
        split; [reflexivity|].
        intros [H|[H|[H|H]]]; try discriminate H. by apply Hpre.
      * destruct Hr as [Hno Hc]. split.
        -- intros [H|[H|[H|H]]]; try discriminate H. by apply Hno.
        -- rewrite Hc. reflexivity.
Qed.

Lemma vpnloop_returns fuel : forall n e,
  (n < fuel)%nat ->
  oracle e (asked e + 2 * n)%nat = true ->
  fst (vpnloop fuel e) = Done None.
Proof.
  induction fuel as [|fuel IH]; intros n e Hn Ho; [lia|].
  cbn [vpnloop]. unfold bind, ask, tell, note, ret.
  destruct (oracle e (asked e)) eqn:H0; [reflexivity|].
  destruct n as [|n].
  { rewrite Nat.add_0_r in Ho. congruence. }
  cbn [oracle asked log negb].
  destruct (oracle e (S (asked e))); cbn [oracle asked log negb];
    apply (IH n); try lia; cbn [oracle asked];
    (replace (S (S (asked e)) + 2 * n)%nat with (asked e + 2 * S n)%nat
      by lia); exact Ho.
Qed.

(** X20: the vpnkit accept loop never returns an error: it ends, with
    nil, only when it finds the context done at the top of a pass, and it
    does so when that happens within its fuel.  Each accepted connection
    gets one goroutine, [AcceptVpnKit], and the loop starts no other; a
    failed accept is logged and the loop goes on. *)
Theorem vpnloop_accepts (fuel : nat) (o : nat -> bool) :
  let r := result (vpnloop fuel) o in
  let t := trace (vpnloop fuel) o in
  count_calls is_go t = count_entries vpn_accepted t /\
  count_calls go_accept_vpnkit t = count_entries vpn_accepted t /\
  count_calls is_log_error t = count_entries vpn_refused t /\
  match r with
  | Done err =>
      err = None /\
      exists pre, t = pre ++ [(CtxDone, true)] /\ ~ In (CtxDone, true) pre
  | OutOfFuel => ~ In (CtxDone, true) t /\ count_calls ctx_tested t = fuel
  end /\
  (forall n, (n < fuel)%nat -> o (2 * n)%nat = true -> r = Done None).
Proof.
  cbv zeta. unfold result, trace.
  pose proof (fun n Hn Ho => vpnloop_returns fuel n (start o) Hn Ho) as Hret.
  revert Hret.
  destruct (vpnloop fuel (start o)) as [r e'] eqn:E. intros Hret.
  apply vpnloop_cases in E. cbn [fst snd start log app asked] in *.
  destruct E as (t & -> & Hgo & Hgv & Herr & Hr).
  repeat (split; [assumption|]). exact Hret.
Qed.

End Loops.

Section Forwarder.

Import sshclient virtualnetwork gvproxy.

Variable HashHostname : string -> string.
Variable known_hosts : option (list knownHostsLine).
Variable server_key : PublicKey.

Lemma quiet_initialConnection_loop n : forall b c err,
  never starts_or_accepts (initialConnection_loop n b c err).
Proof.
  induction n as [|n IH]; intros b c err; cbn [initialConnection_loop];
    unfold sleep; never_auto.
Qed.

Lemma quiet_scan lines host hashhost :
  never starts_or_accepts (scan lines host hashhost).
Proof.
  induction lines as [|[[hosts key]|] lines IH]; cbn [scan]; never_auto.
Qed.

Lemma quiet_CreateBastion _url passPhrase identity initial :
  never starts_or_accepts
    (CreateBastion HashHostname known_hosts server_key _url passPhrase
       identity initial).
Proof.
  unfold CreateBastion, HostKey, reconnect, NewClientConn.
  destruct (ParseBool _) as [sec perr].
  destruct (Password _) as [pw found].
  pose proof quiet_scan.
  never_auto.
Qed.

Lemma quiet_setupProxy socket dest identity :
  never starts_or_accepts
    (setupProxy HashHostname known_hosts server_key socket dest identity).
Proof.
  unfold setupProxy, listenUnix, initialConnection.
  pose proof quiet_initialConnection_loop.
  pose proof quiet_CreateBastion.
  never_auto.
Qed.

(** What [setupProxy] returns and how its log starts. *)
Lemma setupProxy_cases socket dest identity e r e' :
  setupProxy HashHostname known_hosts server_key socket dest identity e
    = (r, e') ->
  (Atoi (Port dest) = None /\ e' = e /\
   r = (noForward, Some ("Invalid port for ssh forward: " +:+ Port dest))) \/
  (Atoi (Port dest) <> None /\
   log e' = log e ++ [(Listen ForwardLn socket, false)] /\
   r = (noForward,
        Some (("Error listening on socket: " +:+ socket) +:+ ": listen"))) \/
  (Atoi (Port dest) <> None /\
   exists t, log e' = log e ++ (Listen ForwardLn socket, true) :: t /\
     ((fst r = noForward /\ snd r <> None) \/
      (snd r = None /\ listening (fst r) = true /\ sock (fst r) = socket /\
       Client (bastion (fst r)) = Some Channel /\
       Host (bastion (fst r)) = Hostname dest /\
       BastionPath (bastion (fst r)) = Path dest))).
Proof.
  unfold setupProxy.
  destruct (Atoi (Port dest)) as [port|] eqn:Hport.
  2: { intros [= <- <-]. left. by repeat split. }
  intros E. right. unfold listenUnix in E.
  unfold bind at 1 2 in E. unfold ask at 1 in E.
  destruct (oracle e (asked e)); cbn [negb] in E.
  2: { injection E as <- <-. left. by repeat split. }
  right. split; [done|]. unfold ret at 1 in E.
  unfold bind at 1 in E. unfold initialConnection in E.
  match type of E with
  | context [initialConnection_loop ?n ?b ?c ?err ?e1] =>
      destruct (quiet_initialConnection_loop n b c err e1) as (t1 & Ht1 & _);
      destruct (initialConnection_loop n b c err e1) as [[c1 [msg|]] e2]
  end; cbn [snd log] in Ht1.
  { injection E as <- <-. exists t1.
    split; [rewrite Ht1; by rewrite <- app_assoc|]. left. by split. }
  unfold bind at 1 in E.
  destruct (quiet_CreateBastion dest "" identity c1 e2) as (t2 & Ht2 & _).
  pose proof (CreateBastion_cases HashHostname known_hosts server_key dest ""
                identity c1 e2) as Hb. cbv zeta in Hb.
  destruct (CreateBastion HashHostname known_hosts server_key dest ""
              identity c1 e2) as [[b berr] e3].
  cbn [fst snd] in *.
  assert (Hlog : log e3 = log e ++ (Listen ForwardLn socket, true)
                                     :: (t1 ++ t2)).
  { rewrite Ht2, Ht1. by rewrite <- !app_assoc. }
  destruct berr as [msg|]; injection E as <- <-; exists (t1 ++ t2);
    (split; [exact Hlog|]).
  { left. by split. }
  right. cbn [fst snd listening sock bastion].
  repeat (split; [reflexivity|]).
  destruct Hb as [[_ Hb]|(callback & e4 & Hb)]; [done|].
  match type of Hb with
  | _ = fst (reconnect _ ?B _ _) =>
      destruct (reconnect_cases server_key B c1 e4)
        as [[Hok _]|(msg & Hfail)]
  end.
  - rewrite Hok in Hb. injection Hb as ->. by repeat split.
  - rewrite Hfail in Hb. discriminate Hb.
Qed.

(** X21: [CreateSSHForward] goes through its stages in order and stops
    at the first that fails, returning the empty forward with the error:
    the removal of an old socket, the port of the destination, the listen
    on the socket, then the connection and the bastion.  On success the
    forward listens on the socket it was given and its bastion holds a
    client for the host and path of the destination.  It accepts no
    connection and starts no goroutine. *)
Theorem CreateSSHForward_stages
    (socket : string) (dest : URL) (identity : string) (o : nat -> bool) :
  let create := CreateSSHForward HashHostname known_hosts server_key socket
                  dest identity in
  let r := result create o in
  let t := trace create o in
  count_calls starts_or_accepts t = 0%nat /\
  ((r = (noForward, Some "remove") /\ t = [(RemoveFile socket, false)]) \/
   (r = (noForward, Some ("Invalid port for ssh forward: " +:+ Port dest)) /\
    Atoi (Port dest) = None /\ t = [(RemoveFile socket, true)]) \/
   (r = (noForward,
         Some (("Error listening on socket: " +:+ socket) +:+ ": listen")) /\
    t = [(RemoveFile socket, true); (Listen ForwardLn socket, false)]) \/
   (exists t',
      t = (RemoveFile socket, true) :: (Listen ForwardLn socket, true) :: t' /\
      Atoi (Port dest) <> None /\
      ((fst r = noForward /\ snd r <> None) \/
       (snd r = None /\ listening (fst r) = true /\ sock (fst r) = socket /\
        Client (bastion (fst r)) = Some Channel /\
        Host (bastion (fst r)) = Hostname dest /\
        BastionPath (bastion (fst r)) = Path dest)))).
Proof.
  cbv zeta. split.
  { unfold trace.
    assert (Hq : never starts_or_accepts
                   (CreateSSHForward HashHostname known_hosts server_key
                      socket dest identity)).
    { unfold CreateSSHForward. pose proof quiet_setupProxy. never_auto. }
    destruct (Hq (start o)) as (t & -> & Ht). exact Ht. }
  unfold result, trace, CreateSSHForward.
  unfold bind, ask. cbn [start oracle asked log app].
  destruct (o 0%nat); cbn [negb].
  2: { left. split; reflexivity. }
  right.
  match goal with
  | |- context [setupProxy _ _ _ socket dest identity ?e1] =>
      destruct (setupProxy HashHostname known_hosts server_key socket dest
                  identity e1) as [r e'] eqn:E
  end.
  apply setupProxy_cases in E. cbn [fst snd log] in *.
  destruct E as [(Hport & -> & ->)|[(Hport & Hl & ->)|(Hport & t' & Hl & Hr)]].
  - left. by repeat split.
  - right. left. rewrite Hl. by split.
  - right. right. exists t'. rewrite Hl. by repeat split.
Qed.

Lemma forwardLoop_cases fuel : forall fw e r e',
  forwardLoop fuel fw e = (r, e') ->
  exists t,
    log e' = log e ++ t /\
    match r with
    | Done err => err = None /\ exists pre, t = pre ++ [(CtxDone, true)]
    | OutOfFuel => True
    end.
Proof.
  induction fuel as [|fuel IH]; intros fw e r e'.
  - intros [= <- <-]. exists []. by rewrite app_nil_r.
  - cbn [forwardLoop]. unfold bind at 1. unfold ask at 1.
    destruct (oracle e (asked e)).
    { intros [= <- <-]. exists [(CtxDone, true)]. split; [reflexivity|].
      split; [reflexivity|]. by exists []. }
    unfold bind at 1. unfold AcceptAndTunnel.
    match goal with
    | |- context [acceptConnection ?f ?b ?p ?e1] =>
        destruct (never_acceptConnection f b p e1) as (ta & Hta & _);
        destruct (acceptConnection f b p e1) as [[err|] e2]
    end; cbn [snd log] in Hta.
    2: { intros [= <- <-]. exists ((CtxDone, false) :: ta).
         split; [rewrite Hta; by rewrite <- app_assoc|done]. }
    unfold bind at 1.
    assert (Hd : exists td,
               log (snd ((match err with
                          | Some e0 => tell (LogDebug e0)
                          | None => ret tt
                          end) e2)) = log e2 ++ td).
    { destruct err; [by eexists|exists []; by rewrite app_nil_r]. }
    destruct Hd as (td & Hd).
    destruct (match err with
              | Some e0 => tell (LogDebug e0)
              | None => ret tt
              end e2) as [[] e3].
    cbn [snd] in Hd.
    intros E. apply IH in E. destruct E as (t & Hl & Hr).
    exists ((CtxDone, false) :: ta ++ td ++ t).
    split; [rewrite Hl, Hd, Hta; by rewrite <- !app_assoc|].
    destruct r as [rerr|]; [|done].
    destruct Hr as (-> & pre & ->). split; [reflexivity|].
    exists ((CtxDone, false) :: ta ++ td ++ pre).
    cbn. by rewrite <- !app_assoc.
Qed.

(** X22: the accept loop of the SSH forwarder never returns an error,
    whatever [AcceptAndTunnel] returns.  It ends, with nil, only when it
    finds the context done at the top of a pass; when the context is done
    from the start it accepts nothing. *)
Theorem forwardLoop_ends_on_done
    (fuel : nat) (forward : SSHForward) (o : nat -> bool) :
  let r := result (forwardLoop fuel forward) o in
  let t := trace (forwardLoop fuel forward) o in
  (forall msg, r <> Done (Some msg)) /\
  (r = Done None -> exists pre, t = pre ++ [(CtxDone, true)]) /\
  ((0 < fuel)%nat -> o 0%nat = true ->
   r = Done None /\ t = [(CtxDone, true)]).
Proof.
  cbv zeta. unfold result, trace. split; [|split].
  3: { intros Hf H0. destruct fuel as [|fuel]; [lia|].
       cbn [forwardLoop]. unfold bind, ask. cbn [start oracle asked log].
       rewrite H0. by split. }
  all: destruct (forwardLoop fuel forward (start o)) as [r e'] eqn:E;
    apply forwardLoop_cases in E; destruct E as (t & Hl & Hr);
    cbn [fst snd start log app] in *.
  - intros msg ->. by destruct Hr.
  - intros ->. destruct Hr as (_ & pre & ->). by exists pre.
Qed.

Lemma quiet_CreateSSHForward socket dest identity :
  never starts_or_accepts
    (CreateSSHForward HashHostname known_hosts server_key socket dest
       identity).
Proof. unfold CreateSSHForward. pose proof quiet_setupProxy. never_auto. Qed.

End Forwarder.

Section ForwardGoroutine.

Import gvproxy.

Variable HashHostname : string -> string.
Variable known_hosts : option (list sshclient.knownHostsLine).
Variable server_key : sshclient.PublicKey.

(** X23: the goroutine of the SSH forwarder returns the error of
    [CreateSSHForward] when it has one, without starting a goroutine or
    accepting a connection; otherwise it starts the goroutine that closes
    the forward, runs the accept loop, and returns nil when the loop ends.
    On every path its last call is the deferred removal of the forward
    socket. *)
Theorem forward_goroutine_removes_socket
    (fuel : nat) (fl : Flags) (o : nat -> bool) :
  let create := virtualnetwork.CreateSSHForward HashHostname known_hosts server_key
                  (forwardSocket fl) (dest fl) (forwardIdentify fl) in
  let goroutine := exec HashHostname known_hosts server_key fuel fl
                     SSHForward in
  let r := result goroutine o in
  let t := trace goroutine o in
  exists removed,
    match snd (result create o) with
    | Some e =>
        r = Done (Some e) /\
        t = trace create o ++ [(RemoveFile (forwardSocket fl), removed)] /\
        count_calls starts_or_accepts t = 0%nat
    | None =>
        exists t',
          t = trace create o ++ (Go ForwardClose, true) :: t'
              ++ [(RemoveFile (forwardSocket fl), removed)] /\
          match r with
          | Done err => err = None /\ exists pre, t' = pre ++ [(CtxDone, true)]
          | OutOfFuel => True
          end
    end.
Proof.
  cbv zeta. unfold result, trace, exec.
  destruct (quiet_CreateSSHForward HashHostname known_hosts server_key
              (forwardSocket fl) (dest fl) (forwardIdentify fl) (start o))
    as (tc & Htc & Hc).
  cbn [start log app] in Htc.
  unfold bind, ask, ret, tell, note.
  destruct (virtualnetwork.CreateSSHForward HashHostname known_hosts
              server_key (forwardSocket fl) (dest fl) (forwardIdentify fl)
              (start o))
    as [[fw [msg|]] e1]; cbn [fst snd log oracle asked] in *.
  - eexists. split; [reflexivity|]. split; [by rewrite Htc|].
    rewrite count_calls_app, Htc, Hc. reflexivity.
  - match goal with
    | |- context [forwardLoop fuel fw ?e2] =>
        destruct (forwardLoop fuel fw e2) as [res e3] eqn:E
    end.
    apply forwardLoop_cases in E. destruct E as (t' & Hl & Hr).
    cbn [fst snd log oracle asked] in *.
    eexists. exists t'.
    split; [rewrite Hl, Htc; by rewrite <- !app_assoc|].
    exact Hr.
Qed.

End ForwardGoroutine.

Section QemuSocket.

Import gvproxy.

Variable url_Parse : string -> option (string * string).

(** X24: with --listen-qemu given, [main] first checks the socket: a
    value that does not parse ends the process with status 1 before any
    other call, and so does a unix socket whose path already exists,
    right after the [os.Stat] that found it. *)
Theorem main_checks_qemu_socket (fl : Flags) (o : nat -> bool) :
  qemuSocket fl <> "" ->
  let r := result (main url_Parse fl) o in
  let t := trace (main url_Parse fl) o in
  (url_Parse (qemuSocket fl) = None ->
   r = Exit 1 /\
   t = [(LogError "invalid value for listen-qemu", true); (OsExit 1, true)]) /\
  (forall path,
     url_Parse (qemuSocket fl) = Some ("unix", path) -> o 0%nat = true ->
     r = Exit 1 /\
     t = [(Stat path, true); (LogError (path +:+ " already exists"), true);
          (OsExit 1, true)]).
Proof.
  intros Hq. apply nonempty_true in Hq. cbv zeta.
  unfold result, trace, main, checkSockets.
  assert (Hw : forall fl' : Flags,
             qemuSocket fl' = qemuSocket fl ->
             (0 <? Z.of_nat (String.length (qemuSocket fl'))) = true).
  { intros fl' ->. by rewrite nonempty_length. }
  destruct (Z.of_nat (length (endpoints fl)) =? 0);
    (rewrite Hw by reflexivity); cbn [qemuSocket]; split.
  all: try (intros ->; split; reflexivity).
  all: intros path -> H0; unfold bind, ask, exitWithError, tell, note, ret;
    cbn [start oracle asked log app]; rewrite H0; split; reflexivity.
Qed.

End QemuSocket.

Lemma main_checks_qemu_socket_witness :
  url.Parse "unix:///tmp/qemu.sock" = Some ("unix", "/tmp/qemu.sock") /\
  result (gvproxy.main url.Parse qemu_url_flags) (script [] true)
    = gvproxy.Exit 1 /\
  url.Parse ":qemu.sock" = None /\
  result (gvproxy.main url.Parse qemu_bad_flags) (script [] true)
    = gvproxy.Exit 1.
Proof.
  split; [reflexivity|]. split; [|split; [reflexivity|]].
  - refine (proj1 (proj2 (main_checks_qemu_socket url.Parse qemu_url_flags
                            (script [] true) _) "/tmp/qemu.sock" _ _));
      [discriminate|reflexivity|reflexivity].
  - refine (proj1 (proj1 (main_checks_qemu_socket url.Parse qemu_bad_flags
                            (script [] true) _) _));
      [discriminate|reflexivity].
Defined.

(** A bare path has no scheme: the socket file may exist and [main] goes
    on all the same. *)
Example main_qemu_bare_path :
  url.Parse "/tmp/qemu.sock" = Some ("", "/tmp/qemu.sock") /\
  In (Go RunTask, true)
    (trace (gvproxy.main url.Parse qemu_flags) (script [] true)).
Proof. split; [reflexivity|]. vm_compute. tauto. Qed.

Lemma main_pid_file_witness :
  exists (pre : list entry) (removed : bool),
    trace (gvproxy.main parse_unix pid_flags) (script [] true)
    = pre ++ (RemoveFile "/tmp/gvproxy.pid", removed)
          :: (if removed then []
              else [(LogError "remove pid-file", true)])
          ++ [(OsExit 0, true)] /\
    count_calls is_remove pre = 0%nat /\
    In (WriteString, true) pre.
Proof.
  refine (proj1 (main_pid_file parse_unix pid_flags (script [] true)) _ _);
    [discriminate|reflexivity].
Defined.

Lemma vpnloop_accepts_witness :
  result (gvproxy.vpnloop 3) (script [false; true; true] true) = Done None.
Proof.
  refine (proj2 (proj2 (proj2 (proj2
            (vpnloop_accepts 3 (script [false; true; true] true))))) 1%nat
            _ _); [lia|reflexivity].
Defined.

Lemma forwardLoop_ends_on_done_witness :
  result (gvproxy.forwardLoop 1 virtualnetwork.noForward) (script [] true)
  = Done None.
Proof.
  refine (proj1 (proj2 (proj2
            (forwardLoop_ends_on_done 1 virtualnetwork.noForward
               (script [] true))) _ _)); [lia|reflexivity].
Defined.
